(** * Chain-of-custody file movement: a shallow embedding of the backend

    The development follows the JavaScript sources:

    - [models/ChainOfCustody.js]   the Mongoose schema, [addCustodyEvent],
                                   [findByFileId];
    - [routes/upload.js]           POST /api/upload, GET /api/upload/list;
    - [routes/move.js]             POST /api/move;
    - [routes/download.js]         GET /api/download/:fileId,
                                   POST /api/download/access-log;
    - [simple-server.js]           the in-memory variant of the same endpoints;
    - [manual-hash-generator.js]   the [HashGenerator] command line utility.

    Node's own modules ([crypto], [path]) are not part of the repository; the
    development takes them as a [Runtime] record and every theorem holds for
    all runtimes.  A concrete runtime (SHA-256 and MD5 as published, POSIX
    path functions) is given to evaluate the handlers on examples.

    Layout: the embedding ([Model], [Http], [Disk], [Routes], [UploadList],
    [SimpleServer], [HashGenerator]), the concrete runtime and the example
    requests ([Sample], [Scenario]), the reachable states ([Reach]), then
    the theorems. *)

From Stdlib Require Import List String Ascii Bool ZArith NArith Lia.
From Stdlib Require Import Permutation Sorted OrderedTypeEx.
From Stdlib.Strings Require Byte.
Import ListNotations.

Local Open Scope string_scope.
Local Open Scope Z_scope.
Local Open Scope list_scope.


(* ================================================================= *)
(** ** JavaScript strings and buffers *)

Definition bytes := list Byte.byte.

(** JavaScript truthiness of a string-valued request field: absent
    ([undefined]) and the empty string are falsy. *)
Definition truthy (s : option string) : bool :=
  match s with
  | Some (String _ _) => true
  | _ => false
  end.

(** [a || b] on string-valued fields. *)
Definition or_else (a : option string) (b : string) : string :=
  match a with
  | Some (String c s) => String c s
  | _ => b
  end.

Definition nonempty (s : string) : bool :=
  match s with
  | EmptyString => false
  | String _ _ => true
  end.

(** [String.prototype.toLowerCase] on the code units the digests use: the
    letters A-Z move to a-z, every other unit below 128 is kept.  Units from
    128 on are outside the hex alphabet and are kept as they are. *)
Definition lower_ascii (c : ascii) : ascii :=
  let n := N_of_ascii c in
  if (N.leb 65 n && N.leb n 90)%bool then ascii_of_N (n + 32) else c.

Fixpoint toLowerCase (s : string) : string :=
  match s with
  | EmptyString => EmptyString
  | String c r => String (lower_ascii c) (toLowerCase r)
  end.

Fixpoint toUpperCase (s : string) : string :=
  match s with
  | EmptyString => EmptyString
  | String c r =>
      let n := N_of_ascii c in
      String (if (N.leb 97 n && N.leb n 122)%bool then ascii_of_N (n - 32) else c)
             (toUpperCase r)
  end.

(** [Buffer.toString('hex')] / [hash.digest('hex')]: two lowercase hex
    digits per byte. *)
Definition hex_digit (n : N) : ascii :=
  if N.ltb n 10 then ascii_of_N (48 + n) else ascii_of_N (87 + n).

Definition hex_of_byte (b : Byte.byte) : string :=
  let n := Byte.to_N b in
  String (hex_digit (N.div n 16)) (String (hex_digit (N.modulo n 16)) EmptyString).

Fixpoint hex_of_bytes (bs : bytes) : string :=
  match bs with
  | [] => EmptyString
  | b :: r => (hex_of_byte b ++ hex_of_bytes r)%string
  end.

(** UTF-8 bytes of a string ([hash.update(str)]); strings are kept as their
    byte sequences. *)
Definition utf8 (s : string) : bytes := list_byte_of_string s.

(* ================================================================= *)
(** ** What the code takes from Node *)

Record Runtime := {
  (** [crypto.createHash(alg).update(data).digest()], the raw digest *)
  createHash : string -> bytes -> bytes;
  (** [path.resolve], [path.basename], [path.dirname], [path.join] *)
  path_resolve : string -> string;
  path_basename : string -> string;
  path_dirname : string -> string;
  path_join : list string -> string;
  (** [__dirname] of the modules under [routes/] *)
  routes_dirname : string
}.

(* ================================================================= *)
(** ** A concrete SHA-256 (FIPS 180-4), to run the handlers on examples *)

Module SHA256.

Definition w32 (x : Z) : Z := Z.land x 4294967295.
Definition add32 (x y : Z) : Z := w32 (x + y).
Definition rotr (n x : Z) : Z :=
  w32 (Z.lor (Z.shiftr x n) (Z.shiftl x (32 - n))).
Definition shr (n x : Z) : Z := Z.shiftr x n.

Definition Ch (x y z : Z) : Z :=
  Z.lxor (Z.land x y) (Z.land (w32 (Z.lnot x)) z).
Definition Maj (x y z : Z) : Z :=
  Z.lxor (Z.lxor (Z.land x y) (Z.land x z)) (Z.land y z).
Definition Sigma0 (x : Z) : Z := Z.lxor (Z.lxor (rotr 2 x) (rotr 13 x)) (rotr 22 x).
Definition Sigma1 (x : Z) : Z := Z.lxor (Z.lxor (rotr 6 x) (rotr 11 x)) (rotr 25 x).
Definition sigma0 (x : Z) : Z := Z.lxor (Z.lxor (rotr 7 x) (rotr 18 x)) (shr 3 x).
Definition sigma1 (x : Z) : Z := Z.lxor (Z.lxor (rotr 17 x) (rotr 19 x)) (shr 10 x).

(** The round constants are the first 32 bits of the fractional parts of
    the cube roots of the first 64 primes, the initial hash value those of
    the square roots of the first 8 primes; both are computed here. *)
Definition is_prime (n : Z) : bool :=
  List.forallb (fun d => negb (n mod d =? 0) || (n <=? d))
               (List.map Z.of_nat (List.seq 2 17)).

Definition primes : list Z :=
  List.filter is_prime (List.map Z.of_nat (List.seq 2 310)).

(** The largest [r] with [r^3 <= n], bit by bit from bit [bits - 1] down. *)
Fixpoint cube_root (bits : nat) (n acc : Z) : Z :=
  match bits with
  | O => acc
  | S b =>
      let try := acc + Z.shiftl 1 (Z.of_nat b) in
      cube_root b n (if try * try * try <=? n then try else acc)
  end.

Definition K : list Z :=
  Eval vm_compute in
    List.map (fun p => w32 (cube_root 36 (Z.shiftl p 96) 0)) (List.firstn 64 primes).

Definition H0 : list Z :=
  Eval vm_compute in
    List.map (fun p => w32 (Z.sqrt (Z.shiftl p 64))) (List.firstn 8 primes).

Definition byteZ (b : Byte.byte) : Z := Z.of_N (Byte.to_N b).

Definition Zbyte (z : Z) : Byte.byte :=
  match Byte.of_N (Z.to_N (Z.land z 255)) with
  | Some b => b
  | None => Byte.x00
  end.

(** Big-endian bytes of the low [8 * n] bits of [z]. *)
Fixpoint be_bytes (n : nat) (z : Z) : list Z :=
  match n with
  | O => []
  | S m => Z.land (Z.shiftr z (8 * Z.of_nat m)) 255 :: be_bytes m z
  end.

(** Padding: 0x80, zeros up to 56 mod 64, then the bit length on 8 bytes. *)
Definition pad (msg : list Z) : list Z :=
  let len := Z.of_nat (List.length msg) in
  let zeros := Z.to_nat ((55 - len) mod 64) in
  msg ++ [128] ++ List.repeat 0 zeros ++ be_bytes 8 (8 * len).

Fixpoint words (fuel : nat) (bs : list Z) : list Z :=
  match fuel, bs with
  | S f, a :: b :: c :: d :: r =>
      (Z.shiftl a 24 + Z.shiftl b 16 + Z.shiftl c 8 + d) :: words f r
  | _, _ => []
  end.

(** Message schedule, most recent word first. *)
Fixpoint schedule (n : nat) (rev_w : list Z) : list Z :=
  match n with
  | O => rev_w
  | S m =>
      let w := add32 (add32 (sigma1 (nth 1 rev_w 0)) (nth 6 rev_w 0))
                     (add32 (sigma0 (nth 14 rev_w 0)) (nth 15 rev_w 0)) in
      schedule m (w :: rev_w)
  end.

Definition round (st : list Z) (kw : Z * Z) : list Z :=
  match st with
  | [a; b; c; d; e; f; g; h] =>
      let t1 := add32 (add32 (add32 h (Sigma1 e)) (add32 (Ch e f g) (fst kw))) (snd kw) in
      let t2 := add32 (Sigma0 a) (Maj a b c) in
      [add32 t1 t2; a; b; c; add32 d t1; e; f; g]
  | _ => st
  end.

Definition compress (h : list Z) (block : list Z) : list Z :=
  let w := List.rev (schedule 48 (List.rev block)) in
  let st := List.fold_left round (List.combine K w) h in
  List.map (fun p => add32 (fst p) (snd p)) (List.combine h st).

Fixpoint blocks (fuel : nat) (h : list Z) (ws : list Z) : list Z :=
  match fuel with
  | O => h
  | S f =>
      match ws with
      | [] => h
      | _ => blocks f (compress h (List.firstn 16 ws)) (List.skipn 16 ws)
      end
  end.

Definition sha256 (msg : bytes) : bytes :=
  let p := pad (List.map byteZ msg) in
  let ws := words (List.length p) p in
  let h := blocks (List.length ws) H0 ws in
  List.map Zbyte (List.concat (List.map (be_bytes 4) h)).

End SHA256.

(* ================================================================= *)
(** ** models/ChainOfCustody.js *)

Module Model.

(** [action: enum ['upload','move','download','access']] *)
Inductive Action := Upload | Move | Download | Access.

(** [status: enum ['active','archived','deleted'], default 'active'] *)
Inductive Status := Active | Archived | Deleted.

Definition action_eqb (a b : Action) : bool :=
  match a, b with
  | Upload, Upload | Move, Move | Download, Download | Access, Access => true
  | _, _ => false
  end.

Definition status_eqb (a b : Status) : bool :=
  match a, b with
  | Active, Active | Archived, Archived | Deleted, Deleted => true
  | _, _ => false
  end.

Definition status_string (s : Status) : string :=
  match s with
  | Active => "active"
  | Archived => "archived"
  | Deleted => "deleted"
  end.

(** One element of [custodyChain]. Dates are milliseconds since the epoch. *)
Record CustodyEvent := {
  action : Action;
  timestamp : Z;
  userId : string;
  location : string;
  ipAddress : option string;
  userAgent : option string;
  notes : option string
}.

Record Metadata := {
  department : option string;
  caseNumber : option string;
  evidenceType : option string;
  classification : option string;
  tags : list string
}.

Record ChainOfCustody := {
  fileId : string;
  originalFileName : string;
  filePath : string;
  fileSize : Z;
  mimeType : string;
  checksum : string;
  custodyChain : list CustodyEvent;
  currentLocation : string;
  status : Status;
  metadata : Metadata;
  createdAt : Z;
  updatedAt : Z
}.

Definition set_chain (r : ChainOfCustody) (c : list CustodyEvent) (loc : string)
  : ChainOfCustody :=
  {| fileId := fileId r; originalFileName := originalFileName r;
     filePath := filePath r; fileSize := fileSize r; mimeType := mimeType r;
     checksum := checksum r; custodyChain := c; currentLocation := loc;
     status := status r; metadata := metadata r;
     createdAt := createdAt r; updatedAt := updatedAt r |}.

Definition set_filePath (r : ChainOfCustody) (p : string) : ChainOfCustody :=
  {| fileId := fileId r; originalFileName := originalFileName r;
     filePath := p; fileSize := fileSize r; mimeType := mimeType r;
     checksum := checksum r; custodyChain := custodyChain r;
     currentLocation := currentLocation r;
     status := status r; metadata := metadata r;
     createdAt := createdAt r; updatedAt := updatedAt r |}.

Definition set_status (r : ChainOfCustody) (s : Status) : ChainOfCustody :=
  {| fileId := fileId r; originalFileName := originalFileName r;
     filePath := filePath r; fileSize := fileSize r; mimeType := mimeType r;
     checksum := checksum r; custodyChain := custodyChain r;
     currentLocation := currentLocation r;
     status := s; metadata := metadata r;
     createdAt := createdAt r; updatedAt := updatedAt r |}.

Definition set_updatedAt (r : ChainOfCustody) (t : Z) : ChainOfCustody :=
  {| fileId := fileId r; originalFileName := originalFileName r;
     filePath := filePath r; fileSize := fileSize r; mimeType := mimeType r;
     checksum := checksum r; custodyChain := custodyChain r;
     currentLocation := currentLocation r;
     status := status r; metadata := metadata r;
     createdAt := createdAt r; updatedAt := t |}.

(** The in-memory part of [schema.methods.addCustodyEvent]:
    [this.custodyChain.push(eventData); if (eventData.location)
    this.currentLocation = eventData.location]; the [this.save()] that
    follows is [save] below. *)
Definition addCustodyEvent (r : ChainOfCustody) (e : CustodyEvent) : ChainOfCustody :=
  set_chain r (custodyChain r ++ [e])
            (if nonempty (location e) then location e else currentLocation r).

(** The collection as a list of its documents: in insertion order in the
    states the handlers pass on; for a query, in the order in which the
    server comes across the documents, which it does not promise to be the
    same from one query to the next. *)
Definition Collection := list ChainOfCustody.

(** [schema.statics.findByFileId]: [this.findOne({ fileId })]. *)
Definition findByFileId (db : Collection) (id : string) : option ChainOfCustody :=
  List.find (fun d => String.eqb (fileId d) id) db.

(** The schema's [required: true] validators: a required String must be
    present and non-empty. *)
Definition event_valid (e : CustodyEvent) : bool :=
  nonempty (userId e) && nonempty (location e).

Definition schema_valid (d : ChainOfCustody) : bool :=
  nonempty (fileId d) && nonempty (originalFileName d) && nonempty (filePath d)
  && nonempty (mimeType d) && nonempty (checksum d)
  && nonempty (currentLocation d) && List.forallb event_valid (custodyChain d).

(** Why a [save()] rejected. *)
Inductive SaveError := DbUnavailable | ValidationFailed | DuplicateKey.

(** [doc.save()] of a new document: validation, the database reached, and
    the unique index on [fileId]; [createdAt]/[updatedAt] come from
    [timestamps: true] and are set by the caller to the time of the save. *)
Definition save_new (reachable : bool) (db : Collection) (d : ChainOfCustody)
  : Collection + SaveError :=
  if negb (schema_valid d) then inr ValidationFailed
  else if negb reachable then inr DbUnavailable
  else match findByFileId db (fileId d) with
       | Some _ => inr DuplicateKey
       | None => inl (db ++ [d])
       end.

Fixpoint replace_doc (d : ChainOfCustody) (db : Collection) : Collection :=
  match db with
  | [] => []
  | x :: r =>
      if String.eqb (fileId x) (fileId d) then d :: r else x :: replace_doc d r
  end.

(** [doc.save()] of a document read from the collection and then changed in
    memory: it replaces the stored document and stamps [updatedAt].  The
    validators are run on the whole document; a stored document has passed
    them, so this is the validation of the paths the handler changed. *)
Definition save (reachable : bool) (now : Z) (db : Collection) (d : ChainOfCustody)
  : Collection + SaveError :=
  if negb (schema_valid d) then inr ValidationFailed
  else if negb reachable then inr DbUnavailable
  else inl (replace_doc (set_updatedAt d now) db).

End Model.

(* ================================================================= *)
(** ** HTTP replies *)

Module Http.

(** What a [catch] block reports as [error.message]. *)
Inductive Exception :=
| SaveFailed (e : Model.SaveError)
| ENOENT (path : string)
| ENOTDIR (syscall path : string)
| EISDIR (syscall path : string)
| EEXIST (syscall path : string)
| SystemError (code syscall path : string)
| CastError (path : string)
| BadSkipValue.

(** The list view of a record: [.select('-custodyChain')] in the routes,
    the [fileRecord] object of simple-server.js. *)
Record FileSummary := {
  s_fileId : string;
  s_originalFileName : string;
  s_filePath : string;
  s_fileSize : Z;
  s_mimeType : string;
  s_checksum : string;
  s_currentLocation : string;
  s_status : Model.Status;
  s_metadata : Model.Metadata;
  s_createdAt : Z;
  s_updatedAt : Z
}.

Record Pagination := {
  currentPage : Z;
  totalPages : Z;
  totalRecords : Z;
  recordsPerPage : Z;
  hasNextPage : bool;
  hasPreviousPage : bool
}.

Inductive Body :=
| Error (error : string) (message : option Exception)
| Uploaded (fileId originalFileName : string) (fileSize : Z) (checksum : string)
           (uploadTimestamp : Z)
| Moved (fileId : string) (previousLocation : option string) (newLocation : string)
        (moveTimestamp : Z)
| AccessLogged (fileId : string) (timestamp : Z)
| Listing (data : list FileSummary) (pagination : Pagination).

Record DownloadHeaders := {
  contentDisposition : string;
  contentType : string;
  contentLength : option Z;
  xFileId : string;
  xFileChecksum : string
}.

(** [`attachment; filename="${name}"`] *)
Definition attachment (name : string) : string :=
  ("attachment; filename=" ++ String (ascii_of_nat 34) name
   ++ String (ascii_of_nat 34) EmptyString)%string.

Inductive Response :=
| Json (code : Z) (body : Body)
(** headers set, then [fs.createReadStream(path).pipe(res)] *)
| FileStream (headers : DownloadHeaders) (content : bytes).

End Http.

(* ================================================================= *)
(** ** The disk, as the handlers see it through [fs] *)

Module Disk.
Import Http.

(** The regular files, by path.  Directories are not listed: a directory is
    there when a file lies under it.  What the list does not show (a
    directory that holds no file, rights, another device) reaches the
    handlers as the fault the environment hands to a call. *)
Definition FS := list (string * bytes).

Fixpoint readFile (fs : FS) (p : string) : option bytes :=
  match fs with
  | [] => None
  | (q, b) :: r => if String.eqb q p then Some b else readFile r p
  end.

Definition existsSync (fs : FS) (p : string) : bool :=
  match readFile fs p with
  | Some _ => true
  | None => false
  end.

Fixpoint unlinkSync (fs : FS) (p : string) : FS :=
  match fs with
  | [] => []
  | (q, b) :: r => if String.eqb q p then unlinkSync r p else (q, b) :: unlinkSync r p
  end.

Definition writeFile (fs : FS) (p : string) (b : bytes) : FS :=
  (p, b) :: unlinkSync fs p.

Section Directories.
(** [path.dirname] *)
Variable dirname : string -> string.

(** The directories a path goes through, nearest first. *)
Fixpoint ancestors_upto (fuel : nat) (p : string) : list string :=
  match fuel with
  | O => []
  | S k =>
      let d := dirname p in
      if String.eqb d p then [] else d :: ancestors_upto k d
  end.

Definition ancestors (p : string) : list string :=
  ancestors_upto (String.length p) p.

Definition isDirectory (fs : FS) (p : string) : bool :=
  List.existsb
    (fun entry => List.existsb (String.eqb p) (ancestors (fst entry))) fs.

(** A regular file where the path needs a directory. *)
Definition file_on_the_way (fs : FS) (p : string) : option string :=
  List.find (existsSync fs) (ancestors p).

(** [fs.mkdirSync(dir, { recursive: true })]: what it throws.  It makes the
    missing directories, which changes no file. *)
Definition mkdirSync (fs : FS) (fault : option Exception) (dir : string)
  : option Exception :=
  if existsSync fs dir then Some (EEXIST "mkdir" dir)
  else match file_on_the_way fs dir with
       | Some _ => Some (ENOTDIR "mkdir" dir)
       | None => fault
       end.

(** Why a file cannot be put at [p]: a regular file on the way, a
    directory at [p], or the fault of the call. *)
Definition refused (fs : FS) (fault : option Exception) (p : string)
  : option Exception :=
  match file_on_the_way fs p with
  | Some _ => Some (ENOTDIR "rename" p)
  | None => if isDirectory fs p then Some (EISDIR "rename" p) else fault
  end.

(** [fs.renameSync(old, new)]: throws when [old] is missing and when
    [new] cannot take the file; otherwise it replaces whatever is at
    [new]. *)
Definition renameSync (fs : FS) (fault : option Exception) (old new : string)
  : FS + Exception :=
  match readFile fs old with
  | None => inr (ENOENT old)
  | Some b =>
      match refused fs fault new with
      | Some e => inr e
      | None => inl (writeFile (unlinkSync fs old) new b)
      end
  end.

End Directories.

End Disk.

(** What each request finds around it.  The clock is read more than once
    in a request: [now] when the custody event is made ([default:
    Date.now], [timestamp: new Date()]), [savedAt n] when the record is
    stamped for the n-th time ([timestamps: true] at each [save()]; the
    [createdAt] and [updatedAt] of simple-server.js), [sentAt] when the
    reply is written ([new Date().toISOString()]).  Then the identifier
    [crypto.randomUUID()] would return, whether the n-th [save()] of the
    request reaches the database, what the n-th file-system call throws
    for a reason the file list does not show, and the client's address and
    agent. *)
Record Env := {
  now : Z;
  savedAt : nat -> Z;
  sentAt : Z;
  randomUUID : string;
  dbReachable : nat -> bool;
  osFault : nat -> option Http.Exception;
  ip : option string;
  agent : option string
}.

(* ================================================================= *)
(** ** routes/upload.js, routes/move.js, routes/download.js *)

Module Routes.
Import Model Http.

Record State := {
  db : Collection;
  disk : Disk.FS
}.

(** [req.file] as multer's disk storage leaves it: the bytes are already
    written at [path] when the handler runs. *)
Record MulterFile := {
  path : string;
  originalname : string;
  mimetype : string;
  content : bytes
}.

(** The fields of [req.body] and [req.query] are taken as strings, or
    absent ([None]). *)
Record UploadRequest := {
  up_file : option MulterFile;
  up_userId : option string;
  up_department : option string;
  up_caseNumber : option string;
  up_evidenceType : option string;
  up_classification : option string;
  up_notes : option string
}.

Record MoveRequest := {
  mv_fileId : option string;
  mv_userId : option string;
  mv_newLocation : option string;
  mv_notes : option string
}.

Record DownloadRequest := {
  dl_fileId : string;            (* req.params.fileId *)
  dl_userId : option string;     (* req.query *)
  dl_notes : option string
}.

Record AccessRequest := {
  ac_fileId : option string;
  ac_userId : option string;
  ac_notes : option string
}.

(** [upload.single('file')]: the middleware that runs before the handler. *)
Definition multer_single (fs : Disk.FS) (f : option MulterFile) : Disk.FS :=
  match f with
  | Some f => Disk.writeFile fs (path f) (content f)
  | None => fs
  end.

Section WithRuntime.
Variable node : Runtime.

(** [calculateChecksum] of upload.js: the sha256 hex digest of the file, or a
    rejected promise when the stream cannot be opened. *)
Definition calculateChecksum (fs : Disk.FS) (p : string) : string + Exception :=
  match Disk.readFile fs p with
  | Some b => inl (hex_of_bytes (createHash node "sha256" b))
  | None => inr (ENOENT p)
  end.

(** [verifyFileIntegrity] of download.js. *)
Definition verifyFileIntegrity (fs : Disk.FS) (p expectedChecksum : string)
  : bool + Exception :=
  match Disk.readFile fs p with
  | Some b =>
      let actualChecksum := hex_of_bytes (createHash node "sha256" b) in
      inl (String.eqb actualChecksum expectedChecksum)
  | None => inr (ENOENT p)
  end.

(** The [catch] block of POST /api/upload. *)
Definition upload_catch (st : State) (f : MulterFile) (e : Exception)
  : State * Response :=
  let fs := if Disk.existsSync (disk st) (path f)
            then Disk.unlinkSync (disk st) (path f) else disk st in
  ({| db := db st; disk := fs |}, Json 500 (Error "Upload failed" (Some e))).

(** POST /api/upload, the handler after multer has stored the file. *)
Definition upload_handler (rq : UploadRequest) (env : Env) (st : State)
  : State * Response :=
  match up_file rq with
  | None => (st, Json 400 (Error "No file uploaded" None))
  | Some f =>
      match up_userId rq with
      | Some (String c u) =>
          let userId := String c u in
          match calculateChecksum (disk st) (path f) with
          | inr e => upload_catch st f e
          | inl checksum =>
              let fileId := randomUUID env in
              let chainOfCustody :=
                {| Model.fileId := fileId;
                   originalFileName := originalname f;
                   filePath := path f;
                   Model.fileSize := Z.of_nat (List.length (content f));
                   mimeType := mimetype f;
                   Model.checksum := checksum;
                   custodyChain :=
                     [ {| action := Upload; timestamp := now env;
                          userId := userId; location := "uploads";
                          ipAddress := ip env; userAgent := agent env;
                          notes := up_notes rq |} ];
                   currentLocation := "uploads";
                   status := Active;
                   metadata := {| department := up_department rq;
                                  caseNumber := up_caseNumber rq;
                                  evidenceType := up_evidenceType rq;
                                  classification := up_classification rq;
                                  tags := [] |};
                   createdAt := savedAt env 0; updatedAt := savedAt env 0 |} in
              match save_new (dbReachable env 0) (db st) chainOfCustody with
              | inr e => upload_catch st f (SaveFailed e)
              | inl db' =>
                  ({| db := db'; disk := disk st |},
                   Json 201 (Uploaded fileId (originalname f)
                                      (Z.of_nat (List.length (content f)))
                                      checksum (sentAt env)))
              end
          end
      | _ => (st, Json 400 (Error "User ID is required" None))
      end
  end.

(** POST /api/upload: multer, then the handler. *)
Definition post_upload (rq : UploadRequest) (env : Env) (st : State)
  : State * Response :=
  upload_handler rq env
    {| db := db st; disk := multer_single (disk st) (up_file rq) |}.

(** [record.custodyChain[record.custodyChain.length - 2]?.location] *)
Definition second_last_location (c : list CustodyEvent) : option string :=
  match List.rev c with
  | _ :: e :: _ => Some (location e)
  | _ => None
  end.

(** [if (!fs.existsSync(dir)) fs.mkdirSync(dir, { recursive: true })]:
    what it throws. *)
Definition ensure_directory (fs : Disk.FS) (fault : option Exception)
           (dir : string) : option Exception :=
  if Disk.existsSync fs dir || Disk.isDirectory (path_dirname node) fs dir
  then None
  else Disk.mkdirSync (path_dirname node) fs fault dir.

(** POST /api/move. *)
Definition post_move (rq : MoveRequest) (env : Env) (st : State)
  : State * Response :=
  match mv_fileId rq, mv_userId rq, mv_newLocation rq with
  | Some (String c1 f), Some (String c2 u), Some (String c3 l) =>
      let fileId := String c1 f in
      let userId := String c2 u in
      let newLocation := String c3 l in
      match findByFileId (db st) fileId with
      | None => (st, Json 404 (Error "File not found" None))
      | Some record =>
          if negb (status_eqb (status record) Active) then
            (st, Json 400 (Error ("Cannot move file with status: "
                                   ++ status_string (status record))%string None))
          else if negb (Disk.existsSync (disk st) (filePath record)) then
            (st, Json 404 (Error "Physical file not found at current location" None))
          else
            let newLocationDir :=
              path_join node [routes_dirname node; "../"; newLocation] in
            match ensure_directory (disk st) (osFault env 0) newLocationDir with
            | Some e => (st, Json 500 (Error "Failed to move file" (Some e)))
            | None =>
            let fileName := path_basename node (filePath record) in
            let newFilePath := path_join node [newLocationDir; fileName] in
            match Disk.renameSync (path_dirname node) (disk st) (osFault env 1)
                                  (filePath record) newFilePath with
            | inr e => (st, Json 500 (Error "Failed to move file" (Some e)))
            | inl disk' =>
                let event :=
                  {| action := Move; timestamp := now env; userId := userId;
                     location := newLocation;
                     ipAddress := ip env; userAgent := agent env;
                     notes := Some (or_else (mv_notes rq)
                                ("File moved from " ++ currentLocation record
                                 ++ " to " ++ newLocation)%string) |} in
                let record1 := addCustodyEvent record event in
                match save (dbReachable env 0) (savedAt env 0) (db st) record1 with
                | inr e =>
                    ({| db := db st; disk := disk' |},
                     Json 500 (Error "Failed to move file" (Some (SaveFailed e))))
                | inl db1 =>
                    let record2 := set_filePath record1 newFilePath in
                    match save (dbReachable env 1) (savedAt env 1) db1 record2 with
                    | inr e =>
                        ({| db := db1; disk := disk' |},
                         Json 500 (Error "Failed to move file" (Some (SaveFailed e))))
                    | inl db2 =>
                        ({| db := db2; disk := disk' |},
                         Json 200 (Moved fileId
                                     (second_last_location (custodyChain record2))
                                     newLocation (sentAt env)))
                    end
                end
            end
            end
      end
  | _, _, _ =>
      (st, Json 400 (Error
        "Missing required fields: fileId, userId, and newLocation are required"
        None))
  end.

(** GET /api/download/:fileId. *)
Definition get_download (rq : DownloadRequest) (env : Env) (st : State)
  : State * Response :=
  match dl_userId rq with
  | Some (String c u) =>
      let userId := String c u in
      match findByFileId (db st) (dl_fileId rq) with
      | None => (st, Json 404 (Error "File not found" None))
      | Some record =>
          if negb (status_eqb (status record) Active) then
            (st, Json 400 (Error ("Cannot download file with status: "
                                   ++ status_string (status record))%string None))
          else if negb (Disk.existsSync (disk st) (filePath record)) then
            (st, Json 404 (Error "Physical file not found" None))
          else
            match verifyFileIntegrity (disk st) (filePath record) (checksum record) with
            | inr e => (st, Json 500 (Error "Download failed" (Some e)))
            | inl false =>
                (st, Json 500
                   (Error "File integrity check failed - file may be corrupted" None))
            | inl true =>
                let event :=
                  {| action := Download; timestamp := now env; userId := userId;
                     location := currentLocation record;
                     ipAddress := ip env; userAgent := agent env;
                     notes := Some (or_else (dl_notes rq) "File downloaded") |} in
                match save (dbReachable env 0) (savedAt env 0) (db st)
                           (addCustodyEvent record event) with
                | inr e => (st, Json 500 (Error "Download failed" (Some (SaveFailed e))))
                | inl db1 =>
                    let st1 := {| db := db1; disk := disk st |} in
                    match Disk.readFile (disk st) (filePath record) with
                    | None => (st1, Json 500 (Error "Failed to stream file"
                                               (Some (ENOENT (filePath record)))))
                    | Some b =>
                        (st1,
                         FileStream
                           {| contentDisposition :=
                                attachment (originalFileName record);
                              contentType := mimeType record;
                              contentLength := Some (fileSize record);
                              xFileId := dl_fileId rq;
                              xFileChecksum := checksum record |} b)
                    end
                end
            end
      end
  | _ => (st, Json 400 (Error "User ID is required for download" None))
  end.

(** POST /api/download/access-log. *)
Definition post_access_log (rq : AccessRequest) (env : Env) (st : State)
  : State * Response :=
  match ac_fileId rq, ac_userId rq with
  | Some (String c1 f), Some (String c2 u) =>
      let fileId := String c1 f in
      let userId := String c2 u in
      match findByFileId (db st) fileId with
      | None => (st, Json 404 (Error "File not found" None))
      | Some record =>
          let event :=
            {| action := Access; timestamp := now env; userId := userId;
               location := currentLocation record;
               ipAddress := ip env; userAgent := agent env;
               notes := Some (or_else (ac_notes rq) "File accessed") |} in
          match save (dbReachable env 0) (savedAt env 0) (db st)
                     (addCustodyEvent record event) with
          | inr e => (st, Json 500 (Error "Failed to log access" (Some (SaveFailed e))))
          | inl db1 => ({| db := db1; disk := disk st |},
                        Json 200 (AccessLogged fileId (sentAt env)))
          end
      end
  | _, _ => (st, Json 400 (Error "File ID and User ID are required" None))
  end.

End WithRuntime.
End Routes.

(* ================================================================= *)
(** ** Pagination arithmetic shared by the list endpoints *)

Module Paging.

(** The largest integer below which JavaScript numbers are exact:
    [Number.MAX_SAFE_INTEGER]. *)
Definition max_safe_integer : Z := 2 ^ 53 - 1.

(** [parseInt(req.query.x) || dflt]: [None] is [NaN]; [NaN] and [0] are
    falsy.  [Some n] is the integer [parseInt] returned.  The arithmetic
    of the handlers on it is that of the integers as long as every number
    met stays within [max_safe_integer]; longer digit strings, which
    [parseInt] rounds or turns into [Infinity], are beyond what [Z]
    shows, and the theorems on pages say where they stop. *)
Definition parse_or (x : option Z) (dflt : Z) : Z :=
  match x with
  | Some 0 => dflt
  | Some n => n
  | None => dflt
  end.

(** [Math.ceil(a / b)] for [b <> 0]. *)
Definition ceil_div (a b : Z) : Z := - ((- a) / b).

(** [Array.prototype.slice(start, end)]. *)
Definition js_slice {A : Type} (l : list A) (start stop : Z) : list A :=
  let len := Z.of_nat (List.length l) in
  let k := if start <? 0 then Z.max (len + start) 0 else Z.min start len in
  let final := if stop <? 0 then Z.max (len + stop) 0 else Z.min stop len in
  List.firstn (Z.to_nat (final - k)) (List.skipn (Z.to_nat k) l).

Definition pagination (page limit totalCount : Z) : Http.Pagination :=
  let totalPages := ceil_div totalCount limit in
  {| Http.currentPage := page;
     Http.totalPages := totalPages;
     Http.totalRecords := totalCount;
     Http.recordsPerPage := limit;
     Http.hasNextPage := page <? totalPages;
     Http.hasPreviousPage := 1 <? page |}.

End Paging.

(* ================================================================= *)
(** ** GET /api/upload/list of routes/upload.js *)

Module UploadList.
Import Model Http.

Record ListQuery := {
  q_page : option Z;                 (* parseInt(req.query.page) *)
  q_limit : option Z;                (* parseInt(req.query.limit) *)
  q_status : option string;
  q_department : option string;
  q_caseNumber : option string;
  (** [new Date(req.query.startDate)]: absent, or given and then either a
      date or [Invalid Date] (inner [None]) *)
  q_startDate : option (option Z);
  q_endDate : option (option Z);
  q_sortBy : option string;
  q_sortOrder : option string
}.

(** The filter document built from the query. *)
Record Filters := {
  f_status : option string;
  f_department : option string;
  f_caseNumber : option string;
  f_createdAt_gte : option Z;
  f_createdAt_lte : option Z
}.

Definition given (s : option string) : option string :=
  match s with
  | Some (String c r) => Some (String c r)
  | _ => None
  end.

(** [None] when a date does not parse: the query then fails with a cast
    error. *)
Definition build_filters (q : ListQuery) : option Filters :=
  match q_startDate q, q_endDate q with
  | Some None, _ | _, Some None => None
  | sd, ed =>
      Some {| f_status := given (q_status q);
              f_department := given (q_department q);
              f_caseNumber := given (q_caseNumber q);
              f_createdAt_gte := match sd with Some (Some t) => Some t | _ => None end;
              f_createdAt_lte := match ed with Some (Some t) => Some t | _ => None end |}
  end.

Definition opt_string_is (field : option string) (v : string) : bool :=
  match field with
  | Some s => String.eqb s v
  | None => false
  end.

Definition matches (f : Filters) (d : ChainOfCustody) : bool :=
  match f_status f with
  | Some s => String.eqb (status_string (status d)) s | None => true end
  && match f_department f with
     | Some s => opt_string_is (department (metadata d)) s | None => true end
  && match f_caseNumber f with
     | Some s => opt_string_is (caseNumber (metadata d)) s | None => true end
  && match f_createdAt_gte f with
     | Some t => t <=? createdAt d | None => true end
  && match f_createdAt_lte f with
     | Some t => createdAt d <=? t | None => true end.

(** Values a sort key can take, in BSON comparison order:
    missing/null, numbers, strings, dates. *)
Inductive Value := VNull | VNum (n : Z) | VStr (s : string) | VDate (t : Z).

Definition opt_value (s : option string) : Value :=
  match s with
  | Some s => VStr s
  | None => VNull
  end.

(** The scalar paths of the schema; every other path is read as missing. *)
Definition field (name : string) (d : ChainOfCustody) : Value :=
  if String.eqb name "createdAt" then VDate (createdAt d)
  else if String.eqb name "updatedAt" then VDate (updatedAt d)
  else if String.eqb name "fileId" then VStr (fileId d)
  else if String.eqb name "originalFileName" then VStr (originalFileName d)
  else if String.eqb name "filePath" then VStr (filePath d)
  else if String.eqb name "fileSize" then VNum (fileSize d)
  else if String.eqb name "mimeType" then VStr (mimeType d)
  else if String.eqb name "checksum" then VStr (checksum d)
  else if String.eqb name "currentLocation" then VStr (currentLocation d)
  else if String.eqb name "status" then VStr (status_string (status d))
  else if String.eqb name "metadata.department" then opt_value (department (metadata d))
  else if String.eqb name "metadata.caseNumber" then opt_value (caseNumber (metadata d))
  else if String.eqb name "metadata.evidenceType" then opt_value (evidenceType (metadata d))
  else if String.eqb name "metadata.classification"
       then opt_value (classification (metadata d))
  else VNull.

Definition rank (v : Value) : Z :=
  match v with
  | VNull => 0
  | VNum _ => 1
  | VStr _ => 2
  | VDate _ => 3
  end.

Definition value_compare (a b : Value) : comparison :=
  match a, b with
  | VNum x, VNum y => Z.compare x y
  | VStr x, VStr y => String.compare x y
  | VDate x, VDate y => Z.compare x y
  | _, _ => Z.compare (rank a) (rank b)
  end.

(** [a] may stay in front of [b] under [{ [sortField]: sortOrder }]. *)
Definition in_order (sortField : string) (sortOrder : Z) (a b : ChainOfCustody)
  : bool :=
  match value_compare (field sortField a) (field sortField b) with
  | Eq => true
  | Lt => 0 <? sortOrder
  | Gt => sortOrder <? 0
  end.

Fixpoint insert_sorted (le : ChainOfCustody -> ChainOfCustody -> bool)
         (x : ChainOfCustody) (l : list ChainOfCustody) : list ChainOfCustody :=
  match l with
  | [] => [x]
  | y :: r => if le x y then x :: y :: r else y :: insert_sorted le x r
  end.

(** [.sort(sort)] over the documents as the query came across them.  The
    sort document names one key and no tie-breaker, and the server promises
    nothing about documents with equal keys: they come out as the scan met
    them, so every order the server can return is the sort of some scan. *)
Definition sort_by (sortField : string) (sortOrder : Z) (l : list ChainOfCustody)
  : list ChainOfCustody :=
  List.fold_right (insert_sorted (in_order sortField sortOrder)) [] l.

(** [.select('-custodyChain').lean()] *)
Definition select_no_chain (d : ChainOfCustody) : FileSummary :=
  {| s_fileId := fileId d; s_originalFileName := originalFileName d;
     s_filePath := filePath d; s_fileSize := fileSize d;
     s_mimeType := mimeType d; s_checksum := checksum d;
     s_currentLocation := currentLocation d; s_status := status d;
     s_metadata := metadata d; s_createdAt := createdAt d;
     s_updatedAt := updatedAt d |}.

Definition sortField_of (q : ListQuery) : string := or_else (q_sortBy q) "createdAt".

Definition sortOrder_of (q : ListQuery) : Z :=
  match q_sortOrder q with
  | Some s => if String.eqb s "asc" then 1 else -1
  | None => -1
  end.

(** [ChainOfCustody.find(filters).sort(sort)], before [skip] and [limit]. *)
Definition find_sorted (f : Filters) (q : ListQuery) (db : Collection)
  : list ChainOfCustody :=
  sort_by (sortField_of q) (sortOrder_of q) (List.filter (matches f) db).

(** [.skip(skip).limit(limit)]: the server refuses a negative skip and
    reads a negative limit as its absolute value. *)
Definition skip_limit {A : Type} (skip limit : Z) (l : list A) : option (list A) :=
  if skip <? 0 then None
  else Some (List.firstn (Z.to_nat (Z.abs limit)) (List.skipn (Z.to_nat skip) l)).

(** [ChainOfCustody.countDocuments(filters)] *)
Definition countDocuments (f : Filters) (db : Collection) : Z :=
  Z.of_nat (List.length (List.filter (matches f) db)).

Definition get_upload_list (q : ListQuery) (db : Collection) : Response :=
  let page := Paging.parse_or (q_page q) 1 in
  let limit := Paging.parse_or (q_limit q) 10 in
  let skip := (page - 1) * limit in
  match build_filters q with
  | None =>
      Json 500 (Error "Failed to retrieve upload list" (Some (CastError "createdAt")))
  | Some filters =>
      match skip_limit skip limit (find_sorted filters q db) with
      | None => Json 500 (Error "Failed to retrieve upload list" (Some BadSkipValue))
      | Some records =>
          let totalCount := countDocuments filters db in
          Json 200 (Listing (List.map select_no_chain records)
                            (Paging.pagination page limit totalCount))
      end
  end.

End UploadList.

(* ================================================================= *)
(** ** simple-server.js: the in-memory variant *)

Module SimpleServer.
Import Model Http.

(** A JavaScript [Map] with string keys, in insertion order. *)
Definition JsMap (V : Type) := list (string * V).

Fixpoint map_get {V : Type} (m : JsMap V) (k : string) : option V :=
  match m with
  | [] => None
  | (k', v) :: r => if String.eqb k' k then Some v else map_get r k
  end.

(** [Map.prototype.set]: an existing key keeps its place. *)
Fixpoint map_set {V : Type} (m : JsMap V) (k : string) (v : V) : JsMap V :=
  match m with
  | [] => [(k, v)]
  | (k', v') :: r =>
      if String.eqb k' k then (k, v) :: r else (k', v') :: map_set r k v
  end.

(** [Array.from(m.values())] *)
Definition map_values {V : Type} (m : JsMap V) : list V := List.map snd m.

(** [let files = new Map(); let custodyChain = new Map();] and the disk. *)
Record State := {
  files : JsMap FileSummary;
  custodyChain : JsMap (list CustodyEvent);
  disk : Disk.FS
}.

Definition set_location (f : FileSummary) (loc : string) (t : Z) : FileSummary :=
  {| s_fileId := s_fileId f; s_originalFileName := s_originalFileName f;
     s_filePath := s_filePath f; s_fileSize := s_fileSize f;
     s_mimeType := s_mimeType f; s_checksum := s_checksum f;
     s_currentLocation := loc; s_status := s_status f;
     s_metadata := s_metadata f; s_createdAt := s_createdAt f;
     s_updatedAt := t |}.

Record ListQuery := {
  q_page : option Z;
  q_limit : option Z
}.

Section WithRuntime.
Variable node : Runtime.

(** [calculateFileHash] *)
Definition calculateFileHash (fs : Disk.FS) (p : string) : string + Exception :=
  match Disk.readFile fs p with
  | Some b => inl (hex_of_bytes (createHash node "sha256" b))
  | None => inr (ENOENT p)
  end.

(** app.post('/api/upload'), the handler after multer has stored the file. *)
Definition upload_handler (rq : Routes.UploadRequest) (env : Env) (st : State)
  : State * Response :=
  match Routes.up_file rq with
  | None => (st, Json 400 (Error "No file uploaded" None))
  | Some f =>
      match Routes.up_userId rq with
      | Some (String c u) =>
          let userId := String c u in
          match calculateFileHash (disk st) (Routes.path f) with
          | inr e => (st, Json 500 (Error "Upload failed" (Some e)))
          | inl checksum =>
              let fileId := randomUUID env in
              let fileRecord :=
                {| s_fileId := fileId;
                   s_originalFileName := Routes.originalname f;
                   s_filePath := Routes.path f;
                   s_fileSize := Z.of_nat (List.length (Routes.content f));
                   s_mimeType := Routes.mimetype f;
                   s_checksum := checksum;
                   s_currentLocation := "uploads";
                   s_status := Active;
                   s_metadata :=
                     {| department := Some (or_else (Routes.up_department rq) EmptyString);
                        caseNumber := Some (or_else (Routes.up_caseNumber rq) EmptyString);
                        evidenceType :=
                          Some (or_else (Routes.up_evidenceType rq) EmptyString);
                        classification :=
                          Some (or_else (Routes.up_classification rq) EmptyString);
                        tags := [] |};
                   s_createdAt := savedAt env 0; s_updatedAt := savedAt env 1 |} in
              let custodyEntry :=
                {| action := Upload; timestamp := now env; userId := userId;
                   location := "uploads";
                   ipAddress := ip env; userAgent := agent env;
                   notes := Some (or_else (Routes.up_notes rq) "File uploaded") |} in
              ({| files := map_set (files st) fileId fileRecord;
                  custodyChain := map_set (custodyChain st) fileId [custodyEntry];
                  disk := disk st |},
               Json 201 (Uploaded fileId (Routes.originalname f)
                                  (Z.of_nat (List.length (Routes.content f)))
                                  checksum (sentAt env)))
          end
      | _ => (st, Json 400 (Error "User ID is required" None))
      end
  end.

Definition post_upload (rq : Routes.UploadRequest) (env : Env) (st : State)
  : State * Response :=
  upload_handler rq env
    {| files := files st; custodyChain := custodyChain st;
       disk := Routes.multer_single (disk st) (Routes.up_file rq) |}.

(** [custodyChain.get(fileId) || []] *)
Definition chain_of (st : State) (fileId : string) : list CustodyEvent :=
  match map_get (custodyChain st) fileId with
  | Some c => c
  | None => []
  end.

(** app.post('/api/move'). *)
Definition post_move (rq : Routes.MoveRequest) (env : Env) (st : State)
  : State * Response :=
  match Routes.mv_fileId rq, Routes.mv_userId rq, Routes.mv_newLocation rq with
  | Some (String c1 f), Some (String c2 u), Some (String c3 l) =>
      let fileId := String c1 f in
      let userId := String c2 u in
      let newLocation := String c3 l in
      let chain := chain_of st fileId in
      match map_get (files st) fileId with
      | None => (st, Json 404 (Error "File not found" None))
      | Some file =>
          let previousLocation := s_currentLocation file in
          let file' := set_location file newLocation (savedAt env 0) in
          let custodyEntry :=
            {| action := Move; timestamp := now env; userId := userId;
               location := newLocation;
               ipAddress := ip env; userAgent := agent env;
               notes := Some (or_else (Routes.mv_notes rq)
                          ("File moved from " ++ previousLocation
                           ++ " to " ++ newLocation)%string) |} in
          ({| files := map_set (files st) fileId file';
              custodyChain := map_set (custodyChain st) fileId (chain ++ [custodyEntry]);
              disk := disk st |},
           Json 200 (Moved fileId (Some previousLocation) newLocation (sentAt env)))
      end
  | _, _, _ =>
      (st, Json 400 (Error
        "Missing required fields: fileId, userId, and newLocation are required"
        None))
  end.

(** app.get('/api/download/:fileId'). *)
Definition get_download (rq : Routes.DownloadRequest) (env : Env) (st : State)
  : State * Response :=
  match Routes.dl_userId rq with
  | Some (String c u) =>
      let userId := String c u in
      let fileId := Routes.dl_fileId rq in
      let chain := chain_of st fileId in
      match map_get (files st) fileId with
      | None => (st, Json 404 (Error "File not found" None))
      | Some file =>
          match Disk.readFile (disk st) (s_filePath file) with
          | None => (st, Json 404 (Error "Physical file not found" None))
          | Some b =>
              let custodyEntry :=
                {| action := Download; timestamp := now env; userId := userId;
                   location := s_currentLocation file;
                   ipAddress := ip env; userAgent := agent env;
                   notes := Some (or_else (Routes.dl_notes rq) "File downloaded") |} in
              ({| files := files st;
                  custodyChain :=
                    map_set (custodyChain st) fileId (chain ++ [custodyEntry]);
                  disk := disk st |},
               FileStream
                 {| contentDisposition := attachment (s_originalFileName file);
                    contentType := s_mimeType file;
                    contentLength := None;
                    xFileId := fileId;
                    xFileChecksum := s_checksum file |} b)
          end
      end
  | _ => (st, Json 400 (Error "User ID is required for download" None))
  end.

End WithRuntime.

(** app.get('/api/upload/list'). *)
Definition get_upload_list (q : ListQuery) (st : State) : Response :=
  let page := Paging.parse_or (q_page q) 1 in
  let limit := Paging.parse_or (q_limit q) 10 in
  let skip := (page - 1) * limit in
  let allFiles := map_values (files st) in
  let totalRecords := Z.of_nat (List.length allFiles) in
  let paginatedFiles := Paging.js_slice allFiles skip (skip + limit) in
  Json 200 (Listing paginatedFiles (Paging.pagination page limit totalRecords)).

End SimpleServer.

(* ================================================================= *)
(** ** manual-hash-generator.js: the [HashGenerator] class *)

Module HashGenerator.

(** One entry of a file's [custodyChain] in custody-database.json. *)
Record CustodyEntry := {
  id : string;
  timestamp : Z;
  action : string;
  hash : string;
  algorithm : string;
  location : string;
  user : string;
  workstation : string;
  notes : string
}.

Record FileEntry := {
  fileId : string;
  originalPath : string;
  fileName : string;
  fileSize : Z;
  created : Z;
  custodyChain : list CustodyEntry;
  lastModified : option Z
}.

Record AuditEntry := {
  a_id : string;
  a_timestamp : Z;
  a_action : string;
  a_fileId : string;
  a_filePath : string;
  a_hash : string;
  a_algorithm : string;
  a_notes : string
}.

(** custody-database.json ([db.files], an object keyed by fileId),
    audit-log.json and the disk. *)
Record State := {
  files : list (string * FileEntry);
  auditLog : list AuditEntry;
  disk : Disk.FS
}.

(** The clock, the two [crypto.randomUUID()] results of one call, the
    operating system's user and host, and [stats.birthtime]. *)
Record Env := {
  hg_now : Z;
  hg_entryId : string;
  hg_auditId : string;
  hg_user : string;
  hg_workstation : string;
  hg_birthtime : string -> Z
}.

Inductive Failure :=
| UnsupportedAlgorithm (algorithm : string)
| NoSuchFile (path : string).

(** [this.supportedAlgorithms] *)
Definition supportedAlgorithms : list string := ["md5"; "sha1"; "sha256"; "sha512"].

(** [this.supportedAlgorithms.includes(algorithm.toLowerCase())] *)
Definition supported (algorithm : string) : bool :=
  List.existsb (String.eqb (toLowerCase algorithm)) supportedAlgorithms.

Fixpoint lookup (m : list (string * FileEntry)) (k : string) : option FileEntry :=
  match m with
  | [] => None
  | (k', v) :: r => if String.eqb k' k then Some v else lookup r k
  end.

(** The chain already recorded under an identifier (empty when there is no
    such record). *)
Definition chain_at (st : State) (fid : string) : list CustodyEntry :=
  match lookup (files st) fid with
  | Some f => custodyChain f
  | None => []
  end.

(** [db.files[k] = v]: an existing property keeps its place. *)
Fixpoint assign (m : list (string * FileEntry)) (k : string) (v : FileEntry)
  : list (string * FileEntry) :=
  match m with
  | [] => [(k, v)]
  | (k', v') :: r =>
      if String.eqb k' k then (k, v) :: r else (k', v') :: assign r k v
  end.

Section WithRuntime.
Variable node : Runtime.

(** [generateFileId]:
    [crypto.createHash('md5').update(path.resolve(filePath)).digest('hex')] *)
Definition generateFileId (filePath : string) : string :=
  hex_of_bytes (createHash node "md5" (utf8 (path_resolve node filePath))).

(** The digest [generateFileHash] resolves to, before any custody tracking. *)
Definition fileHash (fs : Disk.FS) (filePath algorithm : string) : string + Failure :=
  if negb (supported algorithm) then inr (UnsupportedAlgorithm algorithm)
  else match Disk.readFile fs filePath with
       | None => inr (NoSuchFile filePath)
       | Some b => inl (hex_of_bytes (createHash node algorithm b))
       end.

(** [addToCustodyChain(filePath, hash, algorithm, action, notes)]; [None]
    is the exception [fs.statSync] throws on a missing file. *)
Definition addToCustodyChain (env : Env) (st : State)
           (filePath hash algorithm action notes : string)
  : option (State * CustodyEntry) :=
  let id_ := generateFileId filePath in
  match Disk.readFile (disk st) filePath with
  | None => None
  | Some b =>
      let file :=
        match lookup (files st) id_ with
        | Some f => f
        | None =>
            {| fileId := id_;
               originalPath := filePath;
               fileName := path_basename node filePath;
               fileSize := Z.of_nat (List.length b);
               created := hg_birthtime env filePath;
               custodyChain := [];
               lastModified := None |}
        end in
      let custodyEntry :=
        {| id := hg_entryId env;
           timestamp := hg_now env;
           action := action;
           hash := hash;
           algorithm := algorithm;
           location := path_dirname node filePath;
           user := hg_user env;
           workstation := hg_workstation env;
           notes := notes |} in
      let file' :=
        {| fileId := fileId file;
           originalPath := originalPath file;
           fileName := fileName file;
           fileSize := fileSize file;
           created := created file;
           custodyChain := custodyChain file ++ [custodyEntry];
           lastModified := Some (hg_now env) |} in
      let audit :=
        {| a_id := hg_auditId env; a_timestamp := hg_now env; a_action := action;
           a_fileId := id_; a_filePath := filePath; a_hash := hash;
           a_algorithm := algorithm; a_notes := notes |} in
      Some ({| files := assign (files st) id_ file';
               auditLog := auditLog st ++ [audit];
               disk := disk st |},
            custodyEntry)
  end.

(** [generateFileHash(filePath, algorithm, trackCustody)].  The file has
    just been read when [addToCustodyChain] runs, so its [None] does not
    arise here. *)
Definition generateFileHash (env : Env) (st : State)
           (filePath algorithm : string) (trackCustody : bool)
  : State * (string + Failure) :=
  match fileHash (disk st) filePath algorithm with
  | inr e => (st, inr e)
  | inl hashValue =>
      if trackCustody then
        match addToCustodyChain env st filePath hashValue algorithm
                                "hash_generated" EmptyString with
        | Some (st', _) => (st', inl hashValue)
        | None => (st, inr (NoSuchFile filePath))
        end
      else (st, inl hashValue)
  end.

(** [verifyFileIntegrity(filePath, expectedHash, algorithm)]: the [catch]
    turns every failure of [generateFileHash] into [false]. *)
Definition verifyFileIntegrity (fs : Disk.FS)
           (filePath expectedHash algorithm : string) : bool :=
  match fileHash fs filePath algorithm with
  | inl actualHash => String.eqb (toLowerCase actualHash) (toLowerCase expectedHash)
  | inr _ => false
  end.

End WithRuntime.
End HashGenerator.

(* ================================================================= *)
(** ** A concrete MD5 (RFC 1321) and a runtime built on both digests *)

Module MD5.

Definition w32 (x : Z) : Z := Z.land x 4294967295.
Definition rotl (n x : Z) : Z :=
  w32 (Z.lor (Z.shiftl x n) (Z.shiftr (w32 x) (32 - n))).

Definition shifts : list Z :=
  [ 7; 12; 17; 22; 7; 12; 17; 22; 7; 12; 17; 22; 7; 12; 17; 22;
    5; 9; 14; 20; 5; 9; 14; 20; 5; 9; 14; 20; 5; 9; 14; 20;
    4; 11; 16; 23; 4; 11; 16; 23; 4; 11; 16; 23; 4; 11; 16; 23;
    6; 10; 15; 21; 6; 10; 15; 21; 6; 10; 15; 21; 6; 10; 15; 21 ].

Definition K : list Z :=
  [ 0xd76aa478; 0xe8c7b756; 0x242070db; 0xc1bdceee;
    0xf57c0faf; 0x4787c62a; 0xa8304613; 0xfd469501;
    0x698098d8; 0x8b44f7af; 0xffff5bb1; 0x895cd7be;
    0x6b901122; 0xfd987193; 0xa679438e; 0x49b40821;
    0xf61e2562; 0xc040b340; 0x265e5a51; 0xe9b6c7aa;
    0xd62f105d; 0x02441453; 0xd8a1e681; 0xe7d3fbc8;
    0x21e1cde6; 0xc33707d6; 0xf4d50d87; 0x455a14ed;
    0xa9e3e905; 0xfcefa3f8; 0x676f02d9; 0x8d2a4c8a;
    0xfffa3942; 0x8771f681; 0x6d9d6122; 0xfde5380c;
    0xa4beea44; 0x4bdecfa9; 0xf6bb4b60; 0xbebfbc70;
    0x289b7ec6; 0xeaa127fa; 0xd4ef3085; 0x04881d05;
    0xd9d4d039; 0xe6db99e5; 0x1fa27cf8; 0xc4ac5665;
    0xf4292244; 0x432aff97; 0xab9423a7; 0xfc93a039;
    0x655b59c3; 0x8f0ccc92; 0xffeff47d; 0x85845dd1;
    0x6fa87e4f; 0xfe2ce6e0; 0xa3014314; 0x4e0811a1;
    0xf7537e82; 0xbd3af235; 0x2ad7d2bb; 0xeb86d391 ].

Definition init : list Z := [ 0x67452301; 0xefcdab89; 0x98badcfe; 0x10325476 ].

(** Little-endian bytes of the low [8 * n] bits of [z]. *)
Fixpoint le_bytes (n : nat) (z : Z) : list Z :=
  match n with
  | O => []
  | S m => Z.land z 255 :: le_bytes m (Z.shiftr z 8)
  end.

Definition pad (msg : list Z) : list Z :=
  let len := Z.of_nat (List.length msg) in
  let zeros := Z.to_nat ((55 - len) mod 64) in
  msg ++ [128] ++ List.repeat 0 zeros ++ le_bytes 8 (8 * len).

Fixpoint words (fuel : nat) (bs : list Z) : list Z :=
  match fuel, bs with
  | S f, a :: b :: c :: d :: r =>
      (a + Z.shiftl b 8 + Z.shiftl c 16 + Z.shiftl d 24) :: words f r
  | _, _ => []
  end.

Definition step (m : list Z) (st : list Z) (i : Z) : list Z :=
  match st with
  | [a; b; c; d] =>
      let '(f, g) :=
        if i <? 16 then (Z.lor (Z.land b c) (Z.land (w32 (Z.lnot b)) d), i)
        else if i <? 32 then
          (Z.lor (Z.land d b) (Z.land (w32 (Z.lnot d)) c), (5 * i + 1) mod 16)
        else if i <? 48 then (Z.lxor (Z.lxor b c) d, (3 * i + 5) mod 16)
        else (Z.lxor c (Z.lor b (w32 (Z.lnot d))), (7 * i) mod 16) in
      let f' := w32 (f + a + nth (Z.to_nat i) K 0 + nth (Z.to_nat g) m 0) in
      [d; w32 (b + rotl (nth (Z.to_nat i) shifts 0) f'); b; c]
  | _ => st
  end.

Definition compress (h : list Z) (block : list Z) : list Z :=
  let st := List.fold_left (step block) (List.map Z.of_nat (List.seq 0 64)) h in
  List.map (fun p => w32 (fst p + snd p)) (List.combine h st).

Fixpoint blocks (fuel : nat) (h : list Z) (ws : list Z) : list Z :=
  match fuel with
  | O => h
  | S f =>
      match ws with
      | [] => h
      | _ => blocks f (compress h (List.firstn 16 ws)) (List.skipn 16 ws)
      end
  end.

Definition md5 (msg : bytes) : bytes :=
  let p := pad (List.map SHA256.byteZ msg) in
  let ws := words (List.length p) p in
  let h := blocks (List.length ws) init ws in
  List.map SHA256.Zbyte (List.concat (List.map (le_bytes 4) h)).

End MD5.

Module Sample.

Fixpoint last_segment (acc s : string) : string :=
  match s with
  | EmptyString => acc
  | String c r =>
      if Ascii.eqb c "/"%char then last_segment EmptyString r
      else last_segment (acc ++ String c EmptyString)%string r
  end.

Definition basename (p : string) : string := last_segment EmptyString p.

Definition dirname (p : string) : string :=
  String.substring 0 (String.length p - String.length (basename p) - 1) p.

Definition resolve (p : string) : string :=
  match p with
  | String "/"%char _ => p
  | _ => ("/srv/custody/" ++ p)%string
  end.

(** The segments of a path between slashes. *)
Fixpoint segments (acc s : string) : list string :=
  match s with
  | EmptyString => [acc]
  | String c r =>
      if Ascii.eqb c "/"%char then acc :: segments EmptyString r
      else segments (acc ++ String c EmptyString)%string r
  end.

Definition normalize (segs : list string) : list string :=
  List.fold_left
    (fun stack seg =>
       if String.eqb seg EmptyString || String.eqb seg "." then stack
       else if String.eqb seg ".." then List.removelast stack
       else stack ++ [seg])
    segs [].

(** POSIX [path.join]: the parts joined by slashes, then normalized. *)
Definition join (parts : list string) : string :=
  let whole := String.concat "/" parts in
  let body := String.concat "/" (normalize (segments EmptyString whole)) in
  match whole with
  | String "/"%char _ => ("/" ++ body)%string
  | _ => if String.eqb body EmptyString then "." else body
  end.

(** A runtime for the examples: real SHA-256 and MD5 (the two digests the
    examples call), and plain path functions. *)
Definition node : Runtime :=
  {| createHash := fun algorithm data =>
       if String.eqb (toLowerCase algorithm) "sha256" then SHA256.sha256 data
       else if String.eqb (toLowerCase algorithm) "md5" then MD5.md5 data
       else [];
     path_resolve := resolve;
     path_basename := basename;
     path_dirname := dirname;
     path_join := join;
     routes_dirname := "/srv/custody/backend/routes" |}.

End Sample.

(* ================================================================= *)
(** ** What the claims speak about *)

Module Custody.
Import Model.

(** An event that places the file: [upload] or [move]. *)
Definition places (e : CustodyEvent) : bool :=
  match action e with
  | Upload | Move => true
  | Download | Access => false
  end.


(** The location of the most recent event whose action is [upload] or
    [move]. *)
Definition last_placement (c : list CustodyEvent) : option string :=
  option_map location (List.find places (List.rev c)).



End Custody.

(** The spec's error classes, as the replies the routes send for them. *)
Module Errors.
Import Model Http.

Definition InvalidState (verb : string) (s : Status) : Response :=
  Json 400 (Error ("Cannot " ++ verb ++ " file with status: " ++ status_string s)%string
                  None).

Definition IntegrityViolation : Response :=
  Json 500 (Error "File integrity check failed - file may be corrupted" None).

End Errors.

(** Reading the pages of a list endpoint one after the other. *)
Module Pages.
Import Http.

(** The page numbers 1 .. totalPages. *)
Definition page_numbers (totalPages : Z) : list Z :=
  List.map (fun k => Z.of_nat k + 1) (List.seq 0 (Z.to_nat totalPages)).

Definition listing_data (r : Response) : list FileSummary :=
  match r with
  | Json _ (Listing data _) => data
  | _ => []
  end.

Definition with_page (q : UploadList.ListQuery) (p : Z) : UploadList.ListQuery :=
  {| UploadList.q_page := Some p;
     UploadList.q_limit := UploadList.q_limit q;
     UploadList.q_status := UploadList.q_status q;
     UploadList.q_department := UploadList.q_department q;
     UploadList.q_caseNumber := UploadList.q_caseNumber q;
     UploadList.q_startDate := UploadList.q_startDate q;
     UploadList.q_endDate := UploadList.q_endDate q;
     UploadList.q_sortBy := UploadList.q_sortBy q;
     UploadList.q_sortOrder := UploadList.q_sortOrder q |}.

(** GET /api/upload/list?page=p&limit=N with the filters and sort of [q]. *)
Definition page_of (q : UploadList.ListQuery) (db : Model.Collection) (p : Z)
  : Response :=
  UploadList.get_upload_list (with_page q p) db.

(** The records stand in the order [{ [sortBy]: sortOrder }] of [q] asks
    for: none stands before one that has to come first. *)
Definition in_order_of (q : UploadList.ListQuery) (l : list Model.ChainOfCustody)
  : Prop :=
  Sorted.StronglySorted
    (fun a b => UploadList.in_order (UploadList.sortField_of q)
                                    (UploadList.sortOrder_of q) a b = true) l.

(** No two of the records have the same sort key. *)
Definition untied (q : UploadList.ListQuery) (l : list Model.ChainOfCustody)
  : Prop :=
  forall a b : Model.ChainOfCustody,
    List.In a l -> List.In b l ->
    UploadList.value_compare (UploadList.field (UploadList.sortField_of q) a)
                             (UploadList.field (UploadList.sortField_of q) b) = Eq ->
    a = b.

(** The same on simple-server.js. *)
Definition simple_page_of (limit : option Z) (st : SimpleServer.State) (p : Z)
  : Response :=
  SimpleServer.get_upload_list
    {| SimpleServer.q_page := Some p; SimpleServer.q_limit := limit |} st.

End Pages.

(* ================================================================= *)
(** ** The states the routes can reach *)

Module Reach.
Import Model.

(** A status written by an operation outside the four routes (the schema
    has [archived] and [deleted]; no route writes them). *)
Definition write_status (id : string) (s : Status) (db : Collection) : Collection :=
  List.map (fun d => if String.eqb (fileId d) id then set_status d s else d) db.

Section WithRuntime.
Variable node : Runtime.

Inductive step : Routes.State -> Routes.State -> Prop :=
| step_upload rq env st :
    step st (fst (Routes.post_upload node rq env st))
| step_move rq env st :
    step st (fst (Routes.post_move node rq env st))
| step_download rq env st :
    step st (fst (Routes.get_download node rq env st))
| step_access_log rq env st :
    step st (fst (Routes.post_access_log rq env st))
(** the bytes on disk change outside the application *)
| step_disk st disk' :
    step st {| Routes.db := Routes.db st; Routes.disk := disk' |}
(** a status is written outside the four routes *)
| step_status st id s :
    step st {| Routes.db := write_status id s (Routes.db st);
               Routes.disk := Routes.disk st |}.

Inductive reachable : Routes.State -> Prop :=
| reach_init disk0 : reachable {| Routes.db := []; Routes.disk := disk0 |}
| reach_step st st' : reachable st -> step st st' -> reachable st'.

Inductive simple_step : SimpleServer.State -> SimpleServer.State -> Prop :=
| sstep_upload rq env st :
    simple_step st (fst (SimpleServer.post_upload node rq env st))
| sstep_move rq env st :
    simple_step st (fst (SimpleServer.post_move rq env st))
| sstep_download rq env st :
    simple_step st (fst (SimpleServer.get_download rq env st))
| sstep_disk st disk' :
    simple_step st {| SimpleServer.files := SimpleServer.files st;
                      SimpleServer.custodyChain := SimpleServer.custodyChain st;
                      SimpleServer.disk := disk' |}.

Inductive simple_reachable : SimpleServer.State -> Prop :=
| sreach_init disk0 :
    simple_reachable {| SimpleServer.files := []; SimpleServer.custodyChain := [];
                        SimpleServer.disk := disk0 |}
| sreach_step st st' :
    simple_reachable st -> simple_step st st' -> simple_reachable st'.

End WithRuntime.
End Reach.

(* ================================================================= *)
(** ** Concrete requests for the examples *)

Module Scenario.
Import Model Routes.

Definition stored_path : string := "/srv/custody/backend/uploads/file-1700000000000-42.txt".

Definition evidence : MulterFile :=
  {| path := stored_path; originalname := "a.txt"; mimetype := "text/plain";
     content := utf8 "original evidence" |}.

Definition upload_by (actor : option string) (f : MulterFile) : UploadRequest :=
  {| up_file := Some f; up_userId := actor;
     up_department := Some "forensics"; up_caseNumber := Some "case-7";
     up_evidenceType := None; up_classification := None; up_notes := None |}.

(** A request served within one tick of the clock, on a disk that
    refuses nothing. *)
Definition at_time (t : Z) (uuid : string) (up : bool) : Env :=
  {| now := t; savedAt := fun _ => t; sentAt := t;
     randomUUID := uuid; dbReachable := fun _ => up;
     osFault := fun _ => None;
     ip := Some "127.0.0.1"; agent := Some "curl" |}.

(** A request during which the clock moves on: the event is made at [t],
    the n-th save is 2 + n ms later, the reply is written 9 ms later. *)
Definition over_time (t : Z) (uuid : string) (up : bool) : Env :=
  {| now := t; savedAt := fun n => t + 2 + Z.of_nat n; sentAt := t + 9;
     randomUUID := uuid; dbReachable := fun _ => up;
     osFault := fun _ => None;
     ip := Some "127.0.0.1"; agent := Some "curl" |}.


Definition file1 : string := "7d8f4f0e-1b6a-4c55-9d2e-0a1b2c3d4e5f".
Definition file2 : string := "0c9e2a44-5f17-4b0a-8e6d-9f8e7d6c5b4a".

Definition empty : State := {| db := []; disk := [] |}.

(** Ingest of [evidence] by u1. *)
Definition ingested : State :=
  fst (post_upload Sample.node (upload_by (Some "u1") evidence)
                   (at_time 1700000000000 file1 true) empty).

(** The same ingest, served while the clock moves on. *)
Definition ingested_slowly : State :=
  fst (post_upload Sample.node (upload_by (Some "u1") evidence)
                   (over_time 1700000000000 file1 true) empty).

(** The record that ingest stores. *)
Definition ingested_record : ChainOfCustody :=
  {| fileId := file1;
     originalFileName := "a.txt";
     filePath := stored_path;
     fileSize := 17;
     mimeType := "text/plain";
     checksum := hex_of_bytes (SHA256.sha256 (utf8 "original evidence"));
     custodyChain :=
       [ {| action := Upload; timestamp := 1700000000000; userId := "u1";
            location := "uploads"; ipAddress := Some "127.0.0.1";
            userAgent := Some "curl"; notes := None |} ];
     currentLocation := "uploads";
     status := Active;
     metadata := {| department := Some "forensics"; caseNumber := Some "case-7";
                    evidenceType := None; classification := None; tags := [] |};
     createdAt := 1700000000000;
     updatedAt := 1700000000000 |}.

Definition archive_path : string := "/srv/custody/backend/archive/file-1700000000000-42.txt".

(** A request during which [renameSync] finds the destination on another
    device. *)
Definition across_devices (t : Z) (uuid : string) : Env :=
  {| now := t; savedAt := fun _ => t; sentAt := t;
     randomUUID := uuid; dbReachable := fun _ => true;
     osFault := fun n =>
       match n with
       | 1%nat => Some (Http.SystemError "EXDEV" "rename" archive_path)
       | _ => None
       end;
     ip := Some "127.0.0.1"; agent := Some "curl" |}.

(** A regular file where the directory of the location "archive" would
    be. *)
Definition archive_taken : State :=
  {| db := db ingested;
     disk := Disk.writeFile (disk ingested) "/srv/custody/backend/archive"
                            (utf8 "not a directory") |}.

(** The stored bytes overwritten outside the application. *)
Definition tampered : State :=
  {| db := db ingested;
     disk := Disk.writeFile (disk ingested) stored_path (utf8 "altered evidence") |}.

(** The record marked archived outside the four routes. *)
Definition shelved : State :=
  {| db := Reach.write_status file1 Archived (db ingested); disk := disk ingested |}.

Definition move_to (id actor loc : string) : MoveRequest :=
  {| mv_fileId := Some id; mv_userId := Some actor; mv_newLocation := Some loc;
     mv_notes := None |}.

Definition download_by (id actor : string) : DownloadRequest :=
  {| dl_fileId := id; dl_userId := Some actor; dl_notes := None |}.

Definition access_by (id actor : string) : AccessRequest :=
  {| ac_fileId := Some id; ac_userId := Some actor; ac_notes := None |}.

Definition later : Env := at_time 1700000060000 file2 true.

(** Scenario A of the spec: ingest, relocate to "archive", retrieve. *)
Definition relocated : State :=
  fst (post_move Sample.node (move_to file1 "u2" "archive") later ingested).

Definition retrieved : State :=
  fst (get_download Sample.node (download_by file1 "u3")
                    (at_time 1700000120000 file2 true) relocated).

(** The same requests sent to simple-server.js. *)
Definition simple_empty : SimpleServer.State :=
  {| SimpleServer.files := []; SimpleServer.custodyChain := [];
     SimpleServer.disk := [] |}.

Definition simple_ingested : SimpleServer.State :=
  fst (SimpleServer.post_upload Sample.node (upload_by (Some "u1") evidence)
                                (at_time 1700000000000 file1 true) simple_empty).

(** Its stored bytes overwritten outside the application. *)
Definition simple_tampered : SimpleServer.State :=
  {| SimpleServer.files := SimpleServer.files simple_ingested;
     SimpleServer.custodyChain := SimpleServer.custodyChain simple_ingested;
     SimpleServer.disk :=
       Disk.writeFile (SimpleServer.disk simple_ingested) stored_path
                      (utf8 "altered evidence") |}.

(** The [fileRecord] that simple-server.js keeps for it. *)
Definition simple_record : Http.FileSummary :=
  {| Http.s_fileId := file1;
     Http.s_originalFileName := "a.txt";
     Http.s_filePath := stored_path;
     Http.s_fileSize := 17;
     Http.s_mimeType := "text/plain";
     Http.s_checksum := hex_of_bytes (SHA256.sha256 (utf8 "original evidence"));
     Http.s_currentLocation := "uploads";
     Http.s_status := Active;
     Http.s_metadata := {| department := Some "forensics"; caseNumber := Some "case-7";
                           evidenceType := Some EmptyString;
                           classification := Some EmptyString; tags := [] |};
     Http.s_createdAt := 1700000000000;
     Http.s_updatedAt := 1700000000000 |}.

Definition simple_relocated : SimpleServer.State :=
  fst (SimpleServer.post_move (move_to file1 "u2" "archive") later simple_ingested).

(** A second, different file that multer stores at the same path. *)
Definition evidence2 : MulterFile :=
  {| path := stored_path; originalname := "b.txt"; mimetype := "text/plain";
     content := utf8 "unrelated evidence" |}.

(** Ingest, the stored file deleted, then ingest of [evidence2]. *)
Definition ingested_twice : State :=
  fst (post_upload Sample.node (upload_by (Some "u9") evidence2) later
                   {| db := db ingested; disk := [] |}).

(** An archived record whose file is gone from the disk. *)
Definition shelved_and_lost : State := {| db := db shelved; disk := [] |}.

(** The disk and the clock of the command line utility. *)
Definition cli_path : string := "/srv/custody/evidence.txt".

Definition abc_disk : Disk.FS := [(cli_path, utf8 "abc")].

Definition abc_digest_upper : string :=
  "BA7816BF8F01CFEA414140DE5DAE2223B00361A396177A9CB410FF61F20015AD".

Definition cli_start : HashGenerator.State :=
  {| HashGenerator.files := []; HashGenerator.auditLog := [];
     HashGenerator.disk := abc_disk |}.

Definition cli_env (t : Z) (entry audit : string) : HashGenerator.Env :=
  {| HashGenerator.hg_now := t; HashGenerator.hg_entryId := entry;
     HashGenerator.hg_auditId := audit; HashGenerator.hg_user := "analyst";
     HashGenerator.hg_workstation := "lab-1";
     HashGenerator.hg_birthtime := fun _ => 1699999999000 |}.

(** Three ingested files, for the list endpoints. *)
Definition named (name where_ : string) (text : string) : MulterFile :=
  {| path := where_; originalname := name; mimetype := "text/plain";
     content := utf8 text |}.

Definition file3 : string := "5a1d3c7e-2b4f-4e6a-9c8b-1d2e3f4a5b6c".

Definition three_uploads : State :=
  let s1 := fst (post_upload Sample.node
                   (upload_by (Some "u1") (named "c.txt" "/srv/custody/backend/uploads/f1" "gamma"))
                   (at_time 1700000000000 file1 true) empty) in
  let s2 := fst (post_upload Sample.node
                   (upload_by (Some "u1") (named "a.txt" "/srv/custody/backend/uploads/f2" "alpha"))
                   (at_time 1700000001000 file2 true) s1) in
  fst (post_upload Sample.node
         (upload_by (Some "u2") (named "b.txt" "/srv/custody/backend/uploads/f3" "beta"))
         (at_time 1700000002000 file3 true) s2).

Definition simple_three_uploads : SimpleServer.State :=
  let s1 := fst (SimpleServer.post_upload Sample.node
                   (upload_by (Some "u1") (named "c.txt" "/srv/custody/backend/uploads/f1" "gamma"))
                   (at_time 1700000000000 file1 true) simple_empty) in
  let s2 := fst (SimpleServer.post_upload Sample.node
                   (upload_by (Some "u1") (named "a.txt" "/srv/custody/backend/uploads/f2" "alpha"))
                   (at_time 1700000001000 file2 true) s1) in
  fst (SimpleServer.post_upload Sample.node
         (upload_by (Some "u2") (named "b.txt" "/srv/custody/backend/uploads/f3" "beta"))
         (at_time 1700000002000 file3 true) s2).

(** ?limit=2&status=active&sortBy=originalFileName&sortOrder=asc *)
Definition by_name : UploadList.ListQuery :=
  {| UploadList.q_page := None; UploadList.q_limit := Some 2;
     UploadList.q_status := Some "active"; UploadList.q_department := None;
     UploadList.q_caseNumber := None; UploadList.q_startDate := None;
     UploadList.q_endDate := None; UploadList.q_sortBy := Some "originalFileName";
     UploadList.q_sortOrder := Some "asc" |}.

(** The same records one per page, sorted by department, which all three
    share. *)
Definition by_department : UploadList.ListQuery :=
  {| UploadList.q_page := None; UploadList.q_limit := Some 1;
     UploadList.q_status := Some "active"; UploadList.q_department := None;
     UploadList.q_caseNumber := None; UploadList.q_startDate := None;
     UploadList.q_endDate := None; UploadList.q_sortBy := Some "metadata.department";
     UploadList.q_sortOrder := Some "asc" |}.

(** How the server comes across the three records at the query for page
    [p]: as they were inserted, but the first two the other way round at the
    second page. *)
Definition scan_turning (p : Z) : Collection :=
  if p =? 2
  then match db three_uploads with
       | x :: y :: r => y :: x :: r
       | l => l
       end
  else db three_uploads.

Definition by_name_filters : UploadList.Filters :=
  {| UploadList.f_status := Some "active"; UploadList.f_department := None;
     UploadList.f_caseNumber := None; UploadList.f_createdAt_gte := None;
     UploadList.f_createdAt_lte := None |}.

End Scenario.

(* ================================================================= *)
(** ** The other endpoints of routes/upload.js, routes/move.js and
       routes/download.js *)

Module MoreRoutes.
Import Model Http Routes.

(** A JSON reply whose success body is an [A]. *)
Inductive Reply (A : Type) : Type :=
| Sent (code : Z) (body : A)
| Failed (code : Z) (error : string).

Arguments Sent {A} code body.
Arguments Failed {A} code error.

(** The body of GET /api/upload/status/:fileId. *)
Record StatusBody := {
  st_fileId : string;
  st_originalFileName : string;
  st_fileSize : Z;
  st_currentLocation : string;
  st_status : Status;
  st_custodyChain : list CustodyEvent;
  st_metadata : Metadata;
  st_createdAt : Z;
  st_updatedAt : Z
}.

(** GET /api/upload/status/:fileId. *)
Definition get_upload_status (id : string) (st : State) : Reply StatusBody :=
  match findByFileId (db st) id with
  | None => Failed 404 "File not found"
  | Some record =>
      Sent 200
        {| st_fileId := fileId record;
           st_originalFileName := originalFileName record;
           st_fileSize := fileSize record;
           st_currentLocation := currentLocation record;
           st_status := status record;
           st_custodyChain := custodyChain record;
           st_metadata := metadata record;
           st_createdAt := createdAt record;
           st_updatedAt := updatedAt record |}
  end.

(** One entry of [moveHistory]. *)
Record HistoryEntry := {
  h_action : Action;
  h_timestamp : Z;
  h_userId : string;
  h_location : string;
  h_notes : option string
}.

Record HistoryBody := {
  hb_fileId : string;
  hb_originalFileName : string;
  hb_currentLocation : string;
  hb_moveHistory : list HistoryEntry
}.

(** [event.action === 'move' || event.action === 'upload'] *)
Definition move_or_upload (e : CustodyEvent) : bool :=
  action_eqb (action e) Move || action_eqb (action e) Upload.

(** GET /api/move/history/:fileId. *)
Definition get_move_history (id : string) (st : State) : Reply HistoryBody :=
  match findByFileId (db st) id with
  | None => Failed 404 "File not found"
  | Some record =>
      let moveHistory := List.filter move_or_upload (custodyChain record) in
      Sent 200
        {| hb_fileId := id;
           hb_originalFileName := originalFileName record;
           hb_currentLocation := currentLocation record;
           hb_moveHistory :=
             List.map (fun event =>
                         {| h_action := action event;
                            h_timestamp := timestamp event;
                            h_userId := userId event;
                            h_location := location event;
                            h_notes := notes event |})
                      moveHistory |}
  end.

(** The body of GET /api/download/info/:fileId. *)
Record InfoBody := {
  i_fileId : string;
  i_originalFileName : string;
  i_fileSize : Z;
  i_mimeType : string;
  i_currentLocation : string;
  i_status : Status;
  i_checksum : string;
  i_fileExists : bool;
  i_integrityValid : bool;
  i_downloadCount : nat;
  i_lastDownload : option Z;
  i_metadata : Metadata;
  i_createdAt : Z
}.

(** [event.action === 'download'] *)
Definition is_download (e : CustodyEvent) : bool := action_eqb (action e) Download.

(** [downloadHistory.length > 0 ?
     downloadHistory[downloadHistory.length - 1].timestamp : null] *)
Definition last_timestamp (h : list CustodyEvent) : option Z :=
  match List.rev h with
  | e :: _ => Some (timestamp e)
  | [] => None
  end.

(** POST /api/move/batch: the request, one outcome per file. *)
Record BatchRequest := {
  b_fileIds : option (list string);   (* [None]: absent or not an array *)
  b_userId : option string;
  b_newLocation : option string;
  b_notes : option string
}.

Record BatchSuccess := {
  ok_fileId : string;
  ok_newLocation : string
}.

Inductive BatchProblem :=
| FileNotFound
| CannotMove (s : Status)
| PhysicalFileNotFound
| Thrown (e : Exception).

Record BatchBody := {
  successful : nat;
  failed : nat;
  results : list BatchSuccess;
  errors : list (string * BatchProblem)
}.

Section WithRuntime.
Variable node : Runtime.

(** GET /api/download/info/:fileId. *)
Definition get_download_info (id : string) (st : State) : Reply InfoBody :=
  match findByFileId (db st) id with
  | None => Failed 404 "File not found"
  | Some record =>
      let fileExists := Disk.existsSync (disk st) (filePath record) in
      let checked :=
        if fileExists
        then verifyFileIntegrity node (disk st) (filePath record) (checksum record)
        else inl false in
      match checked with
      | inr _ => Failed 500 "Failed to get download information"
      | inl integrityValid =>
          let downloadHistory := List.filter is_download (custodyChain record) in
          Sent 200
            {| i_fileId := fileId record;
               i_originalFileName := originalFileName record;
               i_fileSize := fileSize record;
               i_mimeType := mimeType record;
               i_currentLocation := currentLocation record;
               i_status := status record;
               i_checksum := checksum record;
               i_fileExists := fileExists;
               i_integrityValid := integrityValid;
               i_downloadCount := List.length downloadHistory;
               i_lastDownload := last_timestamp downloadHistory;
               i_metadata := metadata record;
               i_createdAt := createdAt record |}
      end
  end.

(** The note a batch move writes when the request has none. *)
Definition batch_note (notes : option string) (record : ChainOfCustody)
           (newLocation : string) : string :=
  or_else notes ("Batch move from " ++ currentLocation record
                 ++ " to " ++ newLocation)%string.

(** The body of the [for (const fileId of fileIds)] loop: the state after
    it and what it pushes, on [results] (left) or on [errors] (right). *)
Definition batch_one (userId newLocation : string) (notes : option string)
           (env : Env) (st : State) (fileId : string)
  : State * (BatchSuccess + BatchProblem) :=
  match findByFileId (db st) fileId with
  | None => (st, inr FileNotFound)
  | Some record =>
      if negb (status_eqb (status record) Active) then
        (st, inr (CannotMove (status record)))
      else if negb (Disk.existsSync (disk st) (filePath record)) then
        (st, inr PhysicalFileNotFound)
      else
        let newLocationDir :=
          path_join node [routes_dirname node; "../"; newLocation] in
        match ensure_directory node (disk st) (osFault env 0) newLocationDir with
        | Some e => (st, inr (Thrown e))
        | None =>
        let fileName := path_basename node (filePath record) in
        let newFilePath := path_join node [newLocationDir; fileName] in
        match Disk.renameSync (path_dirname node) (disk st) (osFault env 1)
                              (filePath record) newFilePath with
        | inr e => (st, inr (Thrown e))
        | inl disk' =>
            let event :=
              {| action := Move; timestamp := now env; userId := userId;
                 location := newLocation;
                 ipAddress := ip env; userAgent := agent env;
                 notes := Some (batch_note notes record newLocation) |} in
            let record1 := addCustodyEvent record event in
            match save (dbReachable env 0) (savedAt env 0) (db st) record1 with
            | inr e => ({| db := db st; disk := disk' |}, inr (Thrown (SaveFailed e)))
            | inl db1 =>
                let record2 := set_filePath record1 newFilePath in
                match save (dbReachable env 1) (savedAt env 1) db1 record2 with
                | inr e =>
                    ({| db := db1; disk := disk' |}, inr (Thrown (SaveFailed e)))
                | inl db2 =>
                    ({| db := db2; disk := disk' |},
                     inl {| ok_fileId := fileId; ok_newLocation := newLocation |})
                end
            end
        end
        end
  end.

(** The loop; [envs i] is what the i-th iteration finds around it. *)
Fixpoint batch_loop (userId newLocation : string) (notes : option string)
         (envs : nat -> Env) (i : nat) (fileIds : list string) (st : State)
         (results : list BatchSuccess) (errors : list (string * BatchProblem))
  : State * BatchBody :=
  match fileIds with
  | [] =>
      (st, {| successful := List.length results; failed := List.length errors;
              results := results; errors := errors |})
  | fileId :: rest =>
      match batch_one userId newLocation notes (envs i) st fileId with
      | (st', inl r) =>
          batch_loop userId newLocation notes envs (S i) rest st'
                     (results ++ [r]) errors
      | (st', inr p) =>
          batch_loop userId newLocation notes envs (S i) rest st'
                     results (errors ++ [(fileId, p)])
      end
  end.

(** POST /api/move/batch. *)
Definition post_move_batch (rq : BatchRequest) (envs : nat -> Env) (st : State)
  : State * Reply BatchBody :=
  match b_fileIds rq, b_userId rq, b_newLocation rq with
  | Some fileIds, Some (String c1 u), Some (String c2 l) =>
      let '(st', body) :=
        batch_loop (String c1 u) (String c2 l) (b_notes rq) envs 0 fileIds st [] [] in
      (st', Sent 200 body)
  | _, _, _ =>
      (st, Failed 400
         "Missing required fields: fileIds (array), userId, and newLocation are required")
  end.

End WithRuntime.
End MoreRoutes.

(* ================================================================= *)
(** ** routes/reports.js: filters, the files list and the CSV export *)

Module Reports.
Import Model Http Routes MoreRoutes.

Record ReportQuery := {
  r_page : option Z;
  r_limit : option Z;
  r_startDate : option (option Z);   (* as in [UploadList.ListQuery] *)
  r_endDate : option (option Z);
  r_status : option string;
  r_location : option string;
  r_department : option string;
  r_caseNumber : option string;
  r_evidenceType : option string;
  r_userId : option string;
  r_sortBy : option string;
  r_sortOrder : option string
}.

(** The filter document; a bound [Some None] is [new Date] of a string that
    does not parse. *)
Record ReportFilters := {
  rf_createdAt_gte : option (option Z);
  rf_createdAt_lte : option (option Z);
  rf_status : option string;
  rf_currentLocation : option string;
  rf_department : option string;
  rf_caseNumber : option string;
  rf_evidenceType : option string;
  rf_chain_userId : option string
}.

(** [buildQueryFilters(queryParams)] *)
Definition buildQueryFilters (q : ReportQuery) : ReportFilters :=
  {| rf_createdAt_gte := r_startDate q;
     rf_createdAt_lte := r_endDate q;
     rf_status := UploadList.given (r_status q);
     rf_currentLocation := UploadList.given (r_location q);
     rf_department := UploadList.given (r_department q);
     rf_caseNumber := UploadList.given (r_caseNumber q);
     rf_evidenceType := UploadList.given (r_evidenceType q);
     rf_chain_userId := UploadList.given (r_userId q) |}.

Definition holds (filter : option string) (test : string -> bool) : bool :=
  match filter with
  | Some v => test v
  | None => true
  end.

Definition bound_holds (bound : option (option Z)) (test : Z -> bool) : bool :=
  match bound with
  | Some (Some t) => test t
  | _ => true
  end.

(** A document matches the filter document. *)
Definition matches (f : ReportFilters) (d : ChainOfCustody) : bool :=
  bound_holds (rf_createdAt_gte f) (fun t => t <=? createdAt d)
  && bound_holds (rf_createdAt_lte f) (fun t => createdAt d <=? t)
  && holds (rf_status f) (String.eqb (status_string (status d)))
  && holds (rf_currentLocation f) (String.eqb (currentLocation d))
  && holds (rf_department f) (UploadList.opt_string_is (department (metadata d)))
  && holds (rf_caseNumber f) (UploadList.opt_string_is (caseNumber (metadata d)))
  && holds (rf_evidenceType f) (UploadList.opt_string_is (evidenceType (metadata d)))
  && holds (rf_chain_userId f)
           (fun u => List.existsb (fun e => String.eqb (userId e) u) (custodyChain d)).

(** [ChainOfCustody.find(filters)]: the cast of an invalid date fails the
    query ([None]). *)
Definition find (f : ReportFilters) (db : Collection) : option (list ChainOfCustody) :=
  match rf_createdAt_gte f, rf_createdAt_lte f with
  | Some None, _ | _, Some None => None
  | _, _ => Some (List.filter (matches f) db)
  end.

Record FilesBody := {
  fb_data : list ChainOfCustody;
  fb_pagination : Pagination
}.

(** GET /api/reports/files. *)
Definition get_files (q : ReportQuery) (db : Collection) : Reply FilesBody :=
  let page := Paging.parse_or (r_page q) 1 in
  let limit := Paging.parse_or (r_limit q) 10 in
  let skip := (page - 1) * limit in
  let filters := buildQueryFilters q in
  let sortField := or_else (r_sortBy q) "createdAt" in
  let sortOrder := match r_sortOrder q with
                   | Some s => if String.eqb s "asc" then 1 else -1
                   | None => -1
                   end in
  match find filters db with
  | None => Failed 500 "Failed to retrieve files"
  | Some found =>
      match UploadList.skip_limit skip limit
              (UploadList.sort_by sortField sortOrder found) with
      | None => Failed 500 "Failed to retrieve files"
      | Some records =>
          Sent 200 {| fb_data := records;
                      fb_pagination :=
                        Paging.pagination page limit
                                          (Z.of_nat (List.length found)) |}
      end
  end.

(** One row of the flattened export. *)
Record Row := {
  row_fileId : string;
  row_originalFileName : string;
  row_fileSize : Z;
  row_mimeType : string;
  row_checksum : string;
  row_currentLocation : string;
  row_status : Status;
  row_department : string;
  row_caseNumber : string;
  row_evidenceType : string;
  row_classification : string;
  row_tags : string;
  row_action : Action;
  row_actionTimestamp : string;
  row_actionUserId : string;
  row_actionLocation : string;
  row_actionIpAddress : string;
  row_actionUserAgent : string;
  row_actionNotes : string;
  row_recordCreatedAt : string;
  row_recordUpdatedAt : string
}.

(** The reply of an export: the rows handed to the CSV writer and the
    X-Total-Records header, or a JSON error. *)
Inductive Export (R : Type) : Type :=
| CsvFile (totalRecords : nat) (rows : list R)
| NoExport (code : Z) (error : string).

Arguments CsvFile {R} totalRecords rows.
Arguments NoExport {R} code error.

Section WithMoment.
(** [moment(date).format('YYYY-MM-DD HH:mm:ss')] *)
Variable format : Z -> string.

Definition row_of (record : ChainOfCustody) (event : CustodyEvent) : Row :=
  {| row_fileId := fileId record;
     row_originalFileName := originalFileName record;
     row_fileSize := fileSize record;
     row_mimeType := mimeType record;
     row_checksum := checksum record;
     row_currentLocation := currentLocation record;
     row_status := status record;
     row_department := or_else (department (metadata record)) EmptyString;
     row_caseNumber := or_else (caseNumber (metadata record)) EmptyString;
     row_evidenceType := or_else (evidenceType (metadata record)) EmptyString;
     row_classification := or_else (classification (metadata record)) EmptyString;
     row_tags := String.concat ", " (tags (metadata record));
     row_action := action event;
     row_actionTimestamp := format (timestamp event);
     row_actionUserId := userId event;
     row_actionLocation := location event;
     row_actionIpAddress := or_else (ipAddress event) EmptyString;
     row_actionUserAgent := or_else (userAgent event) EmptyString;
     row_actionNotes := or_else (notes event) EmptyString;
     row_recordCreatedAt := format (createdAt record);
     row_recordUpdatedAt := format (updatedAt record) |}.

(** [flattenCustodyData(records)]: the two nested [forEach] with their
    [push]. *)
Definition flattenCustodyData (records : list ChainOfCustody) : list Row :=
  List.fold_left
    (fun flattened record =>
       List.fold_left (fun acc event => acc ++ [row_of record event])
                      (custodyChain record) flattened)
    records [].

(** GET /api/reports/export/csv. *)
Definition get_export_csv (q : ReportQuery) (db : Collection) : Export Row :=
  match find (buildQueryFilters q) db with
  | None => NoExport 500 "Failed to export CSV"
  | Some [] => NoExport 404 "No records found for export"
  | Some records =>
      let flattenedData := flattenCustodyData records in
      CsvFile (List.length flattenedData) flattenedData
  end.

End WithMoment.

(** One [event] element of the XML export. *)
Record XmlEvent := {
  xe_action : Action;
  xe_timestamp : string;
  xe_userId : string;
  xe_location : string;
  xe_ipAddress : string;
  xe_userAgent : string;
  xe_notes : string
}.

(** One [file] element: its attributes, [basicInfo], [metadata] and
    [custodyChain]. *)
Record XmlFile := {
  xf_fileId : string;
  xf_status : Status;
  xf_originalFileName : string;
  xf_fileSize : Z;
  xf_mimeType : string;
  xf_checksum : string;
  xf_currentLocation : string;
  xf_createdAt : string;
  xf_updatedAt : string;
  xf_department : string;
  xf_caseNumber : string;
  xf_evidenceType : string;
  xf_classification : string;
  xf_tags : list string;
  xf_events : list XmlEvent
}.

(** The reply of the XML export: the X-Total-Records header with the
    [file] elements handed to the XML builder, or a JSON error. *)
Inductive XmlReply :=
| XmlDocument (totalRecords : nat) (files : list XmlFile)
| XmlRefused (code : Z) (error : string).

Section WithISO.
(** [moment(date).toISOString()] *)
Variable toISOString : Z -> string.

Definition xml_event_of (event : CustodyEvent) : XmlEvent :=
  {| xe_action := action event;
     xe_timestamp := toISOString (timestamp event);
     xe_userId := userId event;
     xe_location := location event;
     xe_ipAddress := or_else (ipAddress event) EmptyString;
     xe_userAgent := or_else (userAgent event) EmptyString;
     xe_notes := or_else (notes event) EmptyString |}.

Definition xml_file_of (record : ChainOfCustody) : XmlFile :=
  {| xf_fileId := fileId record;
     xf_status := status record;
     xf_originalFileName := originalFileName record;
     xf_fileSize := fileSize record;
     xf_mimeType := mimeType record;
     xf_checksum := checksum record;
     xf_currentLocation := currentLocation record;
     xf_createdAt := toISOString (createdAt record);
     xf_updatedAt := toISOString (updatedAt record);
     xf_department := or_else (department (metadata record)) EmptyString;
     xf_caseNumber := or_else (caseNumber (metadata record)) EmptyString;
     xf_evidenceType := or_else (evidenceType (metadata record)) EmptyString;
     xf_classification := or_else (classification (metadata record)) EmptyString;
     xf_tags := tags (metadata record);
     xf_events := List.map xml_event_of (custodyChain record) |}.

(** GET /api/reports/export/xml. *)
Definition get_export_xml (q : ReportQuery) (db : Collection) : XmlReply :=
  match find (buildQueryFilters q) db with
  | None => XmlRefused 500 "Failed to export XML"
  | Some [] => XmlRefused 404 "No records found for export"
  | Some records => XmlDocument (List.length records) (List.map xml_file_of records)
  end.

End WithISO.
End Reports.

(* ================================================================= *)
(** ** The other endpoints of simple-server.js *)

Module SimpleMore.
Import Model Http SimpleServer MoreRoutes.

(** The body of GET /api/upload/status/:fileId:
    [{ ...file, custodyChain: chain || [] }]. *)
Record StatusBody := {
  file : FileSummary;
  chain : list CustodyEvent
}.

(** app.get('/api/upload/status/:fileId'). *)
Definition get_upload_status (id : string) (st : State) : Reply StatusBody :=
  match map_get (files st) id with
  | None => Failed 404 "File not found"
  | Some f => Sent 200 {| file := f; chain := chain_of st id |}
  end.

(** [totalFiles: files.size] of GET /health. *)
Definition health_totalFiles (st : State) : nat := List.length (files st).

Record Row := {
  row_fileId : string;
  row_originalFileName : string;
  row_fileSize : Z;
  row_checksum : string;
  row_currentLocation : string;
  row_status : Status;
  row_department : string;
  row_caseNumber : string;
  row_evidenceType : string;
  row_action : Action;
  row_actionTimestamp : string;
  row_actionUserId : string;
  row_actionLocation : string;
  row_actionNotes : string
}.

Section WithDates.
(** [Date.prototype.toISOString] *)
Variable toISOString : Z -> string.

Definition row_of (f : FileSummary) (event : CustodyEvent) : Row :=
  {| row_fileId := s_fileId f;
     row_originalFileName := s_originalFileName f;
     row_fileSize := s_fileSize f;
     row_checksum := s_checksum f;
     row_currentLocation := s_currentLocation f;
     row_status := s_status f;
     row_department := or_else (department (s_metadata f)) EmptyString;
     row_caseNumber := or_else (caseNumber (s_metadata f)) EmptyString;
     row_evidenceType := or_else (evidenceType (s_metadata f)) EmptyString;
     row_action := action event;
     row_actionTimestamp := toISOString (timestamp event);
     row_actionUserId := userId event;
     row_actionLocation := location event;
     row_actionNotes := or_else (notes event) EmptyString |}.

(** app.get('/api/reports/export/csv'): [flattenedData], the rows handed to
    the CSV writer and counted in X-Total-Records. *)
Definition export_rows (st : State) : list Row :=
  List.fold_left
    (fun flattenedData f =>
       List.fold_left (fun acc event => acc ++ [row_of f event])
                      (chain_of st (s_fileId f)) flattenedData)
    (map_values (files st)) [].

End WithDates.
End SimpleMore.

(* ================================================================= *)
(** ** The other methods of [HashGenerator] *)

Module HashGeneratorMore.
Import HashGenerator.

(** An entry of [manifest.files]: the hash with [size] and [modified], or
    the message of what was thrown. *)
Inductive ManifestEntry :=
| Hashed (hash : string) (size : Z) (modified : Z)
| Errored (error : Failure).

(** [manifest]; [files] is the object keyed by path, kept as its own
    properties ([Object.keys], [Object.entries]); the theorems read it by
    key and by count only, not by the order of the keys. *)
Record Manifest := {
  m_algorithm : string;
  m_generatedAt : Z;
  m_files : list (string * ManifestEntry)
}.

(** An entry of [results.details]. *)
Inductive Detail :=
| DetailVerified (hash : string)
| DetailFailed (expected actual : string)
| DetailMissing
| DetailError (error : Failure).

(** [results]; [details] is kept as what [results.details[path]] reads
    after the loop. *)
Record Verification := {
  v_algorithm : string;
  v_verifiedAt : Z;
  v_totalFiles : nat;
  v_verified : nat;
  v_failed : nat;
  v_missing : nat;
  v_details : list (string * Detail)
}.

Fixpoint get {V : Type} (m : list (string * V)) (k : string) : option V :=
  match m with
  | [] => None
  | (k', v) :: r => if String.eqb k' k then Some v else get r k
  end.

(** [obj[k] = v] as reading [obj[k]] sees it afterwards. *)
Fixpoint put {V : Type} (m : list (string * V)) (k : string) (v : V)
  : list (string * V) :=
  match m with
  | [] => [(k, v)]
  | (k', v') :: r => if String.eqb k' k then (k, v) :: r else (k', v') :: put r k v
  end.

(** The keys an assignment can make a property of: [obj['__proto__'] = v]
    goes to the setter of [Object.prototype] instead, which gives [obj] the
    prototype [v] when [v] is an object and does nothing when it is a
    string. *)
Definition own_key (k : string) : bool := negb (String.eqb k "__proto__").

(** [obj[k] = v] on an object made by [{}], as its own properties see
    it. *)
Definition assign {V : Type} (m : list (string * V)) (k : string) (v : V)
  : list (string * V) :=
  if own_key k then put m k v else m.

(** The [currentPath] property that [trackFileMovement] writes on a file's
    entry of custody-database.json, kept beside the entries by fileId. *)
Record Tracked := {
  base : State;
  currentPath : list (string * string)
}.

Section WithRuntime.
Variable node : Runtime.

(** [generateTextHash(content, algorithm)]; [inr] is the thrown error. *)
Definition generateTextHash (content algorithm : string) : string + Failure :=
  if negb (supported algorithm) then inr (UnsupportedAlgorithm algorithm)
  else inl (hex_of_bytes (createHash node algorithm (utf8 content))).

(** What [generateMultipleHashes] stores under an algorithm: the hash, or
    the text [`Error: ${error.message}`] kept here as the error.  The
    result is the own properties of [results]. *)
Definition generateMultipleHashes (fs : Disk.FS) (filePath : string)
           (algorithms : list string) : list (string * (string + Failure)) :=
  List.fold_left
    (fun results algorithm =>
       assign results algorithm (fileHash node fs filePath algorithm))
    algorithms [].

(** [generateManifest(filePaths, algorithm)]; [mtime] is [stats.mtime]. *)
Definition generateManifest (now : Z) (mtime : string -> Z) (fs : Disk.FS)
           (filePaths : list string) (algorithm : string) : Manifest :=
  {| m_algorithm := algorithm;
     m_generatedAt := now;
     m_files :=
       List.fold_left
         (fun files filePath =>
            assign files filePath
                (match Disk.readFile fs filePath with
                 | None => Errored (NoSuchFile filePath)      (* statSync throws *)
                 | Some b =>
                     match fileHash node fs filePath algorithm with
                     | inl hash => Hashed hash (Z.of_nat (List.length b)) (mtime filePath)
                     | inr e => Errored e
                     end
                 end))
         filePaths [] |}.

(** What the loop of [verifyManifest] decides for one entry. *)
Definition verify_entry (fs : Disk.FS) (algorithm filePath : string)
           (fileInfo : ManifestEntry) : Detail :=
  match fileInfo with
  | Errored e => DetailError e
  | Hashed hash _ _ =>
      if negb (Disk.existsSync fs filePath) then DetailMissing
      else if verifyFileIntegrity node fs filePath hash algorithm
           then DetailVerified hash
           else match fileHash node fs filePath algorithm with
                | inl actualHash => DetailFailed hash actualHash
                | inr e => DetailError e
                end
  end.

Definition is_verified (d : Detail) : bool :=
  match d with DetailVerified _ => true | _ => false end.

Definition is_missing (d : Detail) : bool :=
  match d with DetailMissing => true | _ => false end.

(** [results.failed++]: the failed and the error entries. *)
Definition is_failed (d : Detail) : bool :=
  match d with DetailFailed _ _ | DetailError _ => true | _ => false end.

Definition bump (b : bool) (n : nat) : nat := if b then S n else n.

(** [verifyManifest(manifest)] *)
Definition verifyManifest (now : Z) (fs : Disk.FS) (manifest : Manifest)
  : Verification :=
  List.fold_left
    (fun results entry =>
       let d := verify_entry fs (m_algorithm manifest) (fst entry) (snd entry) in
       {| v_algorithm := v_algorithm results;
          v_verifiedAt := v_verifiedAt results;
          v_totalFiles := v_totalFiles results;
          v_verified := bump (is_verified d) (v_verified results);
          v_failed := bump (is_failed d) (v_failed results);
          v_missing := bump (is_missing d) (v_missing results);
          v_details := put (v_details results) (fst entry) d |})
    (m_files manifest)
    {| v_algorithm := m_algorithm manifest;
       v_verifiedAt := now;
       v_totalFiles := List.length (m_files manifest);
       v_verified := 0; v_failed := 0; v_missing := 0;
       v_details := [] |}.

(** [trackFileMovement(filePath, newPath, notes)].  [db] is loaded first;
    [addToCustodyChain] loads and saves its own copy; the [db] loaded first
    is then given the new [currentPath] and saved over it. *)
Definition trackFileMovement (env : Env) (st : Tracked)
           (filePath newPath notes : string) : Tracked * bool :=
  let fileId := generateFileId node filePath in
  let db := files (base st) in
  match lookup db fileId with
  | None => (st, false)
  | Some _ =>
      match fileHash node (disk (base st)) filePath "sha256" with
      | inr _ => (st, false)
      | inl currentHash =>
          match addToCustodyChain node env (base st) filePath currentHash "sha256"
                  "moved"
                  ("File moved from " ++ filePath ++ " to " ++ newPath ++ ". "
                   ++ notes)%string with
          | None => (st, false)
          | Some (written, _) =>
              ({| base := {| files := db;
                             auditLog := auditLog written;
                             disk := disk written |};
                  currentPath := put (currentPath st) fileId newPath |},
               true)
          end
      end
  end.

End WithRuntime.
End HashGeneratorMore.

(* ================================================================= *)
(** ** Runs of the routes *)

Module Runs.
Import Model.

(** What a record keeps for ever, and how its chain grows: [after] has the
    identity and the ingest-time fields of [before] and its chain is the
    chain of [before] followed by events that are not uploads. *)
Definition grows (before after : ChainOfCustody) : Prop :=
  fileId after = fileId before
  /\ originalFileName after = originalFileName before
  /\ fileSize after = fileSize before
  /\ mimeType after = mimeType before
  /\ checksum after = checksum before
  /\ metadata after = metadata before
  /\ createdAt after = createdAt before
  /\ exists suffix : list CustodyEvent,
       custodyChain after = custodyChain before ++ suffix
       /\ List.Forall (fun e => action e <> Upload) suffix.

(** Every record that can be looked up in [db] can be looked up in [db'],
    grown. *)
Definition extends (db db' : Collection) : Prop :=
  forall (id : string) (d : ChainOfCustody),
    findByFileId db id = Some d ->
    exists d' : ChainOfCustody, findByFileId db' id = Some d' /\ grows d d'.

(** From [db] to [db'] no status was written: a record that was there is
    still there with the status it had, and a record that is new is
    active. *)
Definition keeps_status (db db' : Collection) : Prop :=
  (forall (id : string) (d : ChainOfCustody),
      findByFileId db id = Some d ->
      exists d' : ChainOfCustody, findByFileId db' id = Some d' /\ status d' = status d)
  /\ (forall (id : string) (d' : ChainOfCustody),
         findByFileId db id = None -> findByFileId db' id = Some d' ->
         status d' = Active).

Section WithRuntime.
Variable node : Runtime.

(** Any number of requests to the routes, with the bytes on the disk
    changing outside them, and nothing else. *)
Inductive served : Routes.State -> Routes.State -> Prop :=
| served_none st : served st st
| served_upload st st' rq env :
    served st st' -> served st (fst (Routes.post_upload node rq env st'))
| served_move st st' rq env :
    served st st' -> served st (fst (Routes.post_move node rq env st'))
| served_download st st' rq env :
    served st st' -> served st (fst (Routes.get_download node rq env st'))
| served_access_log st st' rq env :
    served st st' -> served st (fst (Routes.post_access_log rq env st'))
| served_disk st st' disk' :
    served st st' ->
    served st {| Routes.db := Routes.db st'; Routes.disk := disk' |}.

(** Any number of steps of [Reach.step]. *)
Inductive later : Routes.State -> Routes.State -> Prop :=
| later_now st : later st st
| later_step st st' st'' : later st st' -> Reach.step node st' st'' -> later st st''.


End WithRuntime.
End Runs.

(* ================================================================= *)
(** ** Notions used by the statements about single endpoints *)

Module Notions.
Import Model Routes.

(** The location written on the most recent event of a chain. *)
Definition latest_location (c : list CustodyEvent) : option string :=
  match List.rev c with
  | e :: _ => Some (location e)
  | [] => None
  end.

(** [event.action === 'move'] *)
Definition is_move (e : CustodyEvent) : bool := action_eqb (action e) Move.

(** The record of [id] is on file in [db] with currentLocation [l]. *)
Definition placed (l : string) (db : Collection) (id : string) : Prop :=
  exists d : ChainOfCustody, findByFileId db id = Some d /\ currentLocation d = l.

Section WithRuntime.
Variable node : Runtime.

(** The directory of a location: [path.join(__dirname, '../', newLocation)]. *)
Definition location_dir (newLocation : string) : string :=
  path_join node [routes_dirname node; "../"; newLocation].

(** Where POST /api/move and the batch move put the file of [record]:
    [path.join(path.join(__dirname, '../', newLocation),
               path.basename(record.filePath))]. *)
Definition destination (record : ChainOfCustody) (newLocation : string) : string :=
  path_join node [location_dir newLocation; path_basename node (filePath record)].

(** The event POST /api/move appends. *)
Definition move_event (env : Env) (actor loc : string) (notes : option string)
           (record : ChainOfCustody) : CustodyEvent :=
  {| action := Move; timestamp := now env; userId := actor; location := loc;
     ipAddress := ip env; userAgent := agent env;
     Model.notes := Some (or_else notes
                      ("File moved from " ++ currentLocation record
                       ++ " to " ++ loc)%string) |}.

End WithRuntime.

(** More requests for the examples. *)
Definition offline : Env := Scenario.at_time 1700000060000 Scenario.file2 false.

End Notions.

(** Requests to POST /api/move/batch for the examples. *)
Module BatchScenario.
Import Model Routes MoreRoutes.

Definition vault (ids : list string) : BatchRequest :=
  {| b_fileIds := Some ids; b_userId := Some "u7"; b_newLocation := Some "vault";
     b_notes := None |}.

(** The i-th pass of the loop runs one second after the one before. *)
Definition ticking (i : nat) : Env :=
  Scenario.at_time (1700000200000 + 1000 * Z.of_nat i) Scenario.file2 true.

(** The fileId of Scenario A and one that was never issued. *)
Definition wanted : list string := [Scenario.file1; Scenario.file3].

End BatchScenario.

(** What the read-only views answer at the stages of Scenario A. *)
Module ViewScenario.
Import Model Http Routes MoreRoutes.

Definition retrieved_history : HistoryBody :=
  {| hb_fileId := Scenario.file1;
     hb_originalFileName := "a.txt";
     hb_currentLocation := "archive";
     hb_moveHistory :=
       [ {| h_action := Upload; h_timestamp := 1700000000000; h_userId := "u1";
            h_location := "uploads"; h_notes := None |};
         {| h_action := Move; h_timestamp := 1700000060000; h_userId := "u2";
            h_location := "archive";
            h_notes := Some "File moved from uploads to archive" |} ] |}.

Definition info (where_ : string) (downloads : nat) (last : option Z) : InfoBody :=
  {| i_fileId := Scenario.file1;
     i_originalFileName := "a.txt";
     i_fileSize := 17;
     i_mimeType := "text/plain";
     i_currentLocation := where_;
     i_status := Active;
     i_checksum := hex_of_bytes (SHA256.sha256 (utf8 "original evidence"));
     i_fileExists := true;
     i_integrityValid := true;
     i_downloadCount := downloads;
     i_lastDownload := last;
     i_metadata := metadata Scenario.ingested_record;
     i_createdAt := 1700000000000 |}.

Definition streamed_headers : DownloadHeaders :=
  {| contentDisposition := attachment "a.txt";
     contentType := "text/plain";
     contentLength := Some 17;
     xFileId := Scenario.file1;
     xFileChecksum := hex_of_bytes (SHA256.sha256 (utf8 "original evidence")) |}.

Definition third_request : Env := Scenario.at_time 1700000120000 Scenario.file2 true.

End ViewScenario.

(** Queries to the report endpoints for the examples. *)
Module ReportScenario.
Import Model Routes Reports.

(** [moment(t).format('YYYY-MM-DD HH:mm:ss')] in UTC at the three request
    times of Scenario A. *)
Definition clock (t : Z) : string :=
  if t <? 1700000060000 then "2023-11-14 22:13:20"
  else if t <? 1700000120000 then "2023-11-14 22:14:20"
  else "2023-11-14 22:15:20".

Definition everything : ReportQuery :=
  {| r_page := None; r_limit := None; r_startDate := None; r_endDate := None;
     r_status := None; r_location := None; r_department := None;
     r_caseNumber := None; r_evidenceType := None; r_userId := None;
     r_sortBy := None; r_sortOrder := None |}.

(** ?userId=u2&location=archive&startDate=2023-11-14T22:13:20Z *)
Definition handled_by_u2 : ReportQuery :=
  {| r_page := None; r_limit := None;
     r_startDate := Some (Some 1700000000000); r_endDate := None;
     r_status := None; r_location := Some "archive"; r_department := None;
     r_caseNumber := None; r_evidenceType := None; r_userId := Some "u2";
     r_sortBy := None; r_sortOrder := None |}.

(** ?status=archived *)
Definition archived_only : ReportQuery :=
  {| r_page := None; r_limit := None; r_startDate := None; r_endDate := None;
     r_status := Some "archived"; r_location := None; r_department := None;
     r_caseNumber := None; r_evidenceType := None; r_userId := None;
     r_sortBy := None; r_sortOrder := None |}.

End ReportScenario.

(** Disks and manifests for the examples of the command line utility. *)
Module ManifestScenario.
Import HashGenerator HashGeneratorMore.

Definition absent_path : string := "/srv/custody/absent.txt".




Definition mtime (p : string) : Z := 1699999999500.

(** The state after [generateFileHash(cli_path, 'sha256', true)]. *)
Definition hashed_once : State :=
  fst (generateFileHash Sample.node (Scenario.cli_env 1700000000000 "entry-1" "audit-1")
                        Scenario.cli_start Scenario.cli_path "sha256" true).

(** The same with the file rewritten since. *)
Definition rewritten : Tracked :=
  {| base := {| files := files hashed_once; auditLog := auditLog hashed_once;
                disk := [(Scenario.cli_path, utf8 "abd")] |};
     currentPath := [] |}.

End ManifestScenario.

(** The status reply of simple-server.js after the relocation of
    Scenario A, and a stand-in for [toISOString] at its request times. *)
Module SimpleScenario.
Import Model Http.

Definition relocated_status : SimpleMore.StatusBody :=
  {| SimpleMore.file :=
       SimpleServer.set_location Scenario.simple_record "archive" 1700000060000;
     SimpleMore.chain :=
       SimpleServer.chain_of Scenario.simple_relocated Scenario.file1 |}.

Definition iso (t : Z) : string :=
  if t <? 1700000060000 then "2023-11-14T22:13:20.000Z"
  else "2023-11-14T22:14:20.000Z".

End SimpleScenario.

(* ================================================================= *)
(** ** GET /api/move/list: the aggregation *)

Module Activity.
Import Model Http Routes MoreRoutes.

(** [req.query] of the endpoint.  A date is [new Date(...)] of a string
    that parses ([None]: the parameter is absent or empty); a string that
    does not parse is outside this model, since an aggregation does not
    cast its [$match] and what the server does with an invalid date is not
    in the source. *)
Record ActivityQuery := {
  a_page : option Z;
  a_limit : option Z;
  a_startDate : option Z;
  a_endDate : option Z;
  a_userId : option string;
  a_location : option string;
  a_sortOrder : option string
}.

(** What [$project] keeps of an unwound document. *)
Record MoveRow := {
  mr_fileId : string;
  mr_originalFileName : string;
  mr_currentLocation : string;
  mr_status : Status;
  mr_department : option string;
  mr_caseNumber : option string;
  mr_action : Action;
  mr_timestamp : Z;
  mr_userId : string;
  mr_location : string;
  mr_ipAddress : option string;
  mr_notes : option string
}.

Definition move_project (d : ChainOfCustody) (e : CustodyEvent) : MoveRow :=
  {| mr_fileId := fileId d; mr_originalFileName := originalFileName d;
     mr_currentLocation := currentLocation d; mr_status := status d;
     mr_department := department (metadata d);
     mr_caseNumber := caseNumber (metadata d);
     mr_action := action e; mr_timestamp := timestamp e; mr_userId := userId e;
     mr_location := location e; mr_ipAddress := ipAddress e; mr_notes := notes e |}.

(** The [$match] on [custodyChain.timestamp]. *)
Definition in_dates (q : ActivityQuery) (e : CustodyEvent) : bool :=
  match a_startDate q with Some t => t <=? timestamp e | None => true end
  && match a_endDate q with Some t => timestamp e <=? t | None => true end.

(** The [$match] stages on one unwound event. *)
Definition move_keep (q : ActivityQuery) (e : CustodyEvent) : bool :=
  move_or_upload e
  && in_dates q e
  && Reports.holds (UploadList.given (a_userId q)) (String.eqb (userId e))
  && Reports.holds (UploadList.given (a_location q)) (String.eqb (location e)).

(** [req.query.sortOrder === 'asc' ? 1 : -1] *)
Definition sortOrder_of (q : ActivityQuery) : Z :=
  match a_sortOrder q with
  | Some s => if String.eqb s "asc" then 1 else -1
  | None => -1
  end.

(** The length of [moveHistory] of a reply of GET /api/move/history/:fileId. *)
Definition history_length (reply : Reply HistoryBody) : nat :=
  match reply with
  | Sent _ body => List.length (hb_moveHistory body)
  | Failed _ _ => 0
  end.

Record ListBody := {
  lb_data : list MoveRow;
  lb_pagination : Pagination
}.

(** [$unwind], the [$match] stages and [$project], over the documents as
    the aggregation comes across them. *)
Definition piped (q : ActivityQuery) (db : Collection) : list MoveRow :=
  List.flat_map
    (fun d => List.map (move_project d) (List.filter (move_keep q) (custodyChain d)))
    db.

(** [a] may stay in front of [b] under [{ $sort: { timestamp: sortOrder } }]. *)
Definition may_precede (sortOrder : Z) (a b : MoveRow) : bool :=
  if sortOrder =? 1 then mr_timestamp a <=? mr_timestamp b
  else mr_timestamp b <=? mr_timestamp a.

Fixpoint insert (sortOrder : Z) (x : MoveRow) (l : list MoveRow) : list MoveRow :=
  match l with
  | [] => [x]
  | y :: r =>
      if may_precede sortOrder x y then x :: y :: r else y :: insert sortOrder x r
  end.

(** [$sort]: rows of equal timestamp come out as the stage met them, the
    server promising nothing about them. *)
Definition sort_rows (sortOrder : Z) (l : list MoveRow) : list MoveRow :=
  List.fold_right (insert sortOrder) [] l.

(** The rows are in the order the sort asks for. *)
Definition in_time_order (sortOrder : Z) (l : list MoveRow) : Prop :=
  Sorted.StronglySorted (fun a b => may_precede sortOrder a b = true) l.

(** GET /api/move/list.  The two aggregations run the same pipeline, one
    ended by [$skip] and [$limit], one by [$count]; the server refuses a
    negative [$skip] and a [$limit] that is not positive, which the [catch]
    block reports. *)
Definition get_move_list (q : ActivityQuery) (db : Collection) : Reply ListBody :=
  let page := Paging.parse_or (a_page q) 1 in
  let limit := Paging.parse_or (a_limit q) 10 in
  let skip := (page - 1) * limit in
  if (skip <? 0) || (limit <=? 0) then Failed 500 "Failed to retrieve move list"
  else
    let results :=
      List.firstn (Z.to_nat limit)
                  (List.skipn (Z.to_nat skip) (sort_rows (sortOrder_of q) (piped q db))) in
    let totalCount := Z.of_nat (List.length (piped q db)) in
    Sent 200 {| lb_data := results;
                lb_pagination := Paging.pagination page limit totalCount |}.

(** A query for the examples. *)
Definition unfiltered : ActivityQuery :=
  {| a_page := None; a_limit := None; a_startDate := None; a_endDate := None;
     a_userId := None; a_location := None; a_sortOrder := None |}.

End Activity.

(* ================================================================= *)
(** ** The routers of server.js: which handler a request reaches *)

Module Router.
Import Model Http Routes.

Inductive Method := GET | POST.

Definition method_eqb (a b : Method) : bool :=
  match a, b with
  | GET, GET | POST, POST => true
  | _, _ => false
  end.

(** A segment of a route's path: a literal, or a parameter [:name]. *)
Inductive Segment := Lit (s : string) | Param (name : string).

(** The handlers of routes/upload.js, routes/move.js and
    routes/download.js. *)
Inductive Handler :=
| HUpload | HUploadStatus | HUploadList | HFiles | HExportCsv | HExportXml
| HMove | HMoveHistory | HMoveList | HMoveBatch
| HDownload | HDownloadInfo | HAccessLog | HDownloadList.

Definition Route := (Method * list Segment * Handler)%type.

(** [router.get(path, ...)] and [router.post(path, ...)] of upload.js, in
    the order of the file. *)
Definition upload_routes : list Route :=
  [ (POST, [Lit "upload"], HUpload);
    (GET, [Lit "upload"; Lit "status"; Param "fileId"], HUploadStatus);
    (GET, [Lit "upload"; Lit "list"], HUploadList);
    (GET, [Lit "files"], HFiles);
    (GET, [Lit "export"; Lit "csv"], HExportCsv);
    (GET, [Lit "export"; Lit "xml"], HExportXml) ].

(** Those of move.js. *)
Definition move_routes : list Route :=
  [ (POST, [Lit "move"], HMove);
    (GET, [Lit "move"; Lit "history"; Param "fileId"], HMoveHistory);
    (GET, [Lit "move"; Lit "list"], HMoveList);
    (POST, [Lit "move"; Lit "batch"], HMoveBatch) ].

(** Those of download.js. *)
Definition download_routes : list Route :=
  [ (GET, [Lit "download"; Param "fileId"], HDownload);
    (GET, [Lit "download"; Lit "info"; Param "fileId"], HDownloadInfo);
    (POST, [Lit "download"; Lit "access-log"], HAccessLog);
    (GET, [Lit "download"; Lit "list"], HDownloadList) ].

(** [app.use('/api', uploadRoutes); app.use('/api', moveRoutes);
    app.use('/api', downloadRoutes)]: a request under /api goes through
    the routers in this order. *)
Definition api_routes : list Route :=
  upload_routes ++ move_routes ++ download_routes.

(** A route's path against the segments of the request's path below /api:
    a literal matches the same segment without regard to case, a parameter
    matches one segment that is not empty and takes it as its value. *)
Fixpoint match_path (pattern : list Segment) (segments : list string)
  : option (list (string * string)) :=
  match pattern, segments with
  | [], [] => Some []
  | Lit s :: pattern', x :: rest =>
      if String.eqb (toLowerCase x) s then match_path pattern' rest else None
  | Param name :: pattern', x :: rest =>
      if nonempty x
      then option_map (cons (name, x)) (match_path pattern' rest)
      else None
  | _, _ => None
  end.

(** The handler that answers: of the routes for the request's method, the
    first whose path matches, with [req.params].  Every handler of the
    three files ends the request and none calls [next], so no later route
    is run. *)
Fixpoint dispatch (routes : list Route) (method : Method) (segments : list string)
  : option (Handler * list (string * string)) :=
  match routes with
  | [] => None
  | (m, pattern, handler) :: rest =>
      if method_eqb method m
      then match match_path pattern segments with
           | Some params => Some (handler, params)
           | None => dispatch rest method segments
           end
      else dispatch rest method segments
  end.

(** [req.params[name]] *)
Definition param (name : string) (params : list (string * string)) : string :=
  match List.find (fun p => String.eqb (fst p) name) params with
  | Some p => snd p
  | None => EmptyString
  end.

End Router.

(* ================================================================= *)
(** * Theorems *)

(** ** The concrete digests agree with the published test vectors *)

Example sha256_empty :
  hex_of_bytes (SHA256.sha256 []) =
  "e3b0c44298fc1c149afbf4c8996fb92427ae41e4649b934ca495991b7852b855".
Proof. vm_compute. reflexivity. Qed.

Example sha256_abc :
  hex_of_bytes (SHA256.sha256 (utf8 "abc")) =
  "ba7816bf8f01cfea414140de5dae2223b00361a396177a9cb410ff61f20015ad".
Proof. vm_compute. reflexivity. Qed.

Example sha256_two_blocks :
  hex_of_bytes (SHA256.sha256
    (utf8 "abcdbcdecdefdefgefghfghighijhijkijkljklmklmnlmnomnopnopq")) =
  "248d6a61d20638b8e5c026930c3e6039a33ce45964ff2167f6ecedd419db06c1".
Proof. vm_compute. reflexivity. Qed.


Example md5_empty :
  hex_of_bytes (MD5.md5 []) = "d41d8cd98f00b204e9800998ecf8427e".
Proof. vm_compute. reflexivity. Qed.

Example md5_abc :
  hex_of_bytes (MD5.md5 (utf8 "abc")) = "900150983cd24fb0d6963f7d28e17f72".
Proof. vm_compute. reflexivity. Qed.

Example md5_alphabet :
  hex_of_bytes (MD5.md5 (utf8 "abcdefghijklmnopqrstuvwxyz")) =
  "c3fcd3d76192e4007dfb496cca67e13b".
Proof. vm_compute. reflexivity. Qed.

(* ================================================================= *)
(** ** The collection: lookups and saves *)

Module ModelFacts.
Import Model.

Lemma nonempty_true (s : string) : s <> EmptyString -> nonempty s = true.
Proof. destruct s; [congruence | reflexivity]. Qed.

Lemma status_eqb_eq (a b : Status) : status_eqb a b = true <-> a = b.
Proof. destruct a, b; simpl; split; congruence. Qed.

Lemma find_fileId (db : Collection) (id : string) (r : ChainOfCustody) :
  findByFileId db id = Some r -> fileId r = id.
Proof.
  unfold findByFileId. intros H. apply List.find_some in H.
  destruct H as [_ H]. now apply String.eqb_eq.
Qed.

Lemma find_In (db : Collection) (id : string) (r : ChainOfCustody) :
  findByFileId db id = Some r -> List.In r db.
Proof. unfold findByFileId. intros H. now apply List.find_some in H. Qed.

Lemma find_replace_same (db : Collection) (d r : ChainOfCustody) :
  findByFileId db (fileId d) = Some r ->
  findByFileId (replace_doc d db) (fileId d) = Some d.
Proof.
  unfold findByFileId. induction db as [|x db IH]; simpl; [discriminate|].
  destruct (String.eqb (fileId x) (fileId d)) eqn:E; simpl.
  - now rewrite String.eqb_refl.
  - rewrite E. exact IH.
Qed.

Lemma find_replace_at (db : Collection) (d r : ChainOfCustody) (id : string) :
  fileId d = id ->
  findByFileId db id = Some r ->
  findByFileId (replace_doc d db) id = Some d.
Proof. intros <-. apply find_replace_same. Qed.

Lemma find_replace_other (db : Collection) (d : ChainOfCustody) (id : string) :
  id <> fileId d ->
  findByFileId (replace_doc d db) id = findByFileId db id.
Proof.
  unfold findByFileId. intros Hne. induction db as [|x db IH]; simpl; [reflexivity|].
  destruct (String.eqb (fileId x) (fileId d)) eqn:E; simpl.
  - apply String.eqb_eq in E.
    destruct (String.eqb (fileId d) id) eqn:E1.
    + apply String.eqb_eq in E1. congruence.
    + rewrite E. now rewrite E1.
  - now rewrite IH.
Qed.

Lemma In_replace (db : Collection) (d x : ChainOfCustody) :
  List.In x (replace_doc d db) -> x = d \/ List.In x db.
Proof.
  induction db as [|y db IH]; simpl; [tauto|].
  destruct (String.eqb (fileId y) (fileId d)); simpl; intros [H|H]; auto.
  destruct (IH H); auto.
Qed.

Lemma Forall_replace (P : ChainOfCustody -> Prop) (db : Collection) (d : ChainOfCustody) :
  List.Forall P db -> P d -> List.Forall P (replace_doc d db).
Proof.
  intros Hdb Hd. apply List.Forall_forall. intros x Hx.
  destruct (In_replace _ _ _ Hx) as [->|Hin]; [exact Hd|].
  now apply (proj1 (List.Forall_forall P db) Hdb).
Qed.

Lemma schema_valid_add (r : ChainOfCustody) (e : CustodyEvent) :
  schema_valid r = true -> event_valid e = true ->
  schema_valid (addCustodyEvent r e) = true.
Proof.
  unfold schema_valid, addCustodyEvent, event_valid; simpl.
  intros Hr He.
  repeat (apply andb_prop in Hr; destruct Hr as [Hr ?]).
  apply andb_prop in He. destruct He as [He1 He2].
  rewrite He2, forallb_app. simpl.
  rewrite He1, He2.
  repeat (apply andb_true_intro; split); auto.
Qed.

Lemma save_ok (t : Z) (db : Collection) (d : ChainOfCustody) :
  schema_valid d = true ->
  save true t db d = inl (replace_doc (set_updatedAt d t) db).
Proof. unfold save. now intros ->. Qed.

Lemma save_inl (up : bool) (t : Z) (db db' : Collection) (d : ChainOfCustody) :
  save up t db d = inl db' -> db' = replace_doc (set_updatedAt d t) db.
Proof.
  unfold save. destruct (schema_valid d); simpl; [|discriminate].
  destruct up; simpl; congruence.
Qed.

End ModelFacts.

(* ================================================================= *)
(** ** JavaScript Maps *)

Module MapFacts.
Import SimpleServer.

Lemma map_get_set_same {V : Type} (m : JsMap V) (k : string) (v : V) :
  map_get (map_set m k v) k = Some v.
Proof.
  induction m as [|[k' v'] m IH]; simpl.
  - now rewrite String.eqb_refl.
  - destruct (String.eqb k' k) eqn:E; simpl.
    + now rewrite String.eqb_refl.
    + now rewrite E.
Qed.

Lemma map_get_set_other {V : Type} (m : JsMap V) (k k' : string) (v : V) :
  k' <> k -> map_get (map_set m k v) k' = map_get m k'.
Proof.
  intros Hne. induction m as [|[k0 v0] m IH]; simpl.
  - destruct (String.eqb_spec k k'); [congruence | reflexivity].
  - destruct (String.eqb_spec k0 k) as [->|Hk]; simpl.
    + destruct (String.eqb_spec k k'); [congruence | reflexivity].
    + now rewrite IH.
Qed.

Lemma map_set_length {V : Type} (m : JsMap V) (k : string) (v : V) :
  map_get m k <> None -> List.length (map_set m k v) = List.length m.
Proof.
  induction m as [|[k0 v0] m IH]; simpl; [congruence|].
  destruct (String.eqb k0 k); simpl; [reflexivity|].
  intros H. now rewrite IH.
Qed.

End MapFacts.

(* ================================================================= *)
(** ** Retrieve and Relocate: the status gate and the integrity gate *)

Module Gates.
Import Model Http Routes ModelFacts MapFacts.

Section WithRuntime.
Variable node : Runtime.

Lemma verify_mismatch (fs : Disk.FS) (p expected : string) (stored : bytes) :
  Disk.readFile fs p = Some stored ->
  hex_of_bytes (createHash node "sha256" stored) <> expected ->
  verifyFileIntegrity node fs p expected = inl false.
Proof.
  intros Hread Hne. unfold verifyFileIntegrity. rewrite Hread.
  destruct (String.eqb _ _) eqn:E; [|reflexivity].
  apply String.eqb_eq in E. contradiction.
Qed.

Lemma verify_match (fs : Disk.FS) (p : string) (stored : bytes) :
  Disk.readFile fs p = Some stored ->
  verifyFileIntegrity node fs p (hex_of_bytes (createHash node "sha256" stored))
  = inl true.
Proof.
  intros Hread. unfold verifyFileIntegrity. rewrite Hread.
  now rewrite String.eqb_refl.
Qed.

(** C2. GET /api/download/:fileId on an existing active record whose stored
    bytes no longer hash to the record's checksum answers with the
    integrity failure (500, "File integrity check failed - file may be
    corrupted"): no file stream is sent and the state, hence the record's
    custody chain, is exactly what it was. *)
Theorem download_integrity_gate
        (st : State) (env : Env) (id actor : string) (notes : option string)
        (record : ChainOfCustody) (stored : bytes) :
  actor <> EmptyString ->
  findByFileId (db st) id = Some record ->
  status record = Active ->
  Disk.readFile (disk st) (filePath record) = Some stored ->
  hex_of_bytes (createHash node "sha256" stored) <> checksum record ->
  get_download node {| dl_fileId := id; dl_userId := Some actor; dl_notes := notes |}
               env st
  = (st, Errors.IntegrityViolation).
Proof.
  intros Hactor Hfind Hactive Hread Hne.
  unfold get_download; simpl.
  destruct actor as [|c u]; [congruence|].
  rewrite Hfind, Hactive; simpl.
  unfold Disk.existsSync. rewrite Hread; simpl.
  now rewrite (verify_mismatch _ _ _ _ Hread Hne).
Qed.

(** The in-memory server creates every record with status active and no
    handler of it writes the status. *)
Lemma simple_server_all_active (sst : SimpleServer.State) :
  Reach.simple_reachable node sst ->
  forall (id : string) (file : FileSummary),
    SimpleServer.map_get (SimpleServer.files sst) id = Some file ->
    s_status file = Active.
Proof.
  induction 1 as [disk0 | st st' Hreach IH Hstep]; simpl.
  - discriminate.
  - destruct Hstep as [rq env st | rq env st | rq env st | st disk']; simpl.
    + unfold SimpleServer.post_upload, SimpleServer.upload_handler; simpl.
      destruct (up_file rq) as [f|]; simpl; [|exact IH].
      destruct (up_userId rq) as [[|c u]|]; simpl; try exact IH.
      destruct (SimpleServer.calculateFileHash _ _ _); simpl; [|exact IH].
      intros id file. destruct (String.eqb_spec id (randomUUID env)) as [->|Hne].
      * rewrite map_get_set_same. now intros [= <-].
      * rewrite map_get_set_other by assumption. apply IH.
    + unfold SimpleServer.post_move.
      destruct (mv_fileId rq) as [[|c1 f]|]; simpl; try exact IH.
      destruct (mv_userId rq) as [[|c2 u]|]; simpl; try exact IH.
      destruct (mv_newLocation rq) as [[|c3 l]|]; simpl; try exact IH.
      destruct (SimpleServer.map_get (SimpleServer.files st) (String c1 f))
        as [file0|] eqn:E; simpl; [|exact IH].
      intros id file. destruct (String.eqb_spec id (String c1 f)) as [->|Hne].
      * rewrite map_get_set_same. intros [= <-]. simpl. exact (IH _ _ E).
      * rewrite map_get_set_other by assumption. apply IH.
    + unfold SimpleServer.get_download.
      destruct (dl_userId rq) as [[|c u]|]; simpl; try exact IH.
      destruct (SimpleServer.map_get _ _); simpl; [|exact IH].
      destruct (Disk.readFile _ _); simpl; exact IH.
    + exact IH.
Qed.

(** C3. In routes/move.js and routes/download.js a record whose status is
    not active is refused before anything else is looked at: both handlers
    answer 400 "Cannot move/download file with status: ..." and leave the
    state (events, currentLocation, status, bytes) as it was, whatever the
    other inputs are.  The in-memory server has no such check and needs
    none: every record it can hold is active. *)
Theorem status_gate
        (st : State) (env : Env) (id actor loc : string)
        (mnotes dnotes : option string) (record : ChainOfCustody) :
  id <> EmptyString -> actor <> EmptyString -> loc <> EmptyString ->
  findByFileId (db st) id = Some record ->
  status record <> Active ->
  post_move node {| mv_fileId := Some id; mv_userId := Some actor;
                    mv_newLocation := Some loc; mv_notes := mnotes |} env st
  = (st, Errors.InvalidState "move" (status record))
  /\ get_download node {| dl_fileId := id; dl_userId := Some actor;
                          dl_notes := dnotes |} env st
     = (st, Errors.InvalidState "download" (status record))
  /\ (forall sst : SimpleServer.State,
         Reach.simple_reachable node sst ->
         forall (sid : string) (file : FileSummary),
           SimpleServer.map_get (SimpleServer.files sst) sid = Some file ->
           s_status file = Active).
Proof.
  intros Hid Hactor Hloc Hfind Hstatus.
  assert (E : status_eqb (status record) Active = false).
  { destruct (status_eqb (status record) Active) eqn:E; [|reflexivity].
    apply status_eqb_eq in E. contradiction. }
  split; [|split].
  - unfold post_move; simpl.
    destruct id as [|c1 f]; [congruence|].
    destruct actor as [|c2 u]; [congruence|].
    destruct loc as [|c3 l]; [congruence|].
    now rewrite Hfind, E.
  - unfold get_download; simpl.
    destruct actor as [|c2 u]; [congruence|].
    now rewrite Hfind, E.
  - exact simple_server_all_active.
Qed.


End WithRuntime.
(** C2 at Scenario B: ingest, overwrite the stored bytes, retrieve. *)
Lemma download_integrity_gate_witness :
  get_download Sample.node (Scenario.download_by Scenario.file1 "u3")
               Scenario.later Scenario.tampered
  = (Scenario.tampered, Errors.IntegrityViolation).
Proof.
  eapply (@download_integrity_gate Sample.node Scenario.tampered Scenario.later
            Scenario.file1 "u3" None).
  - discriminate.
  - vm_compute. reflexivity.
  - reflexivity.
  - vm_compute. reflexivity.
  - vm_compute. discriminate.
Defined.

(** C3 at Scenario C: the ingested record archived, then relocate and
    retrieve. *)
Lemma status_gate_witness :
  post_move Sample.node (Scenario.move_to Scenario.file1 "u2" "archive")
            Scenario.later Scenario.shelved
  = (Scenario.shelved, Errors.InvalidState "move" Archived)
  /\ get_download Sample.node (Scenario.download_by Scenario.file1 "u2")
                  Scenario.later Scenario.shelved
     = (Scenario.shelved, Errors.InvalidState "download" Archived)
  /\ (forall sst : SimpleServer.State,
         Reach.simple_reachable Sample.node sst ->
         forall (sid : string) (file : FileSummary),
           SimpleServer.map_get (SimpleServer.files sst) sid = Some file ->
           s_status file = Active).
Proof.
  apply (@status_gate Sample.node Scenario.shelved Scenario.later
           Scenario.file1 "u2" "archive" None None
           (set_status Scenario.ingested_record Archived)).
  - discriminate.
  - discriminate.
  - discriminate.
  - vm_compute. reflexivity.
  - discriminate.
Defined.



(** The download of simple-server.js has neither gate: on the same
    overwritten bytes it appends the download event and streams them. *)
Example simple_download_streams_altered_bytes :
  let result := SimpleServer.get_download (Scenario.download_by Scenario.file1 "u3")
                                          Scenario.later Scenario.simple_tampered in
  snd result
  = FileStream {| contentDisposition := attachment "a.txt";
                  contentType := "text/plain";
                  contentLength := None;
                  xFileId := Scenario.file1;
                  xFileChecksum :=
                    hex_of_bytes (SHA256.sha256 (utf8 "original evidence")) |}
               (utf8 "altered evidence")
  /\ List.map action (SimpleServer.chain_of (fst result) Scenario.file1)
     = [Upload; Download].
Proof. vm_compute. split; reflexivity. Qed.

End Gates.

(* ================================================================= *)
(** ** Invariants of the custody chain *)

Module Invariants.
Import Model Http Routes ModelFacts MapFacts Custody.

Lemma last_placement_snoc (c : list CustodyEvent) (e : CustodyEvent) :
  last_placement (c ++ [e])
  = if places e then Some (location e) else last_placement c.
Proof.
  unfold last_placement. rewrite List.rev_app_distr. simpl.
  now destruct (places e).
Qed.



(** A property of a record's chain and current location that ingest
    establishes and every later append keeps holds in every reachable
    state, in both servers. *)
Section Preservation.
Variable node : Runtime.
Variable Q : list CustodyEvent -> string -> Prop.

Hypothesis Q_upload :
  forall e : CustodyEvent,
    action e = Upload -> location e = "uploads" -> Q [e] "uploads".
Hypothesis Q_move :
  forall (c : list CustodyEvent) (loc : string) (e : CustodyEvent),
    Q c loc -> action e = Move -> nonempty (location e) = true ->
    Q (c ++ [e]) (location e).
Hypothesis Q_stay :
  forall (c : list CustodyEvent) (loc : string) (e : CustodyEvent),
    Q c loc -> action e = Download \/ action e = Access -> location e = loc ->
    Q (c ++ [e]) loc.

Let P (d : ChainOfCustody) : Prop := Q (custodyChain d) (currentLocation d).

Lemma P_stay (r : ChainOfCustody) (e : CustodyEvent) :
  P r -> action e = Download \/ action e = Access ->
  location e = currentLocation r -> P (addCustodyEvent r e).
Proof.
  intros Hr Ha Hl. unfold P, addCustodyEvent; simpl.
  rewrite Hl. destruct (nonempty (currentLocation r)); now apply Q_stay.
Qed.

Lemma saved_keeps (up : bool) (t : Z) (db db' : Collection) (d : ChainOfCustody) :
  List.Forall P db -> P d -> save up t db d = inl db' -> List.Forall P db'.
Proof.
  intros Hdb Hd Hsave. rewrite (save_inl _ _ _ _ _ Hsave).
  apply Forall_replace; [exact Hdb | exact Hd].
Qed.

Lemma upload_keeps (rq : UploadRequest) (env : Env) (st : State) :
  List.Forall P (db st) -> List.Forall P (db (fst (post_upload node rq env st))).
Proof.
  intros Hdb. unfold post_upload, upload_handler; simpl.
  destruct (up_file rq) as [f|]; simpl; [|exact Hdb].
  destruct (up_userId rq) as [[|c u]|]; simpl; try exact Hdb.
  destruct (calculateChecksum _ _ _) as [sum|e]; simpl; [|exact Hdb].
  unfold save_new.
  destruct (negb (schema_valid _)); simpl; [exact Hdb|].
  destruct (negb (dbReachable env 0)); simpl; [exact Hdb|].
  destruct (findByFileId _ _); simpl; [exact Hdb|].
  apply List.Forall_app; split; [exact Hdb|].
  constructor; [|constructor]. unfold P; simpl. now apply Q_upload.
Qed.

Lemma move_keeps (rq : MoveRequest) (env : Env) (st : State) :
  List.Forall P (db st) -> List.Forall P (db (fst (post_move node rq env st))).
Proof.
  intros Hdb. unfold post_move.
  destruct (mv_fileId rq) as [[|c1 f]|]; simpl; try exact Hdb.
  destruct (mv_userId rq) as [[|c2 u]|]; simpl; try exact Hdb.
  destruct (mv_newLocation rq) as [[|c3 l]|]; simpl; try exact Hdb.
  destruct (findByFileId (db st) (String c1 f)) as [record|] eqn:Hfind;
    simpl; [|exact Hdb].
  destruct (negb (status_eqb (status record) Active)); simpl; [exact Hdb|].
  destruct (negb (Disk.existsSync _ _)); simpl; [exact Hdb|].
  destruct (ensure_directory _ _ _ _); simpl; [exact Hdb|].
  destruct (Disk.renameSync _ _ _ _ _); simpl; [|exact Hdb].
  match goal with
  | |- context [save _ _ (db st) ?d] =>
      assert (Hd : P d);
      [ unfold P, addCustodyEvent; simpl;
        match goal with
        | |- Q (_ ++ [?e]) _ =>
            apply (Q_move (custodyChain record) (currentLocation record) e)
        end;
        [ apply (proj1 (List.Forall_forall P (db st)) Hdb), (find_In _ _ _ Hfind)
        | reflexivity | reflexivity ]
      | destruct (save (dbReachable env 0) (savedAt env 0) (db st) d) as [db1|e1] eqn:S1 ]
  end; simpl; [|exact Hdb].
  pose proof (saved_keeps _ _ _ _ _ Hdb Hd S1) as Hdb1.
  match goal with
  | |- context [save _ _ db1 ?d] =>
      destruct (save (dbReachable env 1) (savedAt env 1) db1 d) as [db2|e2] eqn:S2
  end; simpl; [|exact Hdb1].
  eapply saved_keeps; [exact Hdb1 | | exact S2]. exact Hd.
Qed.

Lemma download_keeps (rq : DownloadRequest) (env : Env) (st : State) :
  List.Forall P (db st) -> List.Forall P (db (fst (get_download node rq env st))).
Proof.
  intros Hdb. unfold get_download.
  destruct (dl_userId rq) as [[|c u]|]; simpl; try exact Hdb.
  destruct (findByFileId (db st) (dl_fileId rq)) as [record|] eqn:Hfind;
    simpl; [|exact Hdb].
  destruct (negb (status_eqb (status record) Active)); simpl; [exact Hdb|].
  destruct (negb (Disk.existsSync _ _)); simpl; [exact Hdb|].
  destruct (verifyFileIntegrity _ _ _ _) as [[|]|e]; simpl; try exact Hdb.
  match goal with
  | |- context [save _ _ (db st) ?d] =>
      destruct (save (dbReachable env 0) (savedAt env 0) (db st) d) as [db1|e1] eqn:S1
  end; simpl; [|exact Hdb].
  assert (Hdb1 : List.Forall P db1).
  { apply (saved_keeps _ _ _ _ _ Hdb) in S1; [exact S1|].
    apply P_stay; [|left|]; try reflexivity.
    apply (proj1 (List.Forall_forall P (db st)) Hdb), (find_In _ _ _ Hfind). }
  destruct (Disk.readFile _ _); exact Hdb1.
Qed.

Lemma access_log_keeps (rq : AccessRequest) (env : Env) (st : State) :
  List.Forall P (db st) -> List.Forall P (db (fst (post_access_log rq env st))).
Proof.
  intros Hdb. unfold post_access_log.
  destruct (ac_fileId rq) as [[|c1 f]|]; simpl; try exact Hdb.
  destruct (ac_userId rq) as [[|c2 u]|]; simpl; try exact Hdb.
  destruct (findByFileId (db st) (String c1 f)) as [record|] eqn:Hfind;
    simpl; [|exact Hdb].
  match goal with
  | |- context [save _ _ (db st) ?d] =>
      destruct (save (dbReachable env 0) (savedAt env 0) (db st) d) as [db1|e1] eqn:S1
  end; simpl; [|exact Hdb].
  apply (saved_keeps _ _ _ _ _ Hdb) in S1; [exact S1|].
  apply P_stay; [|right|]; try reflexivity.
  apply (proj1 (List.Forall_forall P (db st)) Hdb), (find_In _ _ _ Hfind).
Qed.

Lemma reachable_keeps (st : State) :
  Reach.reachable node st -> List.Forall P (db st).
Proof.
  induction 1 as [disk0 | st st' Hreach IH Hstep]; simpl; [constructor|].
  destruct Hstep as [rq env st | rq env st | rq env st | rq env st
                     | st disk' | st id s].
  - now apply upload_keeps.
  - now apply move_keeps.
  - now apply download_keeps.
  - now apply access_log_keeps.
  - exact IH.
  - simpl. unfold Reach.write_status. apply List.Forall_map.
    revert IH. apply List.Forall_impl. intros d Hd.
    destruct (String.eqb (fileId d) id); exact Hd.
Qed.

(** The same for the two Maps of simple-server.js. *)
Let PS (sst : SimpleServer.State) : Prop :=
  forall (id : string) (file : FileSummary),
    SimpleServer.map_get (SimpleServer.files sst) id = Some file ->
    Q (SimpleServer.chain_of sst id) (s_currentLocation file).

Lemma chain_of_set_same (sst : SimpleServer.State) files' disk' id c :
  SimpleServer.chain_of
    {| SimpleServer.files := files';
       SimpleServer.custodyChain := SimpleServer.map_set (SimpleServer.custodyChain sst) id c;
       SimpleServer.disk := disk' |} id = c.
Proof. unfold SimpleServer.chain_of; simpl. now rewrite map_get_set_same. Qed.

Lemma chain_of_set_other (sst : SimpleServer.State) files' disk' id id' c :
  id' <> id ->
  SimpleServer.chain_of
    {| SimpleServer.files := files';
       SimpleServer.custodyChain := SimpleServer.map_set (SimpleServer.custodyChain sst) id c;
       SimpleServer.disk := disk' |} id' = SimpleServer.chain_of sst id'.
Proof.
  intros Hne. unfold SimpleServer.chain_of; simpl.
  now rewrite map_get_set_other.
Qed.

Lemma simple_reachable_keeps (sst : SimpleServer.State) :
  Reach.simple_reachable node sst -> PS sst.
Proof.
  induction 1 as [disk0 | st st' Hreach IH Hstep]; unfold PS in *; simpl.
  - discriminate.
  - destruct Hstep as [rq env st | rq env st | rq env st | st disk']; simpl.
    + unfold SimpleServer.post_upload, SimpleServer.upload_handler; simpl.
      destruct (up_file rq) as [f|]; simpl; [|exact IH].
      destruct (up_userId rq) as [[|c u]|]; simpl; try exact IH.
      destruct (SimpleServer.calculateFileHash _ _ _); simpl; [|exact IH].
      intros id file. destruct (String.eqb_spec id (randomUUID env)) as [->|Hne].
      * rewrite map_get_set_same, chain_of_set_same. intros [= <-]; simpl.
        now apply Q_upload.
      * rewrite map_get_set_other, chain_of_set_other by assumption. apply IH.
    + unfold SimpleServer.post_move.
      destruct (mv_fileId rq) as [[|c1 f]|]; simpl; try exact IH.
      destruct (mv_userId rq) as [[|c2 u]|]; simpl; try exact IH.
      destruct (mv_newLocation rq) as [[|c3 l]|]; simpl; try exact IH.
      destruct (SimpleServer.map_get (SimpleServer.files st) (String c1 f))
        as [file0|] eqn:E; simpl; [|exact IH].
      intros id file. destruct (String.eqb_spec id (String c1 f)) as [->|Hne].
      * rewrite map_get_set_same, chain_of_set_same. intros [= <-]; simpl.
        match goal with
        | |- Q (_ ++ [?e]) _ => apply (Q_move _ _ e (IH _ _ E))
        end; reflexivity.
      * rewrite map_get_set_other, chain_of_set_other by assumption. apply IH.
    + unfold SimpleServer.get_download.
      destruct (dl_userId rq) as [[|c u]|]; simpl; try exact IH.
      destruct (SimpleServer.map_get (SimpleServer.files st) (dl_fileId rq))
        as [file0|] eqn:E; simpl; [|exact IH].
      destruct (Disk.readFile _ _); simpl; [|exact IH].
      intros id file. destruct (String.eqb_spec id (dl_fileId rq)) as [->|Hne].
      * rewrite chain_of_set_same. simpl. rewrite E. intros [= <-].
        apply Q_stay; [apply (IH _ _ E) | now left | reflexivity].
      * rewrite chain_of_set_other by assumption. apply IH.
    + exact IH.
Qed.

End Preservation.

(** Every stored document satisfies the schema: a save writes only what
    passed the validators. *)
Section Validity.
Variable node : Runtime.

Let V (d : ChainOfCustody) : Prop := schema_valid d = true.

Lemma save_keeps_valid (up : bool) (t : Z) (db db' : Collection) (d : ChainOfCustody) :
  List.Forall V db -> save up t db d = inl db' -> List.Forall V db'.
Proof.
  intros Hdb Hsave. pose proof Hsave as Hsave'. revert Hsave'.
  unfold save. destruct (schema_valid d) eqn:Hv; simpl; [|discriminate].
  intros _. rewrite (save_inl _ _ _ _ _ Hsave).
  apply Forall_replace; [exact Hdb | exact Hv].
Qed.

Lemma save_new_keeps_valid (up : bool) (db db' : Collection) (d : ChainOfCustody) :
  List.Forall V db -> save_new up db d = inl db' -> List.Forall V db'.
Proof.
  intros Hdb. unfold save_new.
  destruct (schema_valid d) eqn:Hv; simpl; [|discriminate].
  destruct up; simpl; [|discriminate].
  destruct (findByFileId db (fileId d)); [discriminate|].
  intros [= <-]. apply List.Forall_app; split; [exact Hdb|].
  constructor; [exact Hv | constructor].
Qed.

Ltac branches :=
  repeat match goal with
         | |- context [match ?x with _ => _ end] =>
             destruct x eqn:?; simpl; try assumption
         end.

Lemma reachable_schema_valid (st : State) :
  Reach.reachable node st -> List.Forall V (db st).
Proof.
  induction 1 as [disk0 | st st' Hreach IH Hstep]; simpl; [constructor|].
  destruct Hstep as [rq env st | rq env st | rq env st | rq env st
                     | st disk' | st id s]; simpl.
  - unfold post_upload, upload_handler, upload_catch; simpl. branches.
    eapply save_new_keeps_valid; eassumption.
  - unfold post_move. branches.
    + eapply save_keeps_valid; [|eassumption].
      eapply save_keeps_valid; eassumption.
    + eapply save_keeps_valid; eassumption.
  - unfold get_download. branches; eapply save_keeps_valid; eassumption.
  - unfold post_access_log. branches. eapply save_keeps_valid; eassumption.
  - exact IH.
  - unfold Reach.write_status. apply List.Forall_map.
    revert IH. apply List.Forall_impl. intros d Hd.
    destruct (String.eqb (fileId d) id); exact Hd.
Qed.

End Validity.

(** The scenario states are reachable. *)
Lemma retrieved_reachable : Reach.reachable Sample.node Scenario.retrieved.
Proof.
  eapply Reach.reach_step; [|apply Reach.step_download].
  eapply Reach.reach_step; [|apply Reach.step_move].
  eapply Reach.reach_step; [|apply Reach.step_upload].
  apply Reach.reach_init.
Qed.

Lemma simple_relocated_reachable :
  Reach.simple_reachable Sample.node Scenario.simple_relocated.
Proof.
  eapply Reach.sreach_step; [|apply Reach.sstep_move].
  eapply Reach.sreach_step; [|apply Reach.sstep_upload].
  apply Reach.sreach_init.
Qed.

(** C4. In every state the routes can reach (ingest, relocate, retrieve,
    access log, with the disk and the status changing outside them), each
    record's currentLocation is the location of the most recent event of
    its chain whose action is upload or move; the same holds for the
    records of the in-memory server. *)
Theorem current_location_is_last_placement
        (node : Runtime) (st : State) (sst : SimpleServer.State) :
  Reach.reachable node st ->
  Reach.simple_reachable node sst ->
  (forall d : ChainOfCustody,
      List.In d (db st) ->
      last_placement (custodyChain d) = Some (currentLocation d))
  /\ (forall (id : string) (file : FileSummary),
         SimpleServer.map_get (SimpleServer.files sst) id = Some file ->
         last_placement (SimpleServer.chain_of sst id)
         = Some (s_currentLocation file)).
Proof.
  intros Hst Hsst.
  set (Q := fun (c : list CustodyEvent) (loc : string) =>
              last_placement c = Some loc).
  assert (Qu : forall e, action e = Upload -> location e = "uploads" ->
                         Q [e] "uploads").
  { intros e Ha Hl. unfold Q, last_placement, places; simpl.
    rewrite Ha; simpl. now rewrite Hl. }
  assert (Qm : forall c loc e, Q c loc -> action e = Move ->
                               nonempty (location e) = true ->
                               Q (c ++ [e]) (location e)).
  { intros c loc e _ Ha _. unfold Q. rewrite last_placement_snoc.
    unfold places. now rewrite Ha. }
  assert (Qs : forall c loc e, Q c loc ->
                               action e = Download \/ action e = Access ->
                               location e = loc -> Q (c ++ [e]) loc).
  { intros c loc e Hc Ha _. unfold Q. rewrite last_placement_snoc.
    unfold places. destruct Ha as [-> | ->]; exact Hc. }
  split.
  - intros d Hd.
    exact (proj1 (List.Forall_forall _ _)
                 (reachable_keeps node Q Qu Qm Qs st Hst) d Hd).
  - exact (simple_reachable_keeps node Q Qu Qm Qs sst Hsst).
Qed.

(** C4 at the end of Scenario A, on both servers. *)
Lemma current_location_is_last_placement_witness :
  (forall d : ChainOfCustody,
      List.In d (db Scenario.retrieved) ->
      last_placement (custodyChain d) = Some (currentLocation d))
  /\ (forall (id : string) (file : FileSummary),
         SimpleServer.map_get (SimpleServer.files Scenario.simple_relocated) id
         = Some file ->
         last_placement (SimpleServer.chain_of Scenario.simple_relocated id)
         = Some (s_currentLocation file)).
Proof.
  apply (current_location_is_last_placement Sample.node).
  - exact retrieved_reachable.
  - exact simple_relocated_reachable.
Defined.



(** Scenario A of the spec, run on the routes. *)
Example scenario_A :
  option_map (fun r => (List.map action (custodyChain r), currentLocation r))
             (findByFileId (db Scenario.relocated) Scenario.file1)
  = Some ([Upload; Move], "archive")
  /\ option_map (fun r => (List.map action (custodyChain r), currentLocation r))
                (findByFileId (db Scenario.retrieved) Scenario.file1)
     = Some ([Upload; Move; Download], "archive").
Proof. vm_compute. split; reflexivity. Qed.

Example ingest_stores_record :
  db Scenario.ingested = [Scenario.ingested_record].
Proof. vm_compute. reflexivity. Qed.

End Invariants.

(* ================================================================= *)
(** ** LogAccess and the failure paths of Ingest *)

Module Lifecycle.
Import Model Http Routes ModelFacts.

(** C8. POST /api/download/access-log on an existing record appends
    exactly one access event (location = the record's currentLocation) and
    answers 200.  The handler reads neither the status nor the disk: the
    statement has no hypothesis on either, so it holds for active, archived
    and deleted records, with the file present, altered or missing.  Its
    preconditions are the two request fields and the record; the stored
    record satisfies the schema and the save reaches the database. *)
Theorem access_log_appends_unconditionally
        (st : State) (env : Env) (id actor : string) (notes : option string)
        (record : ChainOfCustody) :
  let event :=
    {| action := Access; timestamp := now env; userId := actor;
       location := currentLocation record;
       ipAddress := ip env; userAgent := agent env;
       Model.notes := Some (or_else notes "File accessed") |} in
  id <> EmptyString -> actor <> EmptyString ->
  findByFileId (db st) id = Some record ->
  schema_valid record = true ->
  dbReachable env 0%nat = true ->
  exists st' : State,
    post_access_log {| ac_fileId := Some id; ac_userId := Some actor;
                       ac_notes := notes |} env st
    = (st', Json 200 (AccessLogged id (sentAt env)))
    /\ disk st' = disk st
    /\ exists logged : ChainOfCustody,
         findByFileId (db st') id = Some logged
         /\ custodyChain logged = custodyChain record ++ [event]
         /\ status logged = status record
         /\ currentLocation logged = currentLocation record.
Proof.
  intros event Hid Hactor Hfind Hvalid Hdb.
  pose proof (find_fileId _ _ _ Hfind) as Hfid.
  assert (Hcur : nonempty (currentLocation record) = true).
  { revert Hvalid. unfold schema_valid. intros Hv.
    repeat (apply andb_prop in Hv; destruct Hv as [Hv ?]). assumption. }
  assert (Hv1 : schema_valid (addCustodyEvent record event) = true).
  { apply schema_valid_add; [exact Hvalid|].
    unfold event_valid, event; simpl.
    now rewrite (nonempty_true _ Hactor), Hcur. }
  unfold post_access_log; simpl.
  destruct id as [|c1 f]; [congruence|].
  destruct actor as [|c2 u]; [congruence|].
  rewrite Hfind. fold event.
  rewrite Hdb, (save_ok _ _ _ Hv1).
  eexists; split; [reflexivity|]. simpl. split; [reflexivity|].
  eexists; split.
  - apply find_replace_at with (r := record); [exact Hfid | exact Hfind].
  - simpl. rewrite Hcur. auto.
Qed.

(** When the try block of POST /api/upload throws (the checksum stream or
    the save), the catch block removes the stored file and no record is
    added. *)
Lemma upload_exception_cleans_up
      (node : Runtime) (rq : UploadRequest) (env : Env) (st st' : State)
      (f : MulterFile) (e : Exception) :
  up_file rq = Some f ->
  post_upload node rq env st = (st', Json 500 (Error "Upload failed" (Some e))) ->
  db st' = db st /\ Disk.existsSync (disk st') (path f) = false.
Proof.
  intros Hf. unfold post_upload, upload_handler; simpl. rewrite Hf.
  assert (Hgone : forall fs p, Disk.existsSync (Disk.unlinkSync fs p) p = false).
  { intros fs p. unfold Disk.existsSync.
    induction fs as [|[q b] fs IH]; simpl; [reflexivity|].
    destruct (String.eqb q p) eqn:E; [exact IH|]. simpl. now rewrite E. }
  assert (Hcatch : forall s0 e0,
             upload_catch s0 f e0 = (st', Json 500 (Error "Upload failed" (Some e))) ->
             db st' = db s0 /\ Disk.existsSync (disk st') (path f) = false).
  { intros s0 e0. unfold upload_catch.
    destruct (Disk.existsSync (disk s0) (path f)) eqn:E; intros [= <- _]; simpl;
      split; auto. }
  destruct (up_userId rq) as [[|c u]|]; try discriminate.
  destruct (calculateChecksum _ _ _);
    [|intros H; apply Hcatch in H; exact H].
  destruct (save_new _ _ _);
    [discriminate | intros H; apply Hcatch in H; exact H].
Qed.

(** What the handler does when the actor is missing: 400, with the bytes
    multer wrote still on disk. *)
Lemma upload_without_actor
      (node : Runtime) (rq : UploadRequest) (env : Env) (st : State)
      (f : MulterFile) :
  up_file rq = Some f ->
  truthy (up_userId rq) = false ->
  post_upload node rq env st
  = ({| db := db st; disk := Disk.writeFile (disk st) (path f) (content f) |},
     Json 400 (Error "User ID is required" None)).
Proof.
  intros Hf Hu. unfold post_upload, upload_handler; simpl. rewrite Hf; simpl.
  destruct (up_userId rq) as [[|c u]|]; simpl in *; congruence.
Qed.

End Lifecycle.

Module LifecycleExamples.
Import Model Http Routes.

(** C8 at an archived record whose file is no longer on disk. *)
Lemma access_log_appends_unconditionally_witness :
  exists st' : State,
    post_access_log (Scenario.access_by Scenario.file1 "auditor")
                    Scenario.later Scenario.shelved_and_lost
    = (st', Json 200 (AccessLogged Scenario.file1 1700000060000))
    /\ disk st' = disk Scenario.shelved_and_lost
    /\ exists logged : ChainOfCustody,
         findByFileId (db st') Scenario.file1 = Some logged
         /\ custodyChain logged
            = custodyChain Scenario.ingested_record
              ++ [ {| action := Access; timestamp := 1700000060000;
                      userId := "auditor"; location := "uploads";
                      ipAddress := Some "127.0.0.1"; userAgent := Some "curl";
                      notes := Some "File accessed" |} ]
         /\ status logged = Archived
         /\ currentLocation logged = "uploads".
Proof.
  apply (Lifecycle.access_log_appends_unconditionally
           Scenario.shelved_and_lost Scenario.later Scenario.file1 "auditor" None
           (set_status Scenario.ingested_record Archived)).
  - discriminate.
  - discriminate.
  - vm_compute. reflexivity.
  - vm_compute. reflexivity.
  - reflexivity.
Defined.

(** C10 at a request the handler rejects after multer stored the file: the
    actor is missing, the reply is 400, no record exists and the uploaded
    bytes stay on disk. *)
Theorem upload_without_actor_leaves_bytes :
  let result := post_upload Sample.node (Scenario.upload_by None Scenario.evidence)
                            (Scenario.at_time 1700000000000 Scenario.file1 true)
                            Scenario.empty in
  snd result = Json 400 (Error "User ID is required" None)
  /\ db (fst result) = []
  /\ Disk.readFile (disk (fst result)) Scenario.stored_path
     = Some (utf8 "original evidence").
Proof. vm_compute. repeat split; reflexivity. Qed.

(** The same request with the actor given and the database down: the catch
    block removes the file. *)
Example upload_save_failure_removes_bytes :
  let result := post_upload Sample.node
                            (Scenario.upload_by (Some "u1") Scenario.evidence)
                            (Scenario.at_time 1700000000000 Scenario.file1 false)
                            Scenario.empty in
  snd result = Json 500 (Error "Upload failed" (Some (SaveFailed DbUnavailable)))
  /\ db (fst result) = []
  /\ Disk.readFile (disk (fst result)) Scenario.stored_path = None.
Proof. vm_compute. repeat split; reflexivity. Qed.

End LifecycleExamples.

(* ================================================================= *)
(** ** The hasher: verification and path-derived identity *)

Module Hasher.
Import ModelFacts.

Lemma hex_of_byte_lower (b : Byte.byte) : toLowerCase (hex_of_byte b) = hex_of_byte b.
Proof. destruct b; reflexivity. Qed.

Lemma toLowerCase_app (s t : string) :
  toLowerCase (s ++ t) = (toLowerCase s ++ toLowerCase t)%string.
Proof. induction s as [|c s IH]; simpl; [reflexivity | now rewrite IH]. Qed.

(** A hex digest is already in lower case. *)
Lemma hex_of_bytes_lower (bs : bytes) : toLowerCase (hex_of_bytes bs) = hex_of_bytes bs.
Proof.
  induction bs as [|b bs IH]; [reflexivity|].
  change (hex_of_bytes (b :: bs)) with (hex_of_byte b ++ hex_of_bytes bs)%string.
  now rewrite toLowerCase_app, hex_of_byte_lower, IH.
Qed.

Section WithRuntime.
Variable node : Runtime.

(** C6, as the code has it.  [HashGenerator.verifyFileIntegrity] compares
    without regard to case: on a readable file and a supported algorithm it
    returns true exactly when the hex digest equals the expected string in
    lower case.  The [verifyFileIntegrity] of routes/download.js hashes with
    sha256 and compares the digest with the expected string as it is
    given. *)
Theorem verify_is_lowercase_comparison
        (fs : Disk.FS) (filePath expected algorithm : string) (stored : bytes) :
  HashGenerator.supported algorithm = true ->
  Disk.readFile fs filePath = Some stored ->
  (HashGenerator.verifyFileIntegrity node fs filePath expected algorithm = true
   <-> hex_of_bytes (createHash node algorithm stored) = toLowerCase expected)
  /\ Routes.verifyFileIntegrity node fs filePath expected
     = inl (String.eqb (hex_of_bytes (createHash node "sha256" stored)) expected).
Proof.
  intros Hsup Hread. split.
  - unfold HashGenerator.verifyFileIntegrity, HashGenerator.fileHash.
    rewrite Hsup, Hread; simpl.
    rewrite hex_of_bytes_lower. apply String.eqb_eq.
  - unfold Routes.verifyFileIntegrity. now rewrite Hread.
Qed.

(** [HashGenerator.verifyFileIntegrity] answers false for an unsupported
    algorithm and for an unreadable file. *)
Lemma verify_false_outside (fs : Disk.FS) (filePath expected algorithm : string) :
  HashGenerator.supported algorithm = false \/ Disk.readFile fs filePath = None ->
  HashGenerator.verifyFileIntegrity node fs filePath expected algorithm = false.
Proof.
  unfold HashGenerator.verifyFileIntegrity, HashGenerator.fileHash.
  intros [-> | ->]; simpl; [reflexivity|].
  now destruct (negb (HashGenerator.supported algorithm)).
Qed.

End WithRuntime.

(** C6 as stated fails on routes/download.js: the upper-case digest of the
    same bytes equals the digest once lowered, yet the route's
    [verifyFileIntegrity] answers false. *)
Lemma download_verify_is_case_sensitive :
  Scenario.abc_digest_upper
  = toUpperCase (hex_of_bytes (createHash Sample.node "sha256" (utf8 "abc")))
  /\ hex_of_bytes (createHash Sample.node "sha256" (utf8 "abc"))
     = toLowerCase Scenario.abc_digest_upper
  /\ Routes.verifyFileIntegrity Sample.node Scenario.abc_disk Scenario.cli_path
                                Scenario.abc_digest_upper
     = inl false
  /\ HashGenerator.verifyFileIntegrity Sample.node Scenario.abc_disk
       Scenario.cli_path Scenario.abc_digest_upper "sha256" = true.
Proof. vm_compute. repeat split; reflexivity. Qed.

(** C6 at the file "abc", its digest in upper case and the algorithm name
    in upper case. *)
Lemma verify_is_lowercase_comparison_witness :
  (HashGenerator.verifyFileIntegrity Sample.node Scenario.abc_disk
     Scenario.cli_path Scenario.abc_digest_upper "SHA256" = true
   <-> hex_of_bytes (createHash Sample.node "SHA256" (utf8 "abc"))
       = toLowerCase Scenario.abc_digest_upper)
  /\ Routes.verifyFileIntegrity Sample.node Scenario.abc_disk Scenario.cli_path
                                Scenario.abc_digest_upper
     = inl (String.eqb (hex_of_bytes (createHash Sample.node "sha256" (utf8 "abc")))
                       Scenario.abc_digest_upper).
Proof.
  apply (verify_is_lowercase_comparison Sample.node Scenario.abc_disk
           Scenario.cli_path Scenario.abc_digest_upper "SHA256" (utf8 "abc")).
  - reflexivity.
  - reflexivity.
Defined.

(* ----------------------------------------------------------------- *)
(** Identity from the path *)

Import HashGenerator.

Lemma lookup_assign_same (m : list (string * FileEntry)) (k : string) (v : FileEntry) :
  lookup (assign m k v) k = Some v.
Proof.
  induction m as [|[k' v'] m IH]; simpl.
  - now rewrite String.eqb_refl.
  - destruct (String.eqb k' k) eqn:E; simpl.
    + now rewrite String.eqb_refl.
    + now rewrite E.
Qed.

Lemma keys_assign_present (m : list (string * FileEntry)) (k : string)
      (v x : FileEntry) :
  lookup m k = Some x -> List.map fst (assign m k v) = List.map fst m.
Proof.
  induction m as [|[k' v'] m IH]; simpl; [discriminate|].
  destruct (String.eqb_spec k' k) as [->|Hne]; simpl; [reflexivity|].
  intros H. now rewrite IH.
Qed.

Section Identity.
Variable node : Runtime.

Lemma track_appends (env : Env) (st : State) (p algorithm : string) (a : bytes) :
  supported algorithm = true ->
  Disk.readFile (disk st) p = Some a ->
  let digest := hex_of_bytes (createHash node algorithm a) in
  let entry :=
    {| id := hg_entryId env; timestamp := hg_now env; action := "hash_generated";
       hash := digest; algorithm := algorithm;
       location := path_dirname node p; user := hg_user env;
       workstation := hg_workstation env; notes := EmptyString |} in
  let after := fst (generateFileHash node env st p algorithm true) in
  snd (generateFileHash node env st p algorithm true) = inl digest
  /\ disk after = disk st
  /\ chain_at after (generateFileId node p)
     = chain_at st (generateFileId node p) ++ [entry]
  /\ lookup (files after) (generateFileId node p) <> None
  /\ (lookup (files st) (generateFileId node p) <> None ->
      List.map fst (files after) = List.map fst (files st)).
Proof.
  intros Hsup Hread digest entry after.
  assert (Hrun : generateFileHash node env st p algorithm true
                 = ({| files := assign (files st) (generateFileId node p)
                         {| fileId :=
                              match lookup (files st) (generateFileId node p) with
                              | Some f => fileId f
                              | None => generateFileId node p
                              end;
                            originalPath :=
                              match lookup (files st) (generateFileId node p) with
                              | Some f => originalPath f
                              | None => p
                              end;
                            fileName :=
                              match lookup (files st) (generateFileId node p) with
                              | Some f => fileName f
                              | None => path_basename node p
                              end;
                            fileSize :=
                              match lookup (files st) (generateFileId node p) with
                              | Some f => fileSize f
                              | None => Z.of_nat (List.length a)
                              end;
                            created :=
                              match lookup (files st) (generateFileId node p) with
                              | Some f => created f
                              | None => hg_birthtime env p
                              end;
                            custodyChain :=
                              chain_at st (generateFileId node p) ++ [entry];
                            lastModified := Some (hg_now env) |};
                      auditLog := auditLog st ++
                        [ {| a_id := hg_auditId env; a_timestamp := hg_now env;
                             a_action := "hash_generated";
                             a_fileId := generateFileId node p; a_filePath := p;
                             a_hash := digest; a_algorithm := algorithm;
                             a_notes := EmptyString |} ];
                      disk := disk st |}, inl digest)).
  { unfold generateFileHash, fileHash, addToCustodyChain, chain_at.
    rewrite Hsup, Hread; simpl.
    destruct (lookup (files st) (generateFileId node p)); reflexivity. }
  subst after. rewrite Hrun. simpl.
  split; [reflexivity|]. split; [reflexivity|]. split; [|split].
  - unfold chain_at at 1. simpl. now rewrite lookup_assign_same.
  - rewrite lookup_assign_same. discriminate.
  - destruct (lookup (files st) (generateFileId node p)) eqn:E.
    + intros _. eapply keys_assign_present. exact E.
    + intros H. now contradiction H.
Qed.

(** C7, as the code has it.  The HashGenerator utility keys a file by the
    md5 of its resolved path: paths that resolve alike get the same
    fileId, and when a file is tracked, replaced by another file at the
    same path (any bytes) and tracked again, both entries land in the one
    record stored under that fileId and no second record appears.  The
    upload routes do not do this: the fileId they reply with is the value
    of [crypto.randomUUID()]. *)
Theorem path_hash_identity_merges_histories
        (env1 env2 : Env) (st : State) (p algorithm : string) (a b : bytes)
        (disk2 : Disk.FS) :
  let fid := generateFileId node p in
  let first := generateFileHash node env1 st p algorithm true in
  let recreated :=
    {| files := files (fst first); auditLog := auditLog (fst first);
       disk := disk2 |} in
  let second := generateFileHash node env2 recreated p algorithm true in
  supported algorithm = true ->
  Disk.readFile (disk st) p = Some a ->
  Disk.readFile disk2 p = Some b ->
  (forall q : string,
      path_resolve node q = path_resolve node p -> generateFileId node q = fid)
  /\ List.map hash (chain_at (fst second) fid)
     = List.map hash (chain_at st fid)
       ++ [hex_of_bytes (createHash node algorithm a);
           hex_of_bytes (createHash node algorithm b)]
  /\ List.map fst (files (fst second)) = List.map fst (files (fst first))
  /\ (forall rq env s s' fileId name size checksum t,
         Routes.post_upload node rq env s
         = (s', Http.Json 201 (Http.Uploaded fileId name size checksum t)) ->
         fileId = randomUUID env)
  /\ (forall rq env s s' fileId name size checksum t,
         SimpleServer.post_upload node rq env s
         = (s', Http.Json 201 (Http.Uploaded fileId name size checksum t)) ->
         fileId = randomUUID env).
Proof.
  intros fid first recreated second Hsup Ha Hb.
  destruct (track_appends env1 st p algorithm a Hsup Ha)
    as (_ & _ & Hchain1 & Hsome1 & _).
  destruct (track_appends env2 recreated p algorithm b Hsup Hb)
    as (_ & _ & Hchain2 & _ & Hkeys2).
  split; [|split; [|split; [|split]]].
  - intros q Hq. unfold fid, generateFileId. now rewrite Hq.
  - fold second fid in Hchain2. rewrite Hchain2.
    unfold chain_at at 1. simpl files.
    fold (chain_at (fst first) fid). fold first fid in Hchain1. rewrite Hchain1.
    rewrite !List.map_app, <- List.app_assoc. reflexivity.
  - apply Hkeys2. exact Hsome1.
  - intros rq env s s' fileId name size checksum t.
    unfold Routes.post_upload, Routes.upload_handler, Routes.upload_catch; simpl.
    destruct (Routes.up_file rq); [|discriminate].
    destruct (Routes.up_userId rq) as [[|c u]|]; try discriminate.
    destruct (Routes.calculateChecksum _ _ _); [|discriminate].
    destruct (Model.save_new _ _ _); [|discriminate].
    now intros [= _ <- _ _ _ _].
  - intros rq env s s' fileId name size checksum t.
    unfold SimpleServer.post_upload, SimpleServer.upload_handler; simpl.
    destruct (Routes.up_file rq); [|discriminate].
    destruct (Routes.up_userId rq) as [[|c u]|]; try discriminate.
    destruct (SimpleServer.calculateFileHash _ _ _); [|discriminate].
    now intros [= _ <- _ _ _ _].
Qed.

End Identity.

(** C7 at one path tracked twice, with the file replaced in between. *)
Lemma path_hash_identity_merges_histories_witness :
  let node := Sample.node in
  let p := Scenario.cli_path in
  let fid := generateFileId node p in
  let first :=
    generateFileHash node (Scenario.cli_env 1700000000000 "e-1" "a-1")
                     Scenario.cli_start p "sha256" true in
  let recreated :=
    {| files := files (fst first); auditLog := auditLog (fst first);
       disk := [(p, utf8 "another file")] |} in
  let second :=
    generateFileHash node (Scenario.cli_env 1700000500000 "e-2" "a-2")
                     recreated p "sha256" true in
  (forall q : string,
      path_resolve node q = path_resolve node p -> generateFileId node q = fid)
  /\ List.map hash (chain_at (fst second) fid)
     = List.map hash (chain_at Scenario.cli_start fid)
       ++ [hex_of_bytes (createHash node "sha256" (utf8 "abc"));
           hex_of_bytes (createHash node "sha256" (utf8 "another file"))]
  /\ List.map fst (files (fst second)) = List.map fst (files (fst first))
  /\ (forall rq env s s' fileId name size checksum t,
         Routes.post_upload node rq env s
         = (s', Http.Json 201 (Http.Uploaded fileId name size checksum t)) ->
         fileId = randomUUID env)
  /\ (forall rq env s s' fileId name size checksum t,
         SimpleServer.post_upload node rq env s
         = (s', Http.Json 201 (Http.Uploaded fileId name size checksum t)) ->
         fileId = randomUUID env).
Proof.
  apply (path_hash_identity_merges_histories Sample.node
           (Scenario.cli_env 1700000000000 "e-1" "a-1")
           (Scenario.cli_env 1700000500000 "e-2" "a-2")
           Scenario.cli_start Scenario.cli_path "sha256"
           (utf8 "abc") (utf8 "another file")
           [(Scenario.cli_path, utf8 "another file")]).
  - reflexivity.
  - reflexivity.
  - reflexivity.
Defined.

(** The utility on that input: one record, keyed by the md5 of the path,
    carrying the digests of both files. *)
Example tracked_twice_one_record :
  let first :=
    generateFileHash Sample.node (Scenario.cli_env 1700000000000 "e-1" "a-1")
                     Scenario.cli_start Scenario.cli_path "sha256" true in
  let second :=
    generateFileHash Sample.node (Scenario.cli_env 1700000500000 "e-2" "a-2")
                     {| files := files (fst first); auditLog := auditLog (fst first);
                        disk := [(Scenario.cli_path, utf8 "another file")] |}
                     Scenario.cli_path "sha256" true in
  List.map (fun kv => (fst kv, List.map hash (custodyChain (snd kv))))
           (files (fst second))
  = [ (hex_of_bytes (MD5.md5 (utf8 "/srv/custody/evidence.txt")),
       [ "ba7816bf8f01cfea414140de5dae2223b00361a396177a9cb410ff61f20015ad";
         hex_of_bytes (SHA256.sha256 (utf8 "another file")) ]) ].
Proof. vm_compute. reflexivity. Qed.

(** C7 as stated fails on POST /api/upload: two different files stored at
    the same path (the first deleted in between) get the two identifiers
    the runtime generated, neither is the digest of the path, and their
    histories stay in two records. *)
Lemma upload_identity_is_not_path_derived :
  Routes.path Scenario.evidence2 = Routes.path Scenario.evidence
  /\ List.map Model.fileId (Routes.db Scenario.ingested_twice)
     = [Scenario.file1; Scenario.file2]
  /\ List.map (fun d => List.map Model.action (Model.custodyChain d))
              (Routes.db Scenario.ingested_twice)
     = [[Model.Upload]; [Model.Upload]]
  /\ Scenario.file1 <> Scenario.file2
  /\ Scenario.file1 <> generateFileId Sample.node Scenario.stored_path
  /\ Scenario.file2 <> generateFileId Sample.node Scenario.stored_path.
Proof. vm_compute. repeat split; try reflexivity; discriminate. Qed.

End Hasher.

(* ================================================================= *)
(** ** Pagination *)

Module PagingFacts.
Import Model Http Paging UploadList Pages.

(** Cutting a list into consecutive chunks of [n] and gluing them back. *)
Lemma chunks_concat {A : Type} (n : nat) (m : nat) (l : list A) :
  (0 < n)%nat -> (List.length l <= m * n)%nat ->
  List.concat (List.map (fun k => List.firstn n (List.skipn (k * n) l)) (List.seq 0 m))
  = l.
Proof.
  intros Hn. revert l. induction m as [|m IH]; intros l Hlen.
  - simpl in *. destruct l; [reflexivity | simpl in Hlen; lia].
  - cbn [List.seq List.map List.concat].
    rewrite <- List.seq_shift, List.map_map.
    rewrite (List.map_ext _ (fun k => List.firstn n (List.skipn (k * n) (List.skipn n l)))).
    + rewrite IH.
      * change (0 * n)%nat with 0%nat. apply List.firstn_skipn.
      * rewrite List.length_skipn. simpl in Hlen. lia.
    + intros k. rewrite List.skipn_skipn. do 2 f_equal. simpl. lia.
Qed.

Lemma ceil_div_covers (total n : Z) :
  0 <= total -> 1 <= n ->
  0 <= ceil_div total n /\ total <= ceil_div total n * n.
Proof.
  intros Ht Hn. unfold ceil_div.
  pose proof (Z.div_mod (- total) n ltac:(lia)) as Hdm.
  pose proof (Z.mod_pos_bound (- total) n ltac:(lia)) as Hb.
  nia.
Qed.

(** [slice(skip, skip + limit)] is [skip] then [limit] when both are
    non-negative. *)
Lemma js_slice_skip_limit {A : Type} (l : list A) (skip limit : Z) :
  0 <= skip -> 0 <= limit ->
  js_slice l skip (skip + limit)
  = List.firstn (Z.to_nat limit) (List.skipn (Z.to_nat skip) l).
Proof.
  intros Hs Hl. unfold js_slice.
  destruct (Z.ltb_spec skip 0); [lia|].
  destruct (Z.ltb_spec (skip + limit) 0); [lia|].
  set (len := Z.of_nat (List.length l)).
  destruct (Z.le_gt_cases skip len) as [Hle|Hgt].
  - rewrite (Z.min_l skip len) by lia.
    destruct (Z.le_gt_cases (skip + limit) len) as [Hle2|Hgt2].
    + rewrite Z.min_l by lia. f_equal. lia.
    + rewrite Z.min_r by lia.
      rewrite !List.firstn_all2; [reflexivity| |];
        rewrite List.length_skipn; unfold len in *; lia.
  - rewrite (Z.min_r skip len) by lia. rewrite Z.min_r by lia.
    rewrite Z.sub_diag. simpl.
    rewrite (List.skipn_all2 l); [now rewrite List.firstn_nil|].
    unfold len in *; lia.
Qed.

Lemma insert_sorted_perm (le : ChainOfCustody -> ChainOfCustody -> bool)
      (x : ChainOfCustody) (l : list ChainOfCustody) :
  Permutation (insert_sorted le x l) (x :: l).
Proof.
  induction l as [|y l IH]; simpl; [apply Permutation_refl|].
  destruct (le x y); [apply Permutation_refl|].
  eapply Permutation_trans; [apply perm_skip, IH | apply perm_swap].
Qed.

(** Sorting rearranges and neither drops nor repeats a record. *)
Lemma sort_by_perm (sortField : string) (sortOrder : Z) (l : list ChainOfCustody) :
  Permutation (sort_by sortField sortOrder l) l.
Proof.
  unfold sort_by. induction l as [|x l IH]; simpl; [apply Permutation_refl|].
  eapply Permutation_trans; [apply insert_sorted_perm | now apply perm_skip].
Qed.

Lemma page_numbers_as_seq {B : Type} (f : Z -> B) (m : Z) :
  List.map f (page_numbers m)
  = List.map (fun k => f (Z.of_nat k + 1)) (List.seq 0 (Z.to_nat m)).
Proof. unfold page_numbers. now rewrite List.map_map. Qed.

Lemma parse_or_given (p dflt : Z) : 1 <= p -> parse_or (Some p) dflt = p.
Proof. destruct p; simpl; try reflexivity; lia. Qed.

(** *** The order of a sort *)

Lemma value_compare_antisym (a b : Value) :
  value_compare b a = CompOpp (value_compare a b).
Proof.
  destruct a, b; simpl; try reflexivity;
    first [apply Z.compare_antisym | apply String.compare_antisym].
Qed.

Lemma string_compare_trans (a b c : string) :
  String.compare a b <> Gt -> String.compare b c <> Gt -> String.compare a c <> Gt.
Proof.
  intros Hab Hbc.
  destruct (String.compare a b) eqn:E1; [|clear Hab|congruence].
  - apply String.compare_eq_iff in E1. now subst.
  - destruct (String.compare b c) eqn:E2; [|clear Hbc|congruence].
    + apply String.compare_eq_iff in E2. subst. rewrite E1. discriminate.
    + change (String_as_OT.cmp a b = Lt) in E1.
      change (String_as_OT.cmp b c = Lt) in E2.
      apply String_as_OT.cmp_lt in E1, E2.
      pose proof (proj2 (String_as_OT.cmp_lt a c)
                        (String_as_OT.lt_trans _ _ _ E1 E2)) as E3.
      change (String.compare a c = Lt) in E3. rewrite E3. discriminate.
Qed.

Lemma value_compare_trans (a b c : Value) :
  value_compare a b <> Gt -> value_compare b c <> Gt -> value_compare a c <> Gt.
Proof.
  destruct a, b, c; cbn [value_compare rank]; rewrite ?Z.compare_le_iff;
    first [ apply string_compare_trans | lia ].
Qed.

Lemma sortOrder_cases (q : ListQuery) : sortOrder_of q = 1 \/ sortOrder_of q = -1.
Proof.
  unfold sortOrder_of. destruct (q_sortOrder q) as [s|]; [|now right].
  destruct (String.eqb s "asc"); [now left | now right].
Qed.

Section Order.
Variables (sortField : string) (sortOrder : Z).
Hypothesis one_way : sortOrder = 1 \/ sortOrder = -1.

Lemma in_order_total (a b : ChainOfCustody) :
  in_order sortField sortOrder a b = false ->
  in_order sortField sortOrder b a = true.
Proof.
  unfold in_order.
  rewrite (value_compare_antisym (field sortField a) (field sortField b)).
  destruct (value_compare (field sortField a) (field sortField b)); simpl;
    destruct one_way as [-> | ->]; cbv [Z.ltb Z.compare]; congruence.
Qed.

Lemma in_order_trans (a b c : ChainOfCustody) :
  in_order sortField sortOrder a b = true ->
  in_order sortField sortOrder b c = true ->
  in_order sortField sortOrder a c = true.
Proof.
  unfold in_order.
  pose proof (value_compare_trans (field sortField a) (field sortField b)
                                  (field sortField c)) as Hup.
  pose proof (value_compare_trans (field sortField c) (field sortField b)
                                  (field sortField a)) as Hdown.
  rewrite (value_compare_antisym (field sortField b) (field sortField c)),
          (value_compare_antisym (field sortField a) (field sortField b)),
          (value_compare_antisym (field sortField a) (field sortField c)) in Hdown.
  destruct (value_compare (field sortField a) (field sortField b)),
           (value_compare (field sortField b) (field sortField c)),
           (value_compare (field sortField a) (field sortField c));
    simpl in *; destruct one_way as [-> | ->]; cbv [Z.ltb Z.compare];
    try congruence; intros _ _;
    first [ exfalso; apply Hup; congruence | exfalso; apply Hdown; congruence ].
Qed.

(** Two records each of which may stand before the other have the same
    key. *)
Lemma in_order_both (a b : ChainOfCustody) :
  in_order sortField sortOrder a b = true ->
  in_order sortField sortOrder b a = true ->
  value_compare (field sortField a) (field sortField b) = Eq.
Proof.
  unfold in_order.
  rewrite (value_compare_antisym (field sortField a) (field sortField b)).
  destruct (value_compare (field sortField a) (field sortField b)); simpl;
    destruct one_way as [-> | ->]; cbv [Z.ltb Z.compare]; congruence.
Qed.

Local Abbreviation before :=
  (fun a b : ChainOfCustody => in_order sortField sortOrder a b = true).

Lemma insert_sorted_strongly (x : ChainOfCustody) (l : list ChainOfCustody) :
  StronglySorted before l ->
  StronglySorted before (insert_sorted (in_order sortField sortOrder) x l).
Proof.
  induction l as [|y l IH]; intros Hs; simpl.
  - constructor; constructor.
  - inversion Hs as [|? ? Hl Hy]; subst.
    destruct (in_order sortField sortOrder x y) eqn:E.
    + constructor; [exact Hs|]. constructor; [exact E|].
      apply List.Forall_forall. intros z Hz.
      apply in_order_trans with (b := y); [exact E|].
      exact (proj1 (List.Forall_forall _ _) Hy z Hz).
    + constructor; [apply IH, Hl|].
      apply List.Forall_forall. intros z Hz.
      apply (Permutation_in _ (insert_sorted_perm _ x l)) in Hz.
      destruct Hz as [<-|Hz]; [apply in_order_total, E|].
      exact (proj1 (List.Forall_forall _ _) Hy z Hz).
Qed.

(** What [sort_by] returns is in the order asked for. *)
Lemma sort_by_sorted (l : list ChainOfCustody) :
  StronglySorted before (sort_by sortField sortOrder l).
Proof.
  unfold sort_by. induction l as [|x l IH]; simpl; [constructor|].
  now apply insert_sorted_strongly.
Qed.

Lemma sorted_skipn (k : nat) (l : list ChainOfCustody) :
  StronglySorted before l -> StronglySorted before (List.skipn k l).
Proof.
  revert l. induction k as [|k IH]; intros l Hs; [exact Hs|].
  destruct l as [|x l]; [exact Hs|]. simpl. apply IH.
  now inversion Hs.
Qed.

Lemma sorted_firstn (k : nat) (l : list ChainOfCustody) :
  StronglySorted before l -> StronglySorted before (List.firstn k l).
Proof.
  revert l. induction k as [|k IH]; intros l Hs; [constructor|].
  destruct l as [|x l]; [constructor|]. simpl.
  inversion Hs as [|? ? Hl Hx]; subst. constructor; [now apply IH|].
  apply List.Forall_forall. intros z Hz.
  apply (proj1 (List.Forall_forall _ _) Hx).
  rewrite <- (List.firstn_skipn k l). apply List.in_or_app. now left.
Qed.

(** Two sorted arrangements of the same records are the same list when no
    two of the records have the same key. *)
Lemma sorted_perm_eq (l1 l2 : list ChainOfCustody) :
  StronglySorted before l1 -> StronglySorted before l2 ->
  Permutation l1 l2 ->
  (forall a b, List.In a l1 -> List.In b l1 ->
               value_compare (field sortField a) (field sortField b) = Eq -> a = b) ->
  l1 = l2.
Proof.
  revert l2. induction l1 as [|a l1 IH]; intros l2 H1 H2 Hp Huntied.
  - now apply Permutation_nil in Hp.
  - destruct l2 as [|b l2];
      [apply Permutation_sym, Permutation_nil in Hp; discriminate|].
    inversion H1 as [|? ? Hs1 Ha]; subst.
    inversion H2 as [|? ? Hs2 Hb]; subst.
    assert (Hab : a = b).
    { pose proof (Permutation_in a Hp (or_introl eq_refl)) as Hina.
      pose proof (Permutation_in b (Permutation_sym Hp) (or_introl eq_refl)) as Hinb.
      destruct Hina as [E|Hina]; [now symmetry|].
      destruct Hinb as [E|Hinb]; [exact E|].
      apply Huntied; [now left | now right |].
      apply in_order_both.
      - exact (proj1 (List.Forall_forall _ _) Ha b Hinb).
      - exact (proj1 (List.Forall_forall _ _) Hb a Hina). }
    subst b. f_equal. apply IH; try assumption.
    + now apply Permutation_cons_inv in Hp.
    + intros x y Hx Hy. apply Huntied; now right.
Qed.

End Order.

Lemma filter_perm {A : Type} (f : A -> bool) (l l' : list A) :
  Permutation l l' -> Permutation (List.filter f l) (List.filter f l').
Proof.
  induction 1 as [|x l l' _ IH|x y l|l l' l'' _ IH1 _ IH2]; simpl.
  - constructor.
  - destruct (f x); [now constructor | exact IH].
  - destruct (f x), (f y); try apply Permutation_refl. apply perm_swap.
  - eapply Permutation_trans; eassumption.
Qed.

(** The sorted list of a query does not depend on how the server came
    across the records when no two matching records have the same key. *)
Lemma find_sorted_untied (q : ListQuery) (filters : Filters) (db db' : Collection) :
  Permutation db' db ->
  untied q (List.filter (matches filters) db) ->
  find_sorted filters q db' = find_sorted filters q db.
Proof.
  intros Hp Huntied. unfold find_sorted.
  pose proof (filter_perm (matches filters) _ _ Hp) as Hf.
  apply (sorted_perm_eq (sortField_of q) (sortOrder_of q) (sortOrder_cases q)).
  - apply sort_by_sorted, sortOrder_cases.
  - apply sort_by_sorted, sortOrder_cases.
  - eapply Permutation_trans; [apply sort_by_perm|].
    eapply Permutation_trans; [exact Hf|]. apply Permutation_sym, sort_by_perm.
  - intros a b Ha Hb. apply Huntied.
    + exact (Permutation_in _ Hf (Permutation_in _ (sort_by_perm _ _ _) Ha)).
    + exact (Permutation_in _ Hf (Permutation_in _ (sort_by_perm _ _ _) Hb)).
Qed.

(** One page of routes/upload.js, for a page number and a limit from 1 on. *)
Lemma page_of_eq (q : ListQuery) (db : Collection) (filters : Filters) (N p : Z) :
  build_filters q = Some filters ->
  q_limit q = Some N -> 1 <= N -> 1 <= p ->
  page_of q db p
  = Json 200
      (Listing
         (List.map select_no_chain
            (List.firstn (Z.to_nat N)
               (List.skipn (Z.to_nat (p - 1) * Z.to_nat N) (find_sorted filters q db))))
         (pagination p N (Z.of_nat (List.length (find_sorted filters q db))))).
Proof.
  intros Hf Hl HN Hp. unfold page_of, get_upload_list.
  change (build_filters (with_page q p)) with (build_filters q).
  change (q_limit (with_page q p)) with (q_limit q).
  change (q_page (with_page q p)) with (Some p).
  rewrite Hf, Hl, !parse_or_given by assumption.
  change (find_sorted filters (with_page q p) db) with (find_sorted filters q db).
  unfold skip_limit. destruct (Z.ltb_spec ((p - 1) * N) 0); [nia|].
  unfold countDocuments, find_sorted.
  rewrite (Permutation_length (sort_by_perm _ _ _)).
  rewrite Z.abs_eq by lia. rewrite Z2Nat.inj_mul by lia. reflexivity.
Qed.

Lemma simple_page_of_eq (st : SimpleServer.State) (N p : Z) :
  1 <= N -> 1 <= p ->
  simple_page_of (Some N) st p
  = Json 200
      (Listing
         (List.firstn (Z.to_nat N)
            (List.skipn (Z.to_nat (p - 1) * Z.to_nat N)
                        (SimpleServer.map_values (SimpleServer.files st))))
         (pagination p N
            (Z.of_nat (List.length (SimpleServer.map_values (SimpleServer.files st)))))).
Proof.
  intros HN Hp. unfold simple_page_of, SimpleServer.get_upload_list.
  cbn [SimpleServer.q_page SimpleServer.q_limit].
  rewrite !parse_or_given by assumption.
  rewrite js_slice_skip_limit by nia.
  rewrite Z2Nat.inj_mul by lia. reflexivity.
Qed.

Lemma pages_concat {A : Type} (N : Z) (l : list A) :
  1 <= N ->
  List.concat
    (List.map (fun p => List.firstn (Z.to_nat N)
                          (List.skipn (Z.to_nat (p - 1) * Z.to_nat N) l))
              (page_numbers (ceil_div (Z.of_nat (List.length l)) N)))
  = l.
Proof.
  intros HN. rewrite page_numbers_as_seq.
  destruct (ceil_div_covers (Z.of_nat (List.length l)) N) as [H0 Hc]; [lia | lia |].
  rewrite (List.map_ext _ (fun k => List.firstn (Z.to_nat N)
                                      (List.skipn (k * Z.to_nat N) l))).
  - apply chunks_concat; [lia|].
    apply Nat2Z.inj_le. rewrite Nat2Z.inj_mul, !Z2Nat.id by lia. exact Hc.
  - intros k. do 2 f_equal. f_equal. lia.
Qed.

Lemma find_sorted_length (q : ListQuery) (filters : Filters) (db db' : Collection) :
  Permutation db' db ->
  List.length (find_sorted filters q db')
  = List.length (List.filter (matches filters) db).
Proof.
  intros Hp. unfold find_sorted.
  rewrite (Permutation_length (sort_by_perm _ _ _)).
  apply Permutation_length, filter_perm, Hp.
Qed.

(** The example scan is the collection rearranged. *)
Lemma scan_turning_perm (p : Z) :
  Permutation (Scenario.scan_turning p) (Routes.db Scenario.three_uploads).
Proof.
  unfold Scenario.scan_turning.
  destruct (p =? 2); [|apply Permutation_refl].
  generalize (Routes.db Scenario.three_uploads). intros l.
  destruct l as [|x [|y r]]; try apply Permutation_refl. apply perm_swap.
Qed.

(** C9, as the code has it.  For every filter and sort of the query and
    every page size N >= 1, with the numbers of the request within
    JavaScript's exact integers, and however the server comes across the
    records at each query: each page of GET /api/upload/list holds at most
    N records, all of them matching the filter, in the order the sort asks
    for, and reports the size of the filtered set as totalRecords.  The
    pages 1 .. totalPages put one after the other are the filtered, sorted
    records, each once, when the server comes across the records in the
    same order at every page, or when no two matching records have the
    same sort key.  The list endpoint of simple-server.js does not sort:
    its pages put one after the other are all records in Map order. *)
Theorem pagination_is_exact
        (q : ListQuery) (db : Collection) (scan : Z -> Collection)
        (filters : Filters) (N : Z) (sst : SimpleServer.State) :
  let matching := List.filter (matches filters) db in
  let total := Z.of_nat (List.length matching) in
  let every := SimpleServer.map_values (SimpleServer.files sst) in
  let stotal := Z.of_nat (List.length every) in
  build_filters q = Some filters ->
  q_limit q = Some N ->
  1 <= N ->
  total + N <= max_safe_integer ->
  stotal + N <= max_safe_integer ->
  (forall p : Z, Permutation (scan p) db) ->
  (forall p : Z, 1 <= p -> p * N <= max_safe_integer ->
     exists records : list ChainOfCustody,
       page_of q (scan p) p
       = Json 200 (Listing (List.map select_no_chain records) (pagination p N total))
       /\ Z.of_nat (List.length records) <= N
       /\ in_order_of q records
       /\ List.incl records matching)
  /\ ((forall p : Z, scan p = scan 1) \/ untied q matching ->
      exists full : list ChainOfCustody,
        List.concat (List.map (fun p => listing_data (page_of q (scan p) p))
                              (page_numbers (totalPages (pagination 1 N total))))
        = List.map select_no_chain full
        /\ Permutation full matching
        /\ in_order_of q full)
  /\ (forall p : Z, 1 <= p -> p * N <= max_safe_integer ->
        exists data : list FileSummary,
          simple_page_of (Some N) sst p
          = Json 200 (Listing data (pagination p N stotal))
          /\ Z.of_nat (List.length data) <= N)
  /\ List.concat (List.map (fun p => listing_data (simple_page_of (Some N) sst p))
                           (page_numbers (totalPages (pagination 1 N stotal))))
     = every.
Proof.
  intros matching total every stotal Hf Hl HN _ _ Hscan.
  assert (Hbound : forall (A : Type) (l : list A) k,
             Z.of_nat (List.length (List.firstn (Z.to_nat N) (List.skipn k l))) <= N).
  { intros A l k. rewrite List.length_firstn. lia. }
  assert (Hpage : forall p, 1 <= p ->
             page_of q (scan p) p
             = Json 200
                 (Listing
                    (List.map select_no_chain
                       (List.firstn (Z.to_nat N)
                          (List.skipn (Z.to_nat (p - 1) * Z.to_nat N)
                                      (find_sorted filters q (scan p)))))
                    (pagination p N total))).
  { intros p Hp. rewrite (page_of_eq q (scan p) filters N p Hf Hl HN Hp).
    unfold total, matching.
    now rewrite (find_sorted_length q filters db (scan p) (Hscan p)). }
  split.
  { intros p Hp _. eexists. split; [apply Hpage, Hp|].
    split; [apply Hbound|].
    split.
    - apply sorted_firstn, sorted_skipn, sort_by_sorted, sortOrder_cases.
    - intros r Hr.
      assert (Hin : List.In r (find_sorted filters q (scan p))).
      { rewrite <- (List.firstn_skipn (Z.to_nat (p - 1) * Z.to_nat N)).
        apply List.in_or_app. right.
        rewrite <- (List.firstn_skipn (Z.to_nat N)
                      (List.skipn _ (find_sorted filters q (scan p)))).
        apply List.in_or_app. now left. }
      unfold find_sorted in Hin.
      apply (Permutation_in _ (sort_by_perm _ _ _)) in Hin.
      exact (Permutation_in _ (filter_perm (matches filters) _ _ (Hscan p)) Hin). }
  split.
  { intros Hsame. exists (find_sorted filters q (scan 1)).
    assert (Heq : forall p, find_sorted filters q (scan p)
                            = find_sorted filters q (scan 1)).
    { intros p. destruct Hsame as [Hsame|Huntied]; [now rewrite (Hsame p)|].
      rewrite (find_sorted_untied q filters db (scan p) (Hscan p) Huntied).
      now rewrite (find_sorted_untied q filters db (scan 1) (Hscan 1) Huntied). }
    split; [|split].
    - simpl totalPages.
      rewrite (List.map_ext_in _
                 (fun p => List.map select_no_chain
                             (List.firstn (Z.to_nat N)
                                (List.skipn (Z.to_nat (p - 1) * Z.to_nat N)
                                            (find_sorted filters q (scan 1)))))).
      + rewrite <- List.map_map, <- List.concat_map. f_equal.
        unfold total, matching.
        rewrite <- (find_sorted_length q filters db (scan 1) (Hscan 1)).
        apply (pages_concat N _ HN).
      + intros p Hin. unfold page_numbers in Hin.
        apply List.in_map_iff in Hin. destruct Hin as (k & <- & _).
        rewrite Hpage by lia. now rewrite Heq.
    - unfold find_sorted.
      eapply Permutation_trans; [apply sort_by_perm|].
      apply filter_perm, Hscan.
    - apply sort_by_sorted, sortOrder_cases. }
  split.
  { intros p Hp _. eexists. split; [apply (simple_page_of_eq sst N p); assumption|].
    apply Hbound. }
  simpl totalPages.
  rewrite (List.map_ext_in _
             (fun p => List.firstn (Z.to_nat N)
                         (List.skipn (Z.to_nat (p - 1) * Z.to_nat N) every))).
  - apply pages_concat. exact HN.
  - intros p Hin. unfold page_numbers in Hin.
    apply List.in_map_iff in Hin. destruct Hin as (k & <- & _).
    rewrite (simple_page_of_eq sst N _ HN) by lia. reflexivity.
Qed.

(** C9 at three records read two per page, sorted by name, the server
    coming across the first two the other way round at the second page:
    the names differ, so the pages are exact all the same. *)
Lemma pagination_is_exact_witness :
  let q := Scenario.by_name in
  let db := Routes.db Scenario.three_uploads in
  let scan := Scenario.scan_turning in
  let filters := Scenario.by_name_filters in
  let sst := Scenario.simple_three_uploads in
  let matching := List.filter (matches filters) db in
  let total := Z.of_nat (List.length matching) in
  let every := SimpleServer.map_values (SimpleServer.files sst) in
  let stotal := Z.of_nat (List.length every) in
  (forall p : Z, 1 <= p -> p * 2 <= max_safe_integer ->
     exists records : list ChainOfCustody,
       page_of q (scan p) p
       = Json 200 (Listing (List.map select_no_chain records) (pagination p 2 total))
       /\ Z.of_nat (List.length records) <= 2
       /\ in_order_of q records
       /\ List.incl records matching)
  /\ ((forall p : Z, scan p = scan 1) \/ untied q matching ->
      exists full : list ChainOfCustody,
        List.concat (List.map (fun p => listing_data (page_of q (scan p) p))
                              (page_numbers (totalPages (pagination 1 2 total))))
        = List.map select_no_chain full
        /\ Permutation full matching
        /\ in_order_of q full)
  /\ (forall p : Z, 1 <= p -> p * 2 <= max_safe_integer ->
        exists data : list FileSummary,
          simple_page_of (Some 2) sst p
          = Json 200 (Listing data (pagination p 2 stotal))
          /\ Z.of_nat (List.length data) <= 2)
  /\ List.concat (List.map (fun p => listing_data (simple_page_of (Some 2) sst p))
                           (page_numbers (totalPages (pagination 1 2 stotal))))
     = every.
Proof.
  apply (pagination_is_exact Scenario.by_name (Routes.db Scenario.three_uploads)
           Scenario.scan_turning Scenario.by_name_filters 2
           Scenario.simple_three_uploads).
  - reflexivity.
  - reflexivity.
  - lia.
  - vm_compute. discriminate.
  - vm_compute. discriminate.
  - exact scan_turning_perm.
Defined.

(** C9 as stated fails for a sort with equal keys.  Three records of one
    department, read one per page, sorted by department: the server is
    free in the order of the three, and when it comes across the first two
    the other way round at the second page, the record of c.txt is on pages
    1 and 2 and the record of a.txt on none, while 3 pages of 3 records are
    announced. *)
Lemma pages_repeat_counterexample :
  let q := Scenario.by_department in
  let db := Routes.db Scenario.three_uploads in
  let scan := Scenario.scan_turning in
  let pages :=
    List.concat (List.map (fun p => listing_data (page_of q (scan p) p))
                          (page_numbers 3)) in
  build_filters q = Some Scenario.by_name_filters
  /\ q_limit q = Some 1
  /\ (forall p : Z, Permutation (scan p) db)
  /\ List.map (fun p => List.map s_originalFileName
                               (listing_data (page_of q (scan p) p))) [1; 2; 3]
     = [["c.txt"]; ["c.txt"]; ["b.txt"]]
  /\ page_numbers (totalPages (pagination 1 1 3)) = [1; 2; 3]
  /\ List.map s_originalFileName pages = ["c.txt"; "c.txt"; "b.txt"]
  /\ List.map s_originalFileName
              (List.map select_no_chain
                        (List.filter (matches Scenario.by_name_filters) db))
     = ["c.txt"; "a.txt"; "b.txt"]
  /\ ~ Permutation pages
         (List.map select_no_chain
                   (List.filter (matches Scenario.by_name_filters) db)).
Proof.
  cbv zeta.
  split; [reflexivity|]. split; [reflexivity|]. split; [exact scan_turning_perm|].
  split; [vm_compute; reflexivity|].
  split; [vm_compute; reflexivity|].
  split; [vm_compute; reflexivity|].
  split; [vm_compute; reflexivity|].
  intros Hp.
  apply (Permutation_map s_originalFileName), Permutation_sym in Hp.
  apply (Permutation_in "a.txt") in Hp.
  - vm_compute in Hp. intuition discriminate.
  - vm_compute. auto.
Qed.

(** Three records, two per page, sorted by name: page 1 holds a.txt and
    b.txt, page 2 holds c.txt, and 2 pages of 3 records are announced. *)
Example two_pages_by_name :
  List.map (fun p => List.map s_originalFileName
                       (listing_data (page_of Scenario.by_name
                                        (Routes.db Scenario.three_uploads) p)))
           [1; 2; 3]
  = [["a.txt"; "b.txt"]; ["c.txt"]; []]
  /\ pagination 1 2 3
     = {| currentPage := 1; totalPages := 2; totalRecords := 3;
          recordsPerPage := 2; hasNextPage := true; hasPreviousPage := false |}.
Proof. vm_compute. split; reflexivity. Qed.

End PagingFacts.

(* ================================================================= *)
(** * Further properties of the code *)

(** ** The disk *)

Module DiskFacts.
Import Disk.

Lemma read_unlink_same (fs : FS) (p : string) : readFile (unlinkSync fs p) p = None.
Proof.
  induction fs as [|[q b] fs IH]; simpl; [reflexivity|].
  destruct (String.eqb q p) eqn:E; [exact IH|]. simpl. now rewrite E.
Qed.

Lemma read_unlink_other (fs : FS) (p q : string) :
  q <> p -> readFile (unlinkSync fs p) q = readFile fs q.
Proof.
  intros Hne. induction fs as [|[r b] fs IH]; simpl; [reflexivity|].
  destruct (String.eqb_spec r p) as [->|Hr]; simpl.
  - destruct (String.eqb_spec p q); [congruence | exact IH].
  - now rewrite IH.
Qed.

Lemma read_write_same (fs : FS) (p : string) (b : bytes) :
  readFile (writeFile fs p b) p = Some b.
Proof. unfold writeFile; simpl. now rewrite String.eqb_refl. Qed.

Lemma read_write_other (fs : FS) (p q : string) (b : bytes) :
  q <> p -> readFile (writeFile fs p b) q = readFile fs q.
Proof.
  intros Hne. unfold writeFile; simpl.
  destruct (String.eqb_spec p q); [congruence|].
  now apply read_unlink_other.
Qed.

End DiskFacts.

(* ================================================================= *)
(** ** The ledger over time *)

Module Ledger.
Import Model Http Routes ModelFacts Runs.

Ltac cases :=
  repeat match goal with
         | |- context [match ?x with _ => _ end] =>
             destruct x eqn:?; simpl; try assumption
         end.

Lemma ids_replace (d : ChainOfCustody) (db : Collection) :
  List.map fileId (replace_doc d db) = List.map fileId db.
Proof.
  induction db as [|x db IH]; simpl; [reflexivity|].
  destruct (String.eqb_spec (fileId x) (fileId d)) as [E|E]; simpl.
  - now rewrite E.
  - now rewrite IH.
Qed.

Lemma find_none_not_in (db : Collection) (id : string) :
  findByFileId db id = None -> ~ List.In id (List.map fileId db).
Proof.
  unfold findByFileId. induction db as [|x db IH]; simpl; [tauto|].
  destruct (String.eqb_spec (fileId x) id) as [E|E]; [discriminate|].
  intros H [H1|H1]; [congruence | now apply IH].
Qed.

Lemma find_app_left (db extra : Collection) (id : string) (d : ChainOfCustody) :
  findByFileId db id = Some d -> findByFileId (db ++ extra) id = Some d.
Proof.
  unfold findByFileId. induction db as [|x db IH]; simpl; [discriminate|].
  destruct (String.eqb (fileId x) id); [tauto | exact IH].
Qed.

Lemma find_app_new (db : Collection) (d : ChainOfCustody) :
  findByFileId db (fileId d) = None -> findByFileId (db ++ [d]) (fileId d) = Some d.
Proof.
  unfold findByFileId. induction db as [|x db IH]; simpl.
  - now rewrite String.eqb_refl.
  - destruct (String.eqb (fileId x) (fileId d)); [discriminate | exact IH].
Qed.

Lemma save_ids (up : bool) (t : Z) (db db' : Collection) (d : ChainOfCustody) :
  save up t db d = inl db' -> List.map fileId db' = List.map fileId db.
Proof. intros H. rewrite (save_inl _ _ _ _ _ H). apply ids_replace. Qed.

Lemma save_new_inl (up : bool) (db db' : Collection) (d : ChainOfCustody) :
  save_new up db d = inl db' ->
  schema_valid d = true /\ findByFileId db (fileId d) = None /\ db' = db ++ [d].
Proof.
  unfold save_new. destruct (schema_valid d); simpl; [|discriminate].
  destruct up; simpl; [|discriminate].
  destruct (findByFileId db (fileId d)); [discriminate|].
  now intros [= <-].
Qed.

Lemma find_member (db : Collection) (d : ChainOfCustody) :
  List.NoDup (List.map fileId db) -> List.In d db ->
  findByFileId db (fileId d) = Some d.
Proof.
  unfold findByFileId. induction db as [|x db IH]; simpl; [tauto|].
  intros Hnd Hin. inversion Hnd as [|? ? Hx Hnd']; subst.
  destruct Hin as [->|Hin]; [now rewrite String.eqb_refl|].
  destruct (String.eqb_spec (fileId x) (fileId d)) as [E|_]; [|now apply IH].
  exfalso. apply Hx. rewrite E. now apply List.in_map.
Qed.

Section WithRuntime.
Variable node : Runtime.

Lemma step_ids_nodup (st st' : State) :
  Reach.step node st st' ->
  List.NoDup (List.map fileId (db st)) -> List.NoDup (List.map fileId (db st')).
Proof.
  intros Hstep IH.
  destruct Hstep as [rq env st | rq env st | rq env st | rq env st
                     | st disk' | st id s]; simpl.
  - unfold post_upload, upload_handler, upload_catch; simpl. cases.
    match goal with H : save_new _ _ _ = inl _ |- _ =>
      apply save_new_inl in H; destruct H as (_ & Hnone & ->) end.
    rewrite List.map_app. simpl.
    apply List.NoDup_app; [exact IH | repeat constructor; simpl; tauto |].
    intros x Hx [<-|[]]. simpl in Hnone.
    exact (find_none_not_in _ _ Hnone Hx).
  - unfold post_move. cases;
      repeat match goal with H : save _ _ _ _ = inl _ |- _ =>
               apply save_ids in H; rewrite H; clear H end; exact IH.
  - unfold get_download. cases;
      repeat match goal with H : save _ _ _ _ = inl _ |- _ =>
               apply save_ids in H; rewrite H; clear H end; exact IH.
  - unfold post_access_log. cases.
    match goal with H : save _ _ _ _ = inl _ |- _ =>
      apply save_ids in H; rewrite H end. exact IH.
  - exact IH.
  - unfold Reach.write_status. rewrite List.map_map.
    rewrite (List.map_ext _ fileId); [exact IH|].
    intros d. now destruct (String.eqb (fileId d) id).
Qed.

Lemma reachable_ids_nodup (st : State) :
  Reach.reachable node st -> List.NoDup (List.map fileId (db st)).
Proof.
  induction 1 as [disk0 | st st' Hreach IH Hstep]; simpl; [constructor|].
  exact (step_ids_nodup st st' Hstep IH).
Qed.

(** X1. The fileId is a key: in every state the routes can reach no two
    records of the collection carry the same fileId. *)
Theorem file_ids_are_unique (st : State) :
  Reach.reachable node st -> List.NoDup (List.map fileId (db st)).
Proof. exact (reachable_ids_nodup st). Qed.

End WithRuntime.

(** X1 at the end of Scenario A. *)
Lemma file_ids_are_unique_witness :
  List.NoDup (List.map fileId (db Scenario.retrieved)).
Proof.
  apply (file_ids_are_unique Sample.node).
  eapply Reach.reach_step; [|apply Reach.step_download].
  eapply Reach.reach_step; [|apply Reach.step_move].
  eapply Reach.reach_step; [|apply Reach.step_upload].
  apply Reach.reach_init.
Defined.

(* ----------------------------------------------------------------- *)
(** Records only grow *)

Lemma grows_refl (d : ChainOfCustody) : grows d d.
Proof.
  unfold grows. repeat split. exists []. split; [now rewrite List.app_nil_r | constructor].
Qed.

Lemma grows_trans (a b c : ChainOfCustody) : grows a b -> grows b c -> grows a c.
Proof.
  unfold grows.
  intros (A1 & A2 & A3 & A4 & A5 & A6 & A7 & s1 & A8 & A9)
         (B1 & B2 & B3 & B4 & B5 & B6 & B7 & s2 & B8 & B9).
  repeat split; try congruence.
  exists (s1 ++ s2). split.
  - rewrite B8, A8. now rewrite List.app_assoc.
  - apply List.Forall_app. now split.
Qed.

Lemma grows_add (r : ChainOfCustody) (e : CustodyEvent) (t : Z) :
  action e <> Upload -> grows r (set_updatedAt (addCustodyEvent r e) t).
Proof.
  intros He. unfold grows; simpl. repeat split.
  exists [e]. split; [reflexivity | now repeat constructor].
Qed.

Lemma grows_add_path (r : ChainOfCustody) (e : CustodyEvent) (p : string) (t : Z) :
  action e <> Upload ->
  grows r (set_updatedAt (set_filePath (addCustodyEvent r e) p) t).
Proof.
  intros He. unfold grows; simpl. repeat split.
  exists [e]. split; [reflexivity | now repeat constructor].
Qed.

Lemma extends_refl (db : Collection) : extends db db.
Proof. intros id d H. exists d. split; [exact H | apply grows_refl]. Qed.

Lemma extends_trans (a b c : Collection) : extends a b -> extends b c -> extends a c.
Proof.
  intros Hab Hbc id d H.
  destruct (Hab id d H) as (d1 & H1 & G1).
  destruct (Hbc id d1 H1) as (d2 & H2 & G2).
  exists d2. split; [exact H2 | exact (grows_trans _ _ _ G1 G2)].
Qed.

Lemma extends_replace (db : Collection) (record r' : ChainOfCustody) (id0 : string) :
  findByFileId db id0 = Some record ->
  fileId r' = id0 -> grows record r' ->
  extends db (replace_doc r' db).
Proof.
  intros Hfind Hid Hg id d Hd.
  destruct (String.eqb_spec id id0) as [->|Hne].
  - exists r'. split.
    + apply find_replace_at with (r := record); assumption.
    + rewrite Hfind in Hd. injection Hd as <-. exact Hg.
  - exists d. split; [|apply grows_refl].
    rewrite find_replace_other; [exact Hd | congruence].
Qed.

Lemma extends_status (db : Collection) (id0 : string) (s : Status) :
  extends db (Reach.write_status id0 s db).
Proof.
  intros id d. unfold Reach.write_status, findByFileId.
  induction db as [|x db IH]; simpl; [discriminate|].
  assert (E : fileId (if String.eqb (fileId x) id0 then set_status x s else x)
              = fileId x) by now destruct (String.eqb (fileId x) id0).
  rewrite E. destruct (String.eqb (fileId x) id); [|exact IH].
  intros [= <-]. eexists; split; [reflexivity|].
  destruct (String.eqb (fileId x) id0); [|apply grows_refl].
  unfold grows; simpl. repeat split. exists []. split;
    [now rewrite List.app_nil_r | constructor].
Qed.

Section Growth.
Variable node : Runtime.

Lemma step_extends (st st' : State) : Reach.step node st st' -> extends (db st) (db st').
Proof.
  destruct 1 as [rq env st | rq env st | rq env st | rq env st
                 | st disk' | st id s]; simpl.
  - unfold post_upload, upload_handler, upload_catch; simpl.
    cases; try apply extends_refl.
    match goal with H : save_new _ _ _ = inl _ |- _ =>
      apply save_new_inl in H; destruct H as (_ & _ & ->) end.
    intros id d Hd. exists d. split; [now apply find_app_left | apply grows_refl].
  - unfold post_move.
    destruct (mv_fileId rq) as [[|c1 f]|]; simpl; try apply extends_refl.
    destruct (mv_userId rq) as [[|c2 u]|]; simpl; try apply extends_refl.
    destruct (mv_newLocation rq) as [[|c3 l]|]; simpl; try apply extends_refl.
    destruct (findByFileId (db st) (String c1 f)) as [record|] eqn:Hfind;
      simpl; [|apply extends_refl].
    destruct (negb (status_eqb (status record) Active)); simpl; [apply extends_refl|].
    destruct (negb (Disk.existsSync _ _)); simpl; [apply extends_refl|].
    destruct (ensure_directory _ _ _ _); simpl; [apply extends_refl|].
    destruct (Disk.renameSync _ _ _ _ _); simpl; [|apply extends_refl].
    pose proof (find_fileId _ _ _ Hfind) as Hid.
    match goal with
    | |- context [save _ _ (db st) ?d] =>
        destruct (save (dbReachable env 0) (savedAt env 0) (db st) d) as [db1|e1] eqn:S1
    end; simpl; [|apply extends_refl].
    assert (H1 : extends (db st) db1).
    { rewrite (save_inl _ _ _ _ _ S1).
      apply extends_replace with (record := record) (id0 := String c1 f);
        [exact Hfind | exact Hid | apply grows_add; simpl; discriminate]. }
    match goal with
    | |- context [save _ _ db1 ?d] =>
        destruct (save (dbReachable env 1) (savedAt env 1) db1 d) as [db2|e2] eqn:S2
    end; simpl; [|exact H1].
    rewrite (save_inl _ _ _ _ _ S2), (save_inl _ _ _ _ _ S1).
    intros id d Hd.
    destruct (String.eqb_spec id (String c1 f)) as [->|Hne].
    + eexists. split.
      * eapply find_replace_at; [exact Hid|].
        eapply find_replace_at; [exact Hid | exact Hfind].
      * rewrite Hfind in Hd. injection Hd as <-.
        apply grows_add_path. simpl. discriminate.
    + exists d. split; [|apply grows_refl].
      rewrite !find_replace_other; auto; simpl; congruence.
  - unfold get_download.
    destruct (dl_userId rq) as [[|c u]|]; simpl; try apply extends_refl.
    destruct (findByFileId (db st) (dl_fileId rq)) as [record|] eqn:Hfind;
      simpl; [|apply extends_refl].
    destruct (negb (status_eqb (status record) Active)); simpl; [apply extends_refl|].
    destruct (negb (Disk.existsSync _ _)); simpl; [apply extends_refl|].
    destruct (verifyFileIntegrity _ _ _ _) as [[|]|e]; simpl; try apply extends_refl.
    match goal with
    | |- context [save _ _ (db st) ?d] =>
        destruct (save (dbReachable env 0) (savedAt env 0) (db st) d) as [db1|e1] eqn:S1
    end; simpl; [|apply extends_refl].
    assert (H1 : extends (db st) db1).
    { rewrite (save_inl _ _ _ _ _ S1).
      apply extends_replace with (record := record) (id0 := dl_fileId rq);
        [exact Hfind | exact (find_fileId _ _ _ Hfind)
         | apply grows_add; simpl; discriminate]. }
    destruct (Disk.readFile _ _); exact H1.
  - unfold post_access_log.
    destruct (ac_fileId rq) as [[|c1 f]|]; simpl; try apply extends_refl.
    destruct (ac_userId rq) as [[|c2 u]|]; simpl; try apply extends_refl.
    destruct (findByFileId (db st) (String c1 f)) as [record|] eqn:Hfind;
      simpl; [|apply extends_refl].
    match goal with
    | |- context [save _ _ (db st) ?d] =>
        destruct (save (dbReachable env 0) (savedAt env 0) (db st) d) as [db1|e1] eqn:S1
    end; simpl; [|apply extends_refl].
    rewrite (save_inl _ _ _ _ _ S1).
    apply extends_replace with (record := record) (id0 := String c1 f);
      [exact Hfind | exact (find_fileId _ _ _ Hfind)
       | apply grows_add; simpl; discriminate].
  - apply extends_refl.
  - apply extends_status.
Qed.

(** X2. The ledger is append-only.  Whatever requests follow (uploads,
    moves, downloads, access logs, with disk and status changing outside
    them), a record that could be looked up before can be looked up after
    under the same fileId, with the same name, size, type, checksum,
    metadata and creation time, and its chain is the earlier chain followed
    by events none of which is an upload: no event is dropped, changed or
    reordered, and no record disappears. *)
Theorem records_only_grow (st st' : State) (id : string) (d : ChainOfCustody) :
  later node st st' ->
  findByFileId (db st) id = Some d ->
  exists d' : ChainOfCustody,
    findByFileId (db st') id = Some d'
    /\ fileId d' = fileId d
    /\ originalFileName d' = originalFileName d
    /\ fileSize d' = fileSize d
    /\ mimeType d' = mimeType d
    /\ checksum d' = checksum d
    /\ metadata d' = metadata d
    /\ createdAt d' = createdAt d
    /\ exists suffix : list CustodyEvent,
         custodyChain d' = custodyChain d ++ suffix
         /\ List.Forall (fun e => action e <> Upload) suffix.
Proof.
  intros Hlater. revert id d.
  assert (H : extends (db st) (db st')).
  { induction Hlater as [st | st st' st'' _ IH Hstep]; [apply extends_refl|].
    exact (extends_trans _ _ _ IH (step_extends _ _ Hstep)). }
  exact H.
Qed.

End Growth.

(** X2 from the ingested record to the end of Scenario A. *)
Lemma records_only_grow_witness :
  exists d' : ChainOfCustody,
    findByFileId (db Scenario.retrieved) Scenario.file1 = Some d'
    /\ fileId d' = fileId Scenario.ingested_record
    /\ originalFileName d' = originalFileName Scenario.ingested_record
    /\ fileSize d' = fileSize Scenario.ingested_record
    /\ mimeType d' = mimeType Scenario.ingested_record
    /\ checksum d' = checksum Scenario.ingested_record
    /\ metadata d' = metadata Scenario.ingested_record
    /\ createdAt d' = createdAt Scenario.ingested_record
    /\ exists suffix : list CustodyEvent,
         custodyChain d' = custodyChain Scenario.ingested_record ++ suffix
         /\ List.Forall (fun e => action e <> Upload) suffix.
Proof.
  apply (records_only_grow Sample.node Scenario.ingested Scenario.retrieved
           Scenario.file1 Scenario.ingested_record).
  - eapply later_step; [|apply Reach.step_download].
    eapply later_step; [|apply Reach.step_move].
    apply later_now.
  - vm_compute. reflexivity.
Defined.

End Ledger.

(* ================================================================= *)
(** ** No route writes a status *)

Module StatusFacts.
Import Model Http Routes ModelFacts Runs Ledger.

Lemma kept_refl (db : Collection) : keeps_status db db.
Proof.
  split.
  - intros id d H. exists d. split; [exact H | reflexivity].
  - intros id d' H1 H2. congruence.
Qed.

Lemma kept_trans (a b c : Collection) :
  keeps_status a b -> keeps_status b c -> keeps_status a c.
Proof.
  intros [Hab1 Hab2] [Hbc1 Hbc2]. split.
  - intros id d H. destruct (Hab1 id d H) as (d1 & H1 & S1).
    destruct (Hbc1 id d1 H1) as (d2 & H2 & S2).
    exists d2. split; [exact H2 | congruence].
  - intros id d' Ha Hc.
    destruct (findByFileId b id) as [d1|] eqn:Hb.
    + destruct (Hbc1 id d1 Hb) as (d2 & H2 & S2).
      rewrite Hc in H2. injection H2 as <-.
      rewrite S2. exact (Hab2 id d1 Ha Hb).
    + exact (Hbc2 id d' Hb Hc).
Qed.

Lemma kept_replace (db : Collection) (old new : ChainOfCustody) (id0 : string) :
  findByFileId db id0 = Some old -> fileId new = id0 -> status new = status old ->
  keeps_status db (replace_doc new db).
Proof.
  intros Hfind Hid Hst. split.
  - intros id d Hd. destruct (String.eqb_spec id id0) as [->|Hne].
    + exists new. split.
      * apply find_replace_at with (r := old); assumption.
      * rewrite Hfind in Hd. injection Hd as <-. exact Hst.
    + exists d. split; [|reflexivity].
      rewrite find_replace_other; [exact Hd | congruence].
  - intros id d' Hnone Hsome. destruct (String.eqb_spec id id0) as [->|Hne].
    + congruence.
    + rewrite find_replace_other in Hsome by congruence. congruence.
Qed.

Lemma find_app_only (db : Collection) (doc d' : ChainOfCustody) (id : string) :
  findByFileId db id = None -> findByFileId (db ++ [doc]) id = Some d' -> d' = doc.
Proof.
  unfold findByFileId. induction db as [|x db IH]; simpl.
  - intros _. destruct (String.eqb (fileId doc) id); congruence.
  - destruct (String.eqb (fileId x) id); [discriminate | exact IH].
Qed.

Lemma kept_new (db : Collection) (doc : ChainOfCustody) :
  status doc = Active -> keeps_status db (db ++ [doc]).
Proof.
  intros Hst. split.
  - intros id d Hd. exists d. split; [now apply find_app_left | reflexivity].
  - intros id d' Hnone Hsome.
    now rewrite (find_app_only db doc d' id Hnone Hsome).
Qed.

Section WithRuntime.
Variable node : Runtime.

Lemma upload_keeps_status (rq : UploadRequest) (env : Env) (st : State) :
  keeps_status (db st) (db (fst (post_upload node rq env st))).
Proof.
  unfold post_upload, upload_handler, upload_catch; simpl.
  cases; try apply kept_refl.
  match goal with H : save_new _ _ _ = inl _ |- _ =>
    apply save_new_inl in H; destruct H as (_ & _ & ->) end.
  apply kept_new. reflexivity.
Qed.

Lemma move_keeps_status (rq : MoveRequest) (env : Env) (st : State) :
  keeps_status (db st) (db (fst (post_move node rq env st))).
Proof.
  unfold post_move.
  destruct (mv_fileId rq) as [[|c1 f]|]; simpl; try apply kept_refl.
  destruct (mv_userId rq) as [[|c2 u]|]; simpl; try apply kept_refl.
  destruct (mv_newLocation rq) as [[|c3 l]|]; simpl; try apply kept_refl.
  destruct (findByFileId (db st) (String c1 f)) as [record|] eqn:Hfind;
    simpl; [|apply kept_refl].
  destruct (negb (status_eqb (status record) Active)); simpl; [apply kept_refl|].
  destruct (negb (Disk.existsSync _ _)); simpl; [apply kept_refl|].
  destruct (ensure_directory _ _ _ _); simpl; [apply kept_refl|].
  destruct (Disk.renameSync _ _ _ _ _); simpl; [|apply kept_refl].
  pose proof (find_fileId _ _ _ Hfind) as Hid.
  match goal with
  | |- context [save _ _ (db st) ?d] =>
      destruct (save (dbReachable env 0) (savedAt env 0) (db st) d) as [db1|e1] eqn:S1
  end; simpl; [|apply kept_refl].
  assert (H1 : keeps_status (db st) db1).
  { rewrite (save_inl _ _ _ _ _ S1).
    apply kept_replace with (old := record) (id0 := String c1 f);
      [exact Hfind | exact Hid | reflexivity]. }
  match goal with
  | |- context [save _ _ db1 ?d] =>
      destruct (save (dbReachable env 1) (savedAt env 1) db1 d) as [db2|e2] eqn:S2
  end; simpl; [|exact H1].
  apply (kept_trans _ _ _ H1).
  rewrite (save_inl _ _ _ _ _ S2).
  match goal with
  | |- keeps_status _ (replace_doc ?new _) =>
      apply kept_replace
        with (old := set_updatedAt
                       (addCustodyEvent record
                          {| action := Move; timestamp := now env;
                             userId := String c2 u; location := String c3 l;
                             ipAddress := ip env; userAgent := agent env;
                             notes := Some (or_else (mv_notes rq)
                                        ("File moved from " ++ currentLocation record
                                         ++ " to " ++ String c3 l)%string) |})
                       (savedAt env 0%nat))
             (id0 := String c1 f)
  end; [|exact Hid | reflexivity].
  rewrite (save_inl _ _ _ _ _ S1).
  apply find_replace_at with (r := record); [exact Hid | exact Hfind].
Qed.

Lemma download_keeps_status (rq : DownloadRequest) (env : Env) (st : State) :
  keeps_status (db st) (db (fst (get_download node rq env st))).
Proof.
  unfold get_download.
  destruct (dl_userId rq) as [[|c u]|]; simpl; try apply kept_refl.
  destruct (findByFileId (db st) (dl_fileId rq)) as [record|] eqn:Hfind;
    simpl; [|apply kept_refl].
  destruct (negb (status_eqb (status record) Active)); simpl; [apply kept_refl|].
  destruct (negb (Disk.existsSync _ _)); simpl; [apply kept_refl|].
  destruct (verifyFileIntegrity _ _ _ _) as [[|]|e]; simpl; try apply kept_refl.
  match goal with
  | |- context [save _ _ (db st) ?d] =>
      destruct (save (dbReachable env 0) (savedAt env 0) (db st) d) as [db1|e1] eqn:S1
  end; simpl; [|apply kept_refl].
  assert (H1 : keeps_status (db st) db1).
  { rewrite (save_inl _ _ _ _ _ S1).
    apply kept_replace with (old := record) (id0 := dl_fileId rq);
      [exact Hfind | exact (find_fileId _ _ _ Hfind) | reflexivity]. }
  destruct (Disk.readFile _ _); exact H1.
Qed.

Lemma access_log_keeps_status (rq : AccessRequest) (env : Env) (st : State) :
  keeps_status (db st) (db (fst (post_access_log rq env st))).
Proof.
  unfold post_access_log.
  destruct (ac_fileId rq) as [[|c1 f]|]; simpl; try apply kept_refl.
  destruct (ac_userId rq) as [[|c2 u]|]; simpl; try apply kept_refl.
  destruct (findByFileId (db st) (String c1 f)) as [record|] eqn:Hfind;
    simpl; [|apply kept_refl].
  match goal with
  | |- context [save _ _ (db st) ?d] =>
      destruct (save (dbReachable env 0) (savedAt env 0) (db st) d) as [db1|e1] eqn:S1
  end; simpl; [|apply kept_refl].
  rewrite (save_inl _ _ _ _ _ S1).
  apply kept_replace with (old := record) (id0 := String c1 f);
    [exact Hfind | exact (find_fileId _ _ _ Hfind) | reflexivity].
Qed.

Lemma served_keeps_status (st st' : State) :
  served node st st' -> keeps_status (db st) (db st').
Proof.
  induction 1 as [st | st st' rq env _ IH | st st' rq env _ IH
                  | st st' rq env _ IH | st st' rq env _ IH | st st' disk' _ IH].
  - apply kept_refl.
  - exact (kept_trans _ _ _ IH (upload_keeps_status rq env st')).
  - exact (kept_trans _ _ _ IH (move_keeps_status rq env st')).
  - exact (kept_trans _ _ _ IH (download_keeps_status rq env st')).
  - exact (kept_trans _ _ _ IH (access_log_keeps_status rq env st')).
  - exact IH.
Qed.

(** X26. No route writes a status.  Over any sequence of uploads, moves,
    downloads and access logs (with the bytes on disk changing outside
    them), a record keeps the status it had, and a record created in the
    sequence is active.  So the statuses archived and deleted, which the
    move and download routes refuse, can only be written outside the
    routes: starting from an empty collection every record is active. *)
Theorem status_is_never_written (st st' : State) :
  served node st st' ->
  (forall (id : string) (d : ChainOfCustody),
      findByFileId (db st) id = Some d ->
      exists d' : ChainOfCustody,
        findByFileId (db st') id = Some d' /\ status d' = status d)
  /\ (forall (id : string) (d' : ChainOfCustody),
         findByFileId (db st) id = None -> findByFileId (db st') id = Some d' ->
         status d' = Active)
  /\ (db st = [] -> List.Forall (fun d' => status d' = Active) (db st')).
Proof.
  intros Hserved.
  pose proof (served_keeps_status st st' Hserved) as [Hold Hnew].
  split; [exact Hold|]. split; [exact Hnew|].
  intros Hempty. apply List.Forall_forall. intros d' Hin.
  assert (Hids : List.NoDup (List.map fileId (db st'))).
  { clear Hold Hnew Hin.
    induction Hserved as [st | st st' rq env _ IH | st st' rq env _ IH
                          | st st' rq env _ IH | st st' rq env _ IH
                          | st st' disk' _ IH].
    - rewrite Hempty. constructor.
    - apply (step_ids_nodup node st' _ (Reach.step_upload node rq env st') (IH Hempty)).
    - apply (step_ids_nodup node st' _ (Reach.step_move node rq env st') (IH Hempty)).
    - apply (step_ids_nodup node st' _ (Reach.step_download node rq env st') (IH Hempty)).
    - apply (step_ids_nodup node st' _ (Reach.step_access_log node rq env st')
                             (IH Hempty)).
    - exact (IH Hempty). }
  apply (Hnew (fileId d') d').
  - now rewrite Hempty.
  - apply find_member; assumption.
Qed.

End WithRuntime.

(** X26 over Scenario A, from the empty collection to the retrieval. *)
Lemma status_is_never_written_witness :
  (forall (id : string) (d : ChainOfCustody),
      findByFileId (db Scenario.empty) id = Some d ->
      exists d' : ChainOfCustody,
        findByFileId (db Scenario.retrieved) id = Some d' /\ status d' = status d)
  /\ (forall (id : string) (d' : ChainOfCustody),
         findByFileId (db Scenario.empty) id = None ->
         findByFileId (db Scenario.retrieved) id = Some d' ->
         status d' = Active)
  /\ (db Scenario.empty = [] ->
      List.Forall (fun d' => status d' = Active) (db Scenario.retrieved)).
Proof.
  apply (status_is_never_written Sample.node Scenario.empty Scenario.retrieved).
  apply (served_download Sample.node Scenario.empty Scenario.relocated).
  apply (served_move Sample.node Scenario.empty Scenario.ingested).
  apply (served_upload Sample.node Scenario.empty Scenario.empty).
  apply served_none.
Defined.

End StatusFacts.

(* ================================================================= *)
(** ** Ingest, then read back; relocate *)

Module RoundTrips.
Import Model Http Routes MoreRoutes ModelFacts DiskFacts Ledger.

Section WithRuntime.
Variable node : Runtime.

(** What a 201 of POST /api/upload says about the state it leaves. *)
Lemma upload_created (rq : UploadRequest) (env : Env) (st st' : State)
      (id name sum : string) (size t : Z) :
  post_upload node rq env st = (st', Json 201 (Uploaded id name size sum t)) ->
  exists (f : MulterFile) (actor : string) (doc : ChainOfCustody),
    up_file rq = Some f /\ up_userId rq = Some actor /\ actor <> EmptyString
    /\ id = randomUUID env /\ name = originalname f
    /\ size = Z.of_nat (List.length (content f))
    /\ sum = hex_of_bytes (createHash node "sha256" (content f))
    /\ t = sentAt env
    /\ doc = {| fileId := id; originalFileName := name; filePath := path f;
                fileSize := size; mimeType := mimetype f; checksum := sum;
                custodyChain :=
                  [ {| action := Upload; timestamp := now env; userId := actor;
                       location := "uploads"; ipAddress := ip env;
                       userAgent := agent env; notes := up_notes rq |} ];
                currentLocation := "uploads"; status := Active;
                metadata := {| department := up_department rq;
                               caseNumber := up_caseNumber rq;
                               evidenceType := up_evidenceType rq;
                               classification := up_classification rq;
                               tags := [] |};
                createdAt := savedAt env 0%nat; updatedAt := savedAt env 0%nat |}
    /\ schema_valid doc = true
    /\ findByFileId (db st) id = None
    /\ db st' = db st ++ [doc]
    /\ disk st' = Disk.writeFile (disk st) (path f) (content f).
Proof.
  unfold post_upload, upload_handler, upload_catch; simpl.
  destruct (up_file rq) as [f|]; simpl; [|discriminate].
  destruct (up_userId rq) as [[|c u]|]; simpl; try discriminate.
  unfold calculateChecksum. rewrite read_write_same.
  match goal with
  | |- context [save_new _ _ ?d] =>
      destruct (save_new (dbReachable env 0) (db st) d) as [db'|e] eqn:S
  end; simpl; [|destruct (Disk.existsSync _ _); discriminate].
  apply save_new_inl in S. destruct S as (Hv & Hnone & ->).
  intros [= <- <- <- <- <- <-].
  exists f, (String c u). eexists.
  repeat split; try reflexivity; try discriminate; assumption.
Qed.

(** X3. After a 201 of POST /api/upload, GET /api/upload/status/:fileId
    with the fileId of the reply answers 200 with the uploaded name and
    size, status active, currentLocation "uploads" and a chain of exactly
    one event, the upload by the request's userId.  The event carries the
    clock as read when it was made; the uploadTimestamp of the reply is a
    later reading of the clock and need not be equal to it. *)
Theorem upload_then_status (rq : UploadRequest) (env : Env) (st st' : State)
        (id name sum : string) (size t : Z) :
  post_upload node rq env st = (st', Json 201 (Uploaded id name size sum t)) ->
  exists (body : StatusBody) (event : CustodyEvent),
    get_upload_status id st' = Sent 200 body
    /\ st_fileId body = id
    /\ st_originalFileName body = name
    /\ st_fileSize body = size
    /\ st_status body = Active
    /\ st_currentLocation body = "uploads"
    /\ st_custodyChain body = [event]
    /\ action event = Upload
    /\ Some (userId event) = up_userId rq
    /\ location event = "uploads"
    /\ timestamp event = now env
    /\ t = sentAt env.
Proof.
  intros H. apply upload_created in H.
  destruct H as (f & actor & doc & Hf & Hu & Hne & Hid & Hname & Hsize & Hsum & Ht
                 & Hdoc & Hv & Hnone & Hdb & Hdisk).
  unfold get_upload_status. rewrite Hdb.
  assert (Hfid : fileId doc = id) by now rewrite Hdoc.
  rewrite <- Hfid, find_app_new by now rewrite Hfid.
  eexists; eexists. split; [reflexivity|].
  rewrite Hdoc; simpl. repeat split; try reflexivity; auto.
Qed.

(** X4. Ingest, then retrieve: when the disk is not touched in between and
    the save reaches the database, GET /api/download/:fileId for the fileId
    of a 201 streams exactly the uploaded bytes, announces the checksum the
    upload replied (the sha256 hex digest of those bytes) and leaves the
    chain upload, download. *)
Theorem upload_then_download
        (rq : UploadRequest) (env env2 : Env) (st st' : State)
        (id name sum actor : string) (size t : Z) (notes : option string) :
  post_upload node rq env st = (st', Json 201 (Uploaded id name size sum t)) ->
  actor <> EmptyString ->
  dbReachable env2 0%nat = true ->
  exists (f : MulterFile) (st2 : State) (headers : DownloadHeaders)
         (record : ChainOfCustody),
    up_file rq = Some f
    /\ get_download node {| dl_fileId := id; dl_userId := Some actor;
                            dl_notes := notes |} env2 st'
       = (st2, FileStream headers (content f))
    /\ sum = hex_of_bytes (createHash node "sha256" (content f))
    /\ xFileChecksum headers = sum
    /\ contentLength headers = Some (Z.of_nat (List.length (content f)))
    /\ findByFileId (db st2) id = Some record
    /\ List.map action (custodyChain record) = [Upload; Download]
    /\ disk st2 = disk st'.
Proof.
  intros H Hactor Hdb2. apply upload_created in H.
  destruct H as (f & actor0 & doc & Hf & Hu & Hne & Hid & Hname & Hsize & Hsum & Ht
                 & Hdoc & Hv & Hnone & Hdb & Hdisk).
  assert (Hfid : fileId doc = id) by now rewrite Hdoc.
  assert (Hfind : findByFileId (db st') id = Some doc).
  { rewrite Hdb, <- Hfid. apply find_app_new. now rewrite Hfid. }
  assert (Hread : Disk.readFile (disk st') (filePath doc) = Some (content f)).
  { rewrite Hdisk, Hdoc; simpl. apply read_write_same. }
  assert (Hsumdoc : checksum doc = sum) by now rewrite Hdoc.
  assert (Hloc : currentLocation doc = "uploads") by now rewrite Hdoc.
  assert (Hchain : List.map action (custodyChain doc) = [Upload])
    by now rewrite Hdoc.
  assert (Hlen : fileSize doc = size) by now rewrite Hdoc.
  assert (Hst : status doc = Active) by now rewrite Hdoc.
  clear Hdoc.
  set (event := {| action := Download; timestamp := now env2; userId := actor;
                   location := currentLocation doc;
                   ipAddress := ip env2; userAgent := agent env2;
                   Model.notes := Some (or_else notes "File downloaded") |}).
  assert (Hv1 : schema_valid (addCustodyEvent doc event) = true).
  { apply schema_valid_add; [exact Hv|].
    unfold event_valid, event; simpl.
    rewrite (nonempty_true _ Hactor), Hloc. reflexivity. }
  exists f. unfold get_download; simpl.
  destruct actor as [|c u]; [congruence|].
  rewrite Hfind, Hst; simpl. unfold Disk.existsSync. rewrite Hread; simpl.
  unfold verifyFileIntegrity. rewrite Hread, Hsumdoc.
  replace (String.eqb (hex_of_bytes (createHash node "sha256" (content f))) sum)
    with true by (rewrite Hsum; symmetry; apply String.eqb_refl).
  fold event. rewrite Hdb2, (save_ok _ _ _ Hv1).
  eexists; eexists; eexists. split; [exact Hf|].
  split; [reflexivity|]. simpl. split; [exact Hsum|]. split; [reflexivity|].
  split; [now rewrite Hlen, Hsize|].
  split; [apply find_replace_at with (r := doc); [exact Hfid | exact Hfind]|].
  split; [|reflexivity].
  unfold addCustodyEvent; simpl. rewrite List.map_app, Hchain. reflexivity.
Qed.

End WithRuntime.

(** X3 at the ingest of Scenario A, served while the clock moves on: the
    reply says 1700000000009, the event 1700000000000. *)
Lemma upload_then_status_witness :
  exists (body : StatusBody) (event : CustodyEvent),
    get_upload_status Scenario.file1 Scenario.ingested_slowly = Sent 200 body
    /\ st_fileId body = Scenario.file1
    /\ st_originalFileName body = "a.txt"
    /\ st_fileSize body = 17
    /\ st_status body = Active
    /\ st_currentLocation body = "uploads"
    /\ st_custodyChain body = [event]
    /\ action event = Upload
    /\ Some (userId event) = Some "u1"
    /\ location event = "uploads"
    /\ timestamp event = 1700000000000
    /\ 1700000000009 = 1700000000009.
Proof.
  apply (upload_then_status Sample.node
           (Scenario.upload_by (Some "u1") Scenario.evidence)
           (Scenario.over_time 1700000000000 Scenario.file1 true)
           Scenario.empty Scenario.ingested_slowly Scenario.file1 "a.txt"
           (hex_of_bytes (SHA256.sha256 (utf8 "original evidence")))
           17 1700000000009).
  vm_compute. reflexivity.
Defined.

(** X4 at the ingest of Scenario A, retrieved by u3. *)
Lemma upload_then_download_witness :
  exists (f : MulterFile) (st2 : State) (headers : DownloadHeaders)
         (record : ChainOfCustody),
    Some Scenario.evidence = Some f
    /\ get_download Sample.node (Scenario.download_by Scenario.file1 "u3")
                    Scenario.later Scenario.ingested
       = (st2, FileStream headers (content f))
    /\ hex_of_bytes (SHA256.sha256 (utf8 "original evidence"))
       = hex_of_bytes (createHash Sample.node "sha256" (content f))
    /\ xFileChecksum headers
       = hex_of_bytes (SHA256.sha256 (utf8 "original evidence"))
    /\ contentLength headers = Some (Z.of_nat (List.length (content f)))
    /\ findByFileId (db st2) Scenario.file1 = Some record
    /\ List.map action (custodyChain record) = [Upload; Download]
    /\ disk st2 = disk Scenario.ingested.
Proof.
  apply (upload_then_download Sample.node
           (Scenario.upload_by (Some "u1") Scenario.evidence)
           (Scenario.at_time 1700000000000 Scenario.file1 true)
           Scenario.later Scenario.empty Scenario.ingested Scenario.file1 "a.txt"
           (hex_of_bytes (SHA256.sha256 (utf8 "original evidence")))
           "u3" 17 1700000000000 None).
  - vm_compute. reflexivity.
  - discriminate.
  - reflexivity.
Defined.

End RoundTrips.

(* ================================================================= *)
(** ** Relocation: POST /api/move, its history and the batch move *)

Module Moves.
Import Model Http Routes MoreRoutes ModelFacts DiskFacts Ledger Runs Notions.

Section WithRuntime.
Variable node : Runtime.

(** What a 200 of POST /api/move says about the request and the states. *)
Lemma move_done (rq : MoveRequest) (env : Env) (st st' : State)
      (id loc : string) (prev : option string) (t : Z) :
  post_move node rq env st = (st', Json 200 (Moved id prev loc t)) ->
  exists (record : ChainOfCustody) (actor : string),
    mv_fileId rq = Some id /\ mv_userId rq = Some actor
    /\ mv_newLocation rq = Some loc /\ loc <> EmptyString
    /\ findByFileId (db st) id = Some record
    /\ status record = Active
    /\ Disk.renameSync (path_dirname node) (disk st) (osFault env 1%nat)
                       (filePath record) (destination node record loc)
       = inl (disk st')
    /\ (let event := move_event env actor loc (mv_notes rq) record in
        let record1 := addCustodyEvent record event in
        db st' = replace_doc
                   (set_updatedAt (set_filePath record1 (destination node record loc))
                                  (savedAt env 1%nat))
                   (replace_doc (set_updatedAt record1 (savedAt env 0%nat)) (db st))
        /\ prev = second_last_location (custodyChain record ++ [event]))
    /\ t = sentAt env.
Proof.
  unfold post_move.
  destruct (mv_fileId rq) as [[|c1 f]|]; try discriminate.
  destruct (mv_userId rq) as [[|c2 u]|]; try discriminate.
  destruct (mv_newLocation rq) as [[|c3 l]|]; try discriminate.
  destruct (findByFileId (db st) (String c1 f)) as [record|] eqn:Hfind;
    [|discriminate].
  destruct (status_eqb (status record) Active) eqn:Hst; cbn [negb]; [|discriminate].
  apply status_eqb_eq in Hst.
  destruct (Disk.existsSync (disk st) (filePath record)); cbn [negb]; [|discriminate].
  cbv zeta. fold (location_dir node (String c3 l)).
  destruct (ensure_directory node (disk st) (osFault env 0) _); [discriminate|].
  fold (destination node record (String c3 l)).
  destruct (Disk.renameSync (path_dirname node) (disk st) (osFault env 1)
              (filePath record) (destination node record (String c3 l)))
    as [disk'|] eqn:Hren; [|discriminate].
  fold (move_event env (String c2 u) (String c3 l) (mv_notes rq) record).
  set (event := move_event env (String c2 u) (String c3 l) (mv_notes rq) record).
  destruct (save (dbReachable env 0) (savedAt env 0) (db st) (addCustodyEvent record event))
    as [db1|e] eqn:S1; [|discriminate].
  destruct (save (dbReachable env 1) (savedAt env 1) db1
              (set_filePath (addCustodyEvent record event)
                            (destination node record (String c3 l))))
    as [db2|e] eqn:S2; [|discriminate].
  intros [= <- <- <- <- <-].
  exists record, (String c2 u).
  rewrite (save_inl _ _ _ _ _ S2), (save_inl _ _ _ _ _ S1). simpl.
  repeat split; try reflexivity; try assumption. discriminate.
Qed.

(** X5. A 200 of POST /api/move carries the bytes over unchanged: the
    record's new filePath holds exactly what its old filePath held, the
    checksum is the one stored at ingest, so the integrity check of the
    download route gives the same verdict after the move as before it; the
    old path is gone when it differs from the new one, and every other
    path of the disk is untouched. *)
Theorem move_keeps_bytes (rq : MoveRequest) (env : Env) (st st' : State)
        (id loc : string) (prev : option string) (t : Z) :
  post_move node rq env st = (st', Json 200 (Moved id prev loc t)) ->
  exists (record moved : ChainOfCustody) (stored : bytes) (verdict : bool),
    findByFileId (db st) id = Some record
    /\ findByFileId (db st') id = Some moved
    /\ filePath moved = destination node record loc
    /\ checksum moved = checksum record
    /\ Disk.readFile (disk st) (filePath record) = Some stored
    /\ Disk.readFile (disk st') (filePath moved) = Some stored
    /\ verifyFileIntegrity node (disk st) (filePath record) (checksum record)
       = inl verdict
    /\ verifyFileIntegrity node (disk st') (filePath moved) (checksum moved)
       = inl verdict
    /\ (filePath moved <> filePath record ->
        Disk.existsSync (disk st') (filePath record) = false)
    /\ (forall p : string,
           p <> filePath record -> p <> filePath moved ->
           Disk.readFile (disk st') p = Disk.readFile (disk st) p).
Proof.
  intros H. apply move_done in H.
  destruct H as (record & actor & Hid & Hu & Hl & Hne & Hfind & Hst & Hren & Hdb & Ht).
  cbv zeta in Hdb. destruct Hdb as [Hdb _].
  set (event := move_event env actor loc (mv_notes rq) record) in *.
  set (new := destination node record loc) in *.
  pose proof (find_fileId _ _ _ Hfind) as Hfid.
  unfold Disk.renameSync in Hren.
  destruct (Disk.readFile (disk st) (filePath record)) as [stored|] eqn:Hread;
    [|discriminate].
  destruct (Disk.refused _ _ _ _); [discriminate|].
  injection Hren as Hdisk.
  exists record,
    (set_updatedAt (set_filePath (addCustodyEvent record event) new)
                   (savedAt env 1%nat)),
    stored,
    (String.eqb (hex_of_bytes (createHash node "sha256" stored)) (checksum record)).
  assert (Hnew : Disk.readFile (disk st') new = Some stored)
    by (rewrite <- Hdisk; apply read_write_same).
  split; [exact Hfind|].
  split.
  { rewrite Hdb.
    apply find_replace_at
      with (r := set_updatedAt (addCustodyEvent record event) (savedAt env 0%nat));
      [exact Hfid|].
    apply find_replace_at with (r := record); [exact Hfid | exact Hfind]. }
  simpl. split; [reflexivity|]. split; [reflexivity|]. split; [exact Hread|].
  split; [exact Hnew|].
  unfold verifyFileIntegrity. rewrite Hread, Hnew.
  split; [reflexivity|]. split; [reflexivity|].
  split.
  - intros Hdiff. unfold Disk.existsSync. rewrite <- Hdisk.
    rewrite read_write_other by (intros E; apply Hdiff; now rewrite E).
    now rewrite read_unlink_same.
  - intros p Hp1 Hp2. rewrite <- Hdisk.
    rewrite read_write_other by exact Hp2.
    apply read_unlink_other. exact Hp1.
Qed.

(** When the file system refuses the directory or the rename, POST
    /api/move answers 500 with what was thrown and changes nothing:
    neither the disk nor the record. *)
Lemma move_refused_changes_nothing
      (st : State) (env : Env) (id actor loc : string) (notes : option string)
      (record : ChainOfCustody) (stored : bytes) (e : Exception) :
  id <> EmptyString -> actor <> EmptyString -> loc <> EmptyString ->
  findByFileId (db st) id = Some record ->
  status record = Active ->
  Disk.readFile (disk st) (filePath record) = Some stored ->
  ensure_directory node (disk st) (osFault env 0%nat) (location_dir node loc) = Some e
  \/ (ensure_directory node (disk st) (osFault env 0%nat) (location_dir node loc) = None
      /\ Disk.refused (path_dirname node) (disk st) (osFault env 1%nat)
                      (destination node record loc) = Some e) ->
  post_move node {| mv_fileId := Some id; mv_userId := Some actor;
                    mv_newLocation := Some loc; mv_notes := notes |} env st
  = (st, Json 500 (Error "Failed to move file" (Some e))).
Proof.
  intros Hid Hactor Hloc Hfind Hst Hread Hthrown.
  unfold post_move; cbn [mv_fileId mv_userId mv_newLocation mv_notes].
  destruct id as [|c1 f]; [congruence|].
  destruct actor as [|c2 u]; [congruence|].
  destruct loc as [|c3 l]; [congruence|].
  rewrite Hfind, Hst; cbn [status_eqb negb].
  unfold Disk.existsSync at 1. rewrite Hread; cbn [negb]. cbv zeta.
  fold (location_dir node (String c3 l)).
  destruct Hthrown as [Hdir | [Hdir Hdest]]; rewrite Hdir; [reflexivity|].
  fold (destination node record (String c3 l)).
  unfold Disk.renameSync. rewrite Hread, Hdest. reflexivity.
Qed.

(** X6. POST /api/move renames the file before it saves the record.  When
    the file system lets the directory be made and the file be put at the
    destination, and then the save fails (the database cannot be reached),
    the reply is 500 "Failed to move file" and the record is left as it
    was, but the file has already left the path the record names: the
    bytes are at the destination, and every later download or move of that
    fileId answers 404 for the missing physical file. *)
Theorem move_unsaved_strands_file
        (st : State) (env : Env) (id actor loc : string) (notes : option string)
        (record : ChainOfCustody) (stored : bytes) :
  id <> EmptyString -> actor <> EmptyString -> loc <> EmptyString ->
  findByFileId (db st) id = Some record ->
  status record = Active ->
  Disk.readFile (disk st) (filePath record) = Some stored ->
  ensure_directory node (disk st) (osFault env 0%nat) (location_dir node loc) = None ->
  Disk.refused (path_dirname node) (disk st) (osFault env 1%nat)
               (destination node record loc) = None ->
  dbReachable env 0%nat = false ->
  destination node record loc <> filePath record ->
  exists (st' : State) (e : SaveError),
    post_move node {| mv_fileId := Some id; mv_userId := Some actor;
                      mv_newLocation := Some loc; mv_notes := notes |} env st
    = (st', Json 500 (Error "Failed to move file" (Some (SaveFailed e))))
    /\ db st' = db st
    /\ Disk.readFile (disk st') (filePath record) = None
    /\ Disk.readFile (disk st') (destination node record loc) = Some stored
    /\ (forall (env2 : Env) (actor2 : string) (notes2 : option string),
           actor2 <> EmptyString ->
           get_download node {| dl_fileId := id; dl_userId := Some actor2;
                                dl_notes := notes2 |} env2 st'
           = (st', Json 404 (Error "Physical file not found" None)))
    /\ (forall (env2 : Env) (actor2 loc2 : string) (notes2 : option string),
           actor2 <> EmptyString -> loc2 <> EmptyString ->
           post_move node {| mv_fileId := Some id; mv_userId := Some actor2;
                             mv_newLocation := Some loc2; mv_notes := notes2 |}
                     env2 st'
           = (st', Json 404 (Error "Physical file not found at current location"
                                   None))).
Proof.
  intros Hid Hactor Hloc Hfind Hst Hread Hdir Hdest Hdown Hdiff.
  set (new := destination node record loc) in *.
  set (disk' := Disk.writeFile (Disk.unlinkSync (disk st) (filePath record))
                               new stored).
  assert (Hgone : Disk.readFile disk' (filePath record) = None).
  { unfold disk'. rewrite read_write_other by (intros E; apply Hdiff; now rewrite E).
    apply read_unlink_same. }
  assert (Hsave : forall d, exists e,
             save (dbReachable env 0) (savedAt env 0) (db st) d = inr e).
  { intros d. unfold save. rewrite Hdown.
    destruct (schema_valid d); simpl; eexists; reflexivity. }
  destruct (Hsave (addCustodyEvent record
                     (move_event env actor loc notes record))) as [e He].
  exists {| db := db st; disk := disk' |}, e.
  split.
  { unfold post_move; cbn [mv_fileId mv_userId mv_newLocation mv_notes].
    destruct id as [|c1 f]; [congruence|].
    destruct actor as [|c2 u]; [congruence|].
    destruct loc as [|c3 l]; [congruence|].
    rewrite Hfind, Hst; cbn [status_eqb negb].
    unfold Disk.existsSync at 1. rewrite Hread; cbn [negb]. cbv zeta.
    fold (location_dir node (String c3 l)). rewrite Hdir.
    fold (destination node record (String c3 l)). fold new.
    unfold Disk.renameSync. rewrite Hread, Hdest.
    fold (move_event env (String c2 u) (String c3 l) notes record).
    rewrite He. reflexivity. }
  cbn [db disk].
  split; [reflexivity|]. split; [exact Hgone|].
  split; [apply read_write_same|].
  split.
  - intros env2 actor2 notes2 Ha. unfold get_download; cbn [dl_userId dl_fileId db disk].
    destruct actor2 as [|c u]; [congruence|].
    rewrite Hfind, Hst; cbn [status_eqb negb].
    unfold Disk.existsSync. rewrite Hgone. reflexivity.
  - intros env2 actor2 loc2 notes2 Ha Hl.
    unfold post_move; cbn [mv_fileId mv_userId mv_newLocation db disk].
    destruct id as [|c1 f]; [congruence|].
    destruct actor2 as [|c2 u]; [congruence|].
    destruct loc2 as [|c3 l]; [congruence|].
    rewrite Hfind, Hst; cbn [status_eqb negb].
    unfold Disk.existsSync. rewrite Hgone. reflexivity.
Qed.

Lemma second_last_snoc (c : list CustodyEvent) (e : CustodyEvent) :
  second_last_location (c ++ [e]) = latest_location c.
Proof.
  unfold second_last_location, latest_location.
  rewrite List.rev_app_distr. simpl. reflexivity.
Qed.

(** In every reachable state the most recent event of each chain carries
    the record's currentLocation. *)
Lemma latest_location_is_current (st : State) :
  Reach.reachable node st ->
  List.Forall (fun d => latest_location (custodyChain d) = Some (currentLocation d))
              (db st).
Proof.
  apply (Invariants.reachable_keeps node
           (fun c loc => latest_location c = Some loc)).
  - intros e _ Hl. unfold latest_location; simpl. now rewrite Hl.
  - intros c loc e _ _ _. unfold latest_location.
    rewrite List.rev_app_distr. reflexivity.
  - intros c loc e _ _ Hl. unfold latest_location.
    rewrite List.rev_app_distr. simpl. now rewrite Hl.
Qed.

(** X7. The reply of POST /api/move reads previousLocation off the chain
    (the location of the second to last event after the append), not off
    the currentLocation it has just overwritten.  In every state the routes
    can reach the two agree: previousLocation is the currentLocation the
    record had before the move. *)
Theorem move_reports_previous_location
        (rq : MoveRequest) (env : Env) (st st' : State)
        (id loc : string) (prev : option string) (t : Z) :
  Reach.reachable node st ->
  post_move node rq env st = (st', Json 200 (Moved id prev loc t)) ->
  exists record : ChainOfCustody,
    findByFileId (db st) id = Some record
    /\ prev = Some (currentLocation record).
Proof.
  intros Hreach H. apply move_done in H.
  destruct H as (record & actor & _ & _ & _ & _ & Hfind & _ & _ & Hdb & _).
  cbv zeta in Hdb. destruct Hdb as [_ Hprev].
  exists record. split; [exact Hfind|].
  rewrite Hprev, second_last_snoc.
  exact (proj1 (List.Forall_forall _ _) (latest_location_is_current st Hreach)
               record (find_In _ _ _ Hfind)).
Qed.

End WithRuntime.

(** X5 at the relocation of Scenario A. *)
Lemma move_keeps_bytes_witness :
  exists (record moved : ChainOfCustody) (stored : bytes) (verdict : bool),
    findByFileId (db Scenario.ingested) Scenario.file1 = Some record
    /\ findByFileId (db Scenario.relocated) Scenario.file1 = Some moved
    /\ filePath moved = destination Sample.node record "archive"
    /\ checksum moved = checksum record
    /\ Disk.readFile (disk Scenario.ingested) (filePath record) = Some stored
    /\ Disk.readFile (disk Scenario.relocated) (filePath moved) = Some stored
    /\ verifyFileIntegrity Sample.node (disk Scenario.ingested) (filePath record)
                           (checksum record) = inl verdict
    /\ verifyFileIntegrity Sample.node (disk Scenario.relocated) (filePath moved)
                           (checksum moved) = inl verdict
    /\ (filePath moved <> filePath record ->
        Disk.existsSync (disk Scenario.relocated) (filePath record) = false)
    /\ (forall p : string,
           p <> filePath record -> p <> filePath moved ->
           Disk.readFile (disk Scenario.relocated) p
           = Disk.readFile (disk Scenario.ingested) p).
Proof.
  apply (move_keeps_bytes Sample.node (Scenario.move_to Scenario.file1 "u2" "archive")
           Scenario.later Scenario.ingested Scenario.relocated
           Scenario.file1 "archive" (Some "uploads") 1700000060000).
  vm_compute. reflexivity.
Defined.

(** X6 at the relocation of Scenario A with the database out of reach. *)
Lemma move_unsaved_strands_file_witness :
  exists (st' : State) (e : SaveError),
    post_move Sample.node (Scenario.move_to Scenario.file1 "u2" "archive")
              offline Scenario.ingested
    = (st', Json 500 (Error "Failed to move file" (Some (SaveFailed e))))
    /\ db st' = db Scenario.ingested
    /\ Disk.readFile (disk st') (filePath Scenario.ingested_record) = None
    /\ Disk.readFile (disk st')
          (destination Sample.node Scenario.ingested_record "archive")
       = Some (utf8 "original evidence")
    /\ (forall (env2 : Env) (actor2 : string) (notes2 : option string),
           actor2 <> EmptyString ->
           get_download Sample.node
             {| dl_fileId := Scenario.file1; dl_userId := Some actor2;
                dl_notes := notes2 |} env2 st'
           = (st', Json 404 (Error "Physical file not found" None)))
    /\ (forall (env2 : Env) (actor2 loc2 : string) (notes2 : option string),
           actor2 <> EmptyString -> loc2 <> EmptyString ->
           post_move Sample.node
             {| mv_fileId := Some Scenario.file1; mv_userId := Some actor2;
                mv_newLocation := Some loc2; mv_notes := notes2 |} env2 st'
           = (st', Json 404 (Error "Physical file not found at current location"
                                   None))).
Proof.
  apply (move_unsaved_strands_file Sample.node Scenario.ingested offline
           Scenario.file1 "u2" "archive" None Scenario.ingested_record
           (utf8 "original evidence")).
  - discriminate.
  - discriminate.
  - discriminate.
  - vm_compute. reflexivity.
  - reflexivity.
  - vm_compute. reflexivity.
  - vm_compute. reflexivity.
  - vm_compute. reflexivity.
  - reflexivity.
  - vm_compute. discriminate.
Defined.

(** The relocation of Scenario A when a regular file stands where the
    directory of "archive" would be, and when the destination is on another
    device: 500 with what [renameSync] throws, nothing moved and nothing
    recorded. *)
Example move_refused_by_the_disk :
  post_move Sample.node (Scenario.move_to Scenario.file1 "u2" "archive")
            Scenario.later Scenario.archive_taken
  = (Scenario.archive_taken,
     Json 500 (Error "Failed to move file"
                     (Some (ENOTDIR "rename" Scenario.archive_path))))
  /\ post_move Sample.node (Scenario.move_to Scenario.file1 "u2" "archive")
               (Scenario.across_devices 1700000060000 Scenario.file2)
               Scenario.ingested
     = (Scenario.ingested,
        Json 500 (Error "Failed to move file"
                        (Some (SystemError "EXDEV" "rename" Scenario.archive_path)))).
Proof. split; vm_compute; reflexivity. Qed.

(** X7 at the relocation of Scenario A. *)
Lemma move_reports_previous_location_witness :
  exists record : ChainOfCustody,
    findByFileId (db Scenario.ingested) Scenario.file1 = Some record
    /\ Some "uploads" = Some (currentLocation record).
Proof.
  apply (move_reports_previous_location Sample.node
           (Scenario.move_to Scenario.file1 "u2" "archive")
           Scenario.later Scenario.ingested Scenario.relocated
           Scenario.file1 "archive" (Some "uploads") 1700000060000).
  - apply Reach.reach_step with (st := Scenario.empty).
    + apply Reach.reach_init.
    + apply Reach.step_upload.
  - vm_compute. reflexivity.
Defined.

End Moves.

(* ================================================================= *)
(** ** POST /api/move/batch *)

Module Batch.
Import Model Http Routes MoreRoutes ModelFacts DiskFacts Ledger Runs Notions.



Lemma later_trans (node : Runtime) (a b c : State) :
  later node a b -> later node b c -> later node a c.
Proof.
  intros Hab Hbc. induction Hbc as [|b c d Hbc IH Hstep]; [exact Hab|].
  apply later_step with (st' := c); [now apply IH | exact Hstep].
Qed.


Section WithRuntime.
Variable node : Runtime.







(** A pass that reports success has moved the record of its fileId. *)
Lemma batch_one_success (c2 : ascii) (u l : string) (notes : option string)
      (env : Env) (st st' : State) (id : string) (r : BatchSuccess) :
  batch_one node u (String c2 l) notes env st id = (st', inl r) ->
  ok_fileId r = id /\ ok_newLocation r = String c2 l
  /\ placed (String c2 l) (db st') id.
Proof.
  unfold batch_one.
  destruct (findByFileId (db st) id) as [record|] eqn:Hfind; [|discriminate].
  destruct (negb (status_eqb (status record) Active)); [discriminate|].
  destruct (negb (Disk.existsSync (disk st) (filePath record))); [discriminate|].
  cbv zeta.
  destruct (ensure_directory _ _ _ _); [discriminate|].
  destruct (Disk.renameSync _ _ _ _ _) as [disk'|]; [|discriminate].
  destruct (save (dbReachable env 0) _ _ _) as [db1|e] eqn:S1; [|discriminate].
  destruct (save (dbReachable env 1) _ _ _) as [db2|e] eqn:S2; [|discriminate].
  intros [= <- <-]. repeat split.
  rewrite (save_inl _ _ _ _ _ S2), (save_inl _ _ _ _ _ S1).
  pose proof (find_fileId _ _ _ Hfind) as Hfid.
  eexists. split.
  - cbn [db]. eapply find_replace_at; [exact Hfid|].
    eapply find_replace_at; [exact Hfid | exact Hfind].
  - reflexivity.
Qed.

(** No pass takes a record away from the batch's location. *)
Lemma batch_one_keeps_placed (c2 : ascii) (u l : string) (notes : option string)
      (env : Env) (st : State) (id id' : string) :
  placed (String c2 l) (db st) id' ->
  placed (String c2 l) (db (fst (batch_one node u (String c2 l) notes env st id))) id'.
Proof.
  intros Hplaced. unfold batch_one.
  destruct (findByFileId (db st) id) as [record|] eqn:Hfind; [|exact Hplaced].
  destruct (negb (status_eqb (status record) Active)); [exact Hplaced|].
  destruct (negb (Disk.existsSync (disk st) (filePath record))); [exact Hplaced|].
  cbv zeta.
  destruct (ensure_directory _ _ _ _); [exact Hplaced|].
  destruct (Disk.renameSync _ _ _ _ _) as [disk'|]; [|exact Hplaced].
  pose proof (find_fileId _ _ _ Hfind) as Hfid.
  match goal with
  | |- context [save (dbReachable env 0) ?t ?d ?r1] =>
      assert (Hone : forall db1, save (dbReachable env 0) t d r1 = inl db1 ->
                                 placed (String c2 l) db1 id')
  end.
  { intros db1 S1. rewrite (save_inl _ _ _ _ _ S1).
    destruct (String.eqb_spec id' id) as [->|Hne].
    - eexists. split; [eapply find_replace_at; [exact Hfid | exact Hfind]|].
      reflexivity.
    - destruct Hplaced as (d & Hd & Hl). exists d. split; [|exact Hl].
      rewrite find_replace_other; [exact Hd|]. simpl. congruence. }
  destruct (save (dbReachable env 0) _ _ _) as [db1|e] eqn:S1; [|exact Hplaced].
  specialize (Hone db1 eq_refl).
  destruct (save (dbReachable env 1) _ _ _) as [db2|e] eqn:S2; [|exact Hone].
  cbn [fst db]. rewrite (save_inl _ _ _ _ _ S2).
  destruct (String.eqb_spec id' id) as [->|Hne].
  - destruct Hone as (d1 & Hd1 & _).
    eexists. split; [eapply find_replace_at; [exact Hfid | exact Hd1]|].
    reflexivity.
  - destruct Hone as (d & Hd & Hl). exists d. split; [|exact Hl].
    rewrite find_replace_other; [exact Hd|]. simpl. congruence.
Qed.

Lemma batch_loop_accounts (c2 : ascii) (u l : string) (notes : option string)
      (envs : nat -> Env) (ids : list string) :
  forall (i : nat) (st st' : State) (results : list BatchSuccess)
         (errors : list (string * BatchProblem)) (body : BatchBody),
    batch_loop node u (String c2 l) notes envs i ids st results errors = (st', body) ->
    List.Forall (fun r => ok_newLocation r = String c2 l
                          /\ placed (String c2 l) (db st) (ok_fileId r)) results ->
    exists (new : list BatchSuccess) (bad : list (string * BatchProblem)),
      MoreRoutes.results body = results ++ new
      /\ MoreRoutes.errors body = errors ++ bad
      /\ successful body = List.length (MoreRoutes.results body)
      /\ failed body = List.length (MoreRoutes.errors body)
      /\ Permutation (List.map ok_fileId new ++ List.map fst bad) ids
      /\ List.Forall (fun r => ok_newLocation r = String c2 l
                               /\ placed (String c2 l) (db st') (ok_fileId r))
                     (MoreRoutes.results body).
Proof.
  induction ids as [|id ids IH]; intros i st st' results errors body; simpl.
  - intros [= <- <-] Hres. exists [], []. simpl.
    rewrite !List.app_nil_r. repeat split; auto.
  - intros Hloop Hres.
    assert (Hkept : List.Forall
                      (fun r => ok_newLocation r = String c2 l
                                /\ placed (String c2 l)
                                     (db (fst (batch_one node u (String c2 l) notes
                                                         (envs i) st id)))
                                     (ok_fileId r)) results).
    { revert Hres. apply List.Forall_impl. intros r [Hl Hp].
      split; [exact Hl | now apply batch_one_keeps_placed]. }
    destruct (batch_one node u (String c2 l) notes (envs i) st id)
      as [st1 [r|p]] eqn:Hone; cbn [fst] in Hkept.
    + apply batch_one_success in Hone. destruct Hone as (Hrid & Hrl & Hrp).
      apply IH in Hloop.
      * destruct Hloop as (new & bad & H1 & H2 & H3 & H4 & H5 & H6).
        exists (r :: new), bad. rewrite <- List.app_assoc in H1.
        repeat split; auto. simpl. rewrite Hrid. now apply Permutation_cons.
      * apply List.Forall_app. split; [exact Hkept|].
        constructor; [|constructor]. rewrite Hrid. split; assumption.
    + apply IH in Hloop; [|exact Hkept].
      destruct Hloop as (new & bad & H1 & H2 & H3 & H4 & H5 & H6).
      exists new, ((id, p) :: bad). rewrite <- List.app_assoc in H2.
      repeat split; auto. simpl.
      apply Permutation_sym, Permutation_cons_app, Permutation_sym. exact H5.
Qed.

(** X9. The 200 of POST /api/move/batch accounts for every entry of
    fileIds exactly once: each is reported either in results or in errors
    (also when an id is listed twice), successful and failed are the lengths
    of the two lists and add up to the length of fileIds; every entry of
    results names the newLocation of the request, and after the batch the
    record of each of them is on file with that currentLocation. *)
Theorem batch_move_accounts_for_every_file
        (rq : BatchRequest) (envs : nat -> Env) (st st' : State) (body : BatchBody) :
  post_move_batch node rq envs st = (st', Sent 200 body) ->
  exists (ids : list string) (loc : string),
    b_fileIds rq = Some ids /\ b_newLocation rq = Some loc
    /\ successful body = List.length (MoreRoutes.results body)
    /\ failed body = List.length (MoreRoutes.errors body)
    /\ (successful body + failed body = List.length ids)%nat
    /\ Permutation (List.map ok_fileId (MoreRoutes.results body)
                    ++ List.map fst (MoreRoutes.errors body)) ids
    /\ List.Forall (fun r => ok_newLocation r = loc
                             /\ placed loc (db st') (ok_fileId r))
                   (MoreRoutes.results body).
Proof.
  unfold post_move_batch.
  destruct (b_fileIds rq) as [ids|]; [|discriminate].
  destruct (b_userId rq) as [[|c1 u]|]; try discriminate.
  destruct (b_newLocation rq) as [[|c2 l]|]; try discriminate.
  destruct (batch_loop node (String c1 u) (String c2 l) (b_notes rq) envs 0 ids st
                       [] []) as [st1 body1] eqn:Hloop.
  intros [= <- <-].
  apply batch_loop_accounts in Hloop; [|constructor].
  destruct Hloop as (new & bad & H1 & H2 & H3 & H4 & H5 & H6).
  simpl in H1, H2.
  exists ids, (String c2 l). repeat split; auto.
  - rewrite H3, H4, H1, H2, <- (Permutation_length H5).
    now rewrite List.length_app, !List.length_map.
  - now rewrite H1, H2.
Qed.

End WithRuntime.


(** X9 for the same batch: one success, one "File not found". *)
Lemma batch_move_accounts_for_every_file_witness :
  let reply := post_move_batch Sample.node (BatchScenario.vault BatchScenario.wanted)
                               BatchScenario.ticking Scenario.retrieved in
  let body :=
    {| successful := 1; failed := 1;
       results := [ {| ok_fileId := Scenario.file1; ok_newLocation := "vault" |} ];
       errors := [ (Scenario.file3, FileNotFound) ] |} in
  snd reply = Sent 200 body
  /\ exists (ids : list string) (loc : string),
       Some BatchScenario.wanted = Some ids /\ Some "vault" = Some loc
       /\ successful body = List.length (MoreRoutes.results body)
       /\ failed body = List.length (MoreRoutes.errors body)
       /\ (successful body + failed body = List.length ids)%nat
       /\ Permutation (List.map ok_fileId (MoreRoutes.results body)
                       ++ List.map fst (MoreRoutes.errors body)) ids
       /\ List.Forall (fun r => ok_newLocation r = loc
                                /\ placed loc (db (fst reply)) (ok_fileId r))
                      (MoreRoutes.results body).
Proof.
  cbv zeta. split; [vm_compute; reflexivity|].
  apply (batch_move_accounts_for_every_file Sample.node
           (BatchScenario.vault BatchScenario.wanted) BatchScenario.ticking
           Scenario.retrieved).
  vm_compute. reflexivity.
Defined.

End Batch.

(* ================================================================= *)
(** ** The read-only views: move history and download info *)

Module Views.
Import Model Http Routes MoreRoutes ModelFacts DiskFacts Ledger Runs Notions.

Section WithRuntime.
Variable node : Runtime.

(** In every reachable state a chain is one upload at "uploads" followed
    by events that are not uploads, and the last upload or move of the
    chain carries the currentLocation. *)
Lemma chains_start_with_upload (st : State) :
  Reach.reachable node st ->
  List.Forall
    (fun d =>
       (exists (e : CustodyEvent) (rest : list CustodyEvent),
           custodyChain d = e :: rest /\ action e = Upload
           /\ location e = "uploads"
           /\ List.Forall (fun x => action x <> Upload) rest)
       /\ List.last (List.map location (List.filter move_or_upload (custodyChain d)))
                    EmptyString
          = currentLocation d)
    (db st).
Proof.
  apply (Invariants.reachable_keeps node
           (fun c loc =>
              (exists e rest, c = e :: rest /\ action e = Upload
                              /\ location e = "uploads"
                              /\ List.Forall (fun x => action x <> Upload) rest)
              /\ List.last (List.map location (List.filter move_or_upload c))
                           EmptyString = loc)).
  - intros e Ha Hl. split.
    + exists e, []. repeat split; auto.
    + simpl. unfold move_or_upload. rewrite Ha. simpl. exact Hl.
  - intros c loc e [(e0 & rest & -> & Ha0 & Hl0 & Hrest) _] Ha _. split.
    + exists e0, (rest ++ [e]). repeat split; auto.
      apply List.Forall_app. split; [exact Hrest|].
      constructor; [|constructor]. rewrite Ha. discriminate.
    + assert (Hmo : move_or_upload e = true)
        by (unfold move_or_upload; rewrite Ha; reflexivity).
      rewrite List.filter_app.
      change (List.filter move_or_upload [e])
        with (if move_or_upload e then [e] else []).
      rewrite Hmo, List.map_app. apply List.last_last.
  - intros c loc e [(e0 & rest & -> & Ha0 & Hl0 & Hrest) Hlast] Ha _. split.
    + exists e0, (rest ++ [e]). repeat split; auto.
      apply List.Forall_app. split; [exact Hrest|].
      constructor; [|constructor]. destruct Ha as [-> | ->]; discriminate.
    + assert (Hmo : move_or_upload e = false)
        by (unfold move_or_upload; destruct Ha as [-> | ->]; reflexivity).
      rewrite List.filter_app.
      change (List.filter move_or_upload [e])
        with (if move_or_upload e then [e] else []).
      rewrite Hmo, List.app_nil_r. exact Hlast.
Qed.

(** X10. In every state the routes can reach, the moveHistory of
    GET /api/move/history/:fileId is the upload at "uploads" followed by
    the record's move events, one entry per move and nothing else, and the
    location of its last entry is the currentLocation of the same reply. *)
Theorem move_history_shape (id : string) (st : State) (body : HistoryBody) :
  Reach.reachable node st ->
  get_move_history id st = Sent 200 body ->
  exists (record : ChainOfCustody) (first : HistoryEntry) (moves : list HistoryEntry),
    findByFileId (db st) id = Some record
    /\ hb_moveHistory body = first :: moves
    /\ h_action first = Upload
    /\ h_location first = "uploads"
    /\ List.Forall (fun h => h_action h = Move) moves
    /\ List.length moves = List.length (List.filter is_move (custodyChain record))
    /\ List.last (List.map h_location (hb_moveHistory body)) EmptyString
       = hb_currentLocation body.
Proof.
  intros Hreach. unfold get_move_history.
  destruct (findByFileId (db st) id) as [record|] eqn:Hfind; [|discriminate].
  intros [= <-]. cbn [hb_moveHistory hb_currentLocation].
  pose proof (proj1 (List.Forall_forall _ _) (chains_start_with_upload st Hreach)
                    record (find_In _ _ _ Hfind)) as [(e & rest & Hc & Ha & Hl & Hrest) Hlast].
  assert (Hf : List.filter move_or_upload (custodyChain record)
               = e :: List.filter move_or_upload rest).
  { rewrite Hc. cbn [List.filter]. unfold move_or_upload at 1. now rewrite Ha. }
  assert (Hm : List.filter is_move (custodyChain record) = List.filter is_move rest).
  { rewrite Hc. cbn [List.filter]. unfold is_move at 1. now rewrite Ha. }
  match goal with
  | |- context [List.map ?F (List.filter move_or_upload (custodyChain record))] =>
      assert (Hlast' : List.last
                         (List.map h_location
                            (List.map F (List.filter move_or_upload
                                                     (custodyChain record))))
                         EmptyString = currentLocation record)
        by (rewrite List.map_map; exact Hlast)
  end.
  rewrite Hf in *. cbn [List.map] in *.
  eexists record, _, _. split; [reflexivity|]. split; [reflexivity|].
  cbn [h_action h_location]. rewrite Hm.
  split; [exact Ha|]. split; [exact Hl|]. split; [|split; [|exact Hlast']].
  - apply List.Forall_map. apply List.Forall_forall. intros x Hx. simpl.
    apply List.filter_In in Hx. destruct Hx as [Hin Hmo].
    pose proof (proj1 (List.Forall_forall _ _) Hrest x Hin) as Hnu.
    cbv beta in Hnu. unfold move_or_upload in Hmo.
    destruct (action x); try discriminate; congruence.
  - rewrite List.length_map. f_equal. apply List.filter_ext_in.
    intros x Hin. pose proof (proj1 (List.Forall_forall _ _) Hrest x Hin) as Hnu.
    cbv beta in Hnu. unfold move_or_upload, is_move.
    destruct (action x); try reflexivity; congruence.
Qed.

(** What a streamed reply of GET /api/download/:fileId says about the
    states. *)
Lemma download_done (rq : DownloadRequest) (env : Env) (st st' : State)
      (headers : DownloadHeaders) (b : bytes) :
  get_download node rq env st = (st', FileStream headers b) ->
  exists (record : ChainOfCustody) (actor : string),
    dl_userId rq = Some actor /\ actor <> EmptyString
    /\ findByFileId (db st) (dl_fileId rq) = Some record
    /\ status record = Active
    /\ Disk.readFile (disk st) (filePath record) = Some b
    /\ hex_of_bytes (createHash node "sha256" b) = checksum record
    /\ disk st' = disk st
    /\ db st' = replace_doc
                  (set_updatedAt
                     (addCustodyEvent record
                        {| action := Download; timestamp := now env; userId := actor;
                           location := currentLocation record;
                           ipAddress := ip env; userAgent := agent env;
                           notes := Some (or_else (dl_notes rq) "File downloaded") |})
                     (savedAt env 0%nat))
                  (db st).
Proof.
  unfold get_download.
  destruct (dl_userId rq) as [[|c u]|]; try discriminate.
  destruct (findByFileId (db st) (dl_fileId rq)) as [record|]; [|discriminate].
  destruct (status_eqb (status record) Active) eqn:Hst; cbn [negb]; [|discriminate].
  apply status_eqb_eq in Hst.
  unfold Disk.existsSync, verifyFileIntegrity.
  destruct (Disk.readFile (disk st) (filePath record)) as [stored|] eqn:Hread;
    cbn [negb]; [|discriminate].
  destruct (String.eqb_spec (hex_of_bytes (createHash node "sha256" stored))
                            (checksum record)) as [Hsum|]; [|discriminate].
  cbv zeta.
  destruct (save (dbReachable env 0) _ _ _) as [db1|e] eqn:S1; [|discriminate].
  intros [= <- _ <-].
  exists record, (String c u). rewrite (save_inl _ _ _ _ _ S1).
  repeat split; auto; discriminate.
Qed.

(** X11. GET /api/download/info/:fileId never reports integrityValid for a
    file that is not there, and in a reachable state it predicts the
    download route: for a request that names a user, with the database in
    reach, GET /api/download/:fileId streams the file exactly when the info
    reply has status active and integrityValid true. *)
Theorem download_info_predicts_download
        (id actor : string) (notes : option string) (env : Env) (st : State)
        (body : InfoBody) :
  Reach.reachable node st ->
  get_download_info node id st = Sent 200 body ->
  actor <> EmptyString ->
  dbReachable env 0%nat = true ->
  (i_integrityValid body = true -> i_fileExists body = true)
  /\ ((exists (st' : State) (headers : DownloadHeaders) (b : bytes),
          get_download node {| dl_fileId := id; dl_userId := Some actor;
                               dl_notes := notes |} env st
          = (st', FileStream headers b))
      <-> (i_status body = Active /\ i_integrityValid body = true)).
Proof.
  intros Hreach Hinfo Hactor Hup.
  unfold get_download_info in Hinfo.
  destruct (findByFileId (db st) id) as [record|] eqn:Hfind; [|discriminate].
  pose proof (proj1 (List.Forall_forall _ _)
                    (Invariants.reachable_schema_valid node st Hreach)
                    record (find_In _ _ _ Hfind)) as Hvalid.
  assert (Hloc : nonempty (currentLocation record) = true).
  { unfold schema_valid in Hvalid.
    repeat (apply andb_prop in Hvalid; destruct Hvalid as [Hvalid ?]). assumption. }
  unfold get_download; cbn [dl_userId dl_fileId dl_notes].
  destruct actor as [|c u]; [congruence|].
  rewrite Hfind.
  cbv zeta in Hinfo. unfold Disk.existsSync, verifyFileIntegrity in *.
  destruct (Disk.readFile (disk st) (filePath record)) as [stored|] eqn:Hread.
  - injection Hinfo as <-. cbn [i_integrityValid i_fileExists i_status].
    split; [reflexivity|].
    destruct (status_eqb (status record) Active) eqn:Hst; cbn [negb].
    + apply status_eqb_eq in Hst.
      destruct (String.eqb (hex_of_bytes (createHash node "sha256" stored))
                           (checksum record)) eqn:Hsum.
      * cbv zeta. rewrite Hup, save_ok.
        -- split; [intros _; split; [exact Hst | reflexivity]|].
           intros _. eexists; eexists; eexists. reflexivity.
        -- apply schema_valid_add; [exact Hvalid|].
           unfold event_valid; simpl. exact Hloc.
      * split; [intros (s & h & b & H); discriminate | intros [_ H]; discriminate].
    + split; [intros (s & h & b & H); discriminate|].
      intros [H _]. apply status_eqb_eq in H. congruence.
  - injection Hinfo as <-. cbn [i_integrityValid i_fileExists i_status].
    split; [discriminate|].
    destruct (negb (status_eqb (status record) Active)); cbn [negb];
      (split; [intros (s & h & b & H); discriminate | intros [_ H]; discriminate]).
Qed.

Lemma last_timestamp_snoc (h : list CustodyEvent) (e : CustodyEvent) :
  last_timestamp (h ++ [e]) = Some (timestamp e).
Proof. unfold last_timestamp. now rewrite List.rev_app_distr. Qed.

(** X12. A streamed download is counted: when GET /api/download/:fileId
    streams the file, GET /api/download/info/:fileId for the same fileId
    afterwards reports a downloadCount one higher than before, lastDownload
    at the time of that download, and the same existence and integrity
    verdicts. *)
Theorem download_is_counted
        (rq : DownloadRequest) (env : Env) (st st' : State)
        (headers : DownloadHeaders) (b : bytes) :
  get_download node rq env st = (st', FileStream headers b) ->
  exists before after : InfoBody,
    get_download_info node (dl_fileId rq) st = Sent 200 before
    /\ get_download_info node (dl_fileId rq) st' = Sent 200 after
    /\ i_downloadCount after = S (i_downloadCount before)
    /\ i_lastDownload after = Some (now env)
    /\ i_fileExists before = true /\ i_integrityValid before = true
    /\ i_fileExists after = true /\ i_integrityValid after = true
    /\ i_checksum after = i_checksum before
    /\ i_currentLocation after = i_currentLocation before.
Proof.
  intros H. apply download_done in H.
  destruct H as (record & actor & Hu & Hactor & Hfind & Hst & Hread & Hsum & Hdisk & Hdb).
  pose proof (find_fileId _ _ _ Hfind) as Hfid.
  unfold get_download_info. rewrite Hdb, Hdisk, Hfind.
  erewrite find_replace_at; [|exact Hfid | exact Hfind].
  cbv zeta. cbn [filePath checksum set_updatedAt addCustodyEvent set_chain].
  unfold Disk.existsSync, verifyFileIntegrity. rewrite Hread, Hsum, String.eqb_refl.
  eexists; eexists. split; [reflexivity|]. split; [reflexivity|].
  cbn [i_downloadCount i_lastDownload i_fileExists i_integrityValid i_checksum
       i_currentLocation custodyChain currentLocation location
       set_updatedAt addCustodyEvent set_chain checksum].
  rewrite List.filter_app.
  change (List.filter is_download [?e]) with [e].
  rewrite List.length_app, last_timestamp_snoc. simpl.
  repeat split; try reflexivity.
  - now rewrite Nat.add_1_r.
  - now destruct (nonempty (currentLocation record)).
Qed.

End WithRuntime.

(** X10 at the end of Scenario A: upload, then the move to "archive"; the
    download is not part of the history. *)
Lemma move_history_shape_witness :
  exists (record : ChainOfCustody) (first : HistoryEntry) (moves : list HistoryEntry),
    findByFileId (db Scenario.retrieved) Scenario.file1 = Some record
    /\ hb_moveHistory ViewScenario.retrieved_history = first :: moves
    /\ h_action first = Upload
    /\ h_location first = "uploads"
    /\ List.Forall (fun h => h_action h = Move) moves
    /\ List.length moves = List.length (List.filter is_move (custodyChain record))
    /\ List.last (List.map h_location (hb_moveHistory ViewScenario.retrieved_history))
                 EmptyString
       = hb_currentLocation ViewScenario.retrieved_history.
Proof.
  apply (move_history_shape Sample.node Scenario.file1 Scenario.retrieved
           ViewScenario.retrieved_history).
  - exact Invariants.retrieved_reachable.
  - vm_compute. reflexivity.
Defined.

(** X11 at the end of Scenario A. *)
Lemma download_info_predicts_download_witness :
  let body := ViewScenario.info "archive" 1 (Some 1700000120000) in
  (i_integrityValid body = true -> i_fileExists body = true)
  /\ ((exists (st' : State) (headers : DownloadHeaders) (b : bytes),
          get_download Sample.node
            {| dl_fileId := Scenario.file1; dl_userId := Some "u4";
               dl_notes := None |} Scenario.later Scenario.retrieved
          = (st', FileStream headers b))
      <-> (i_status body = Active /\ i_integrityValid body = true)).
Proof.
  apply (download_info_predicts_download Sample.node Scenario.file1 "u4" None
           Scenario.later Scenario.retrieved
           (ViewScenario.info "archive" 1 (Some 1700000120000))).
  - exact Invariants.retrieved_reachable.
  - vm_compute. reflexivity.
  - discriminate.
  - reflexivity.
Defined.

(** X12 at the retrieval of Scenario A. *)
Lemma download_is_counted_witness :
  exists before after : InfoBody,
    get_download_info Sample.node Scenario.file1 Scenario.relocated = Sent 200 before
    /\ get_download_info Sample.node Scenario.file1 Scenario.retrieved = Sent 200 after
    /\ i_downloadCount after = S (i_downloadCount before)
    /\ i_lastDownload after = Some 1700000120000
    /\ i_fileExists before = true /\ i_integrityValid before = true
    /\ i_fileExists after = true /\ i_integrityValid after = true
    /\ i_checksum after = i_checksum before
    /\ i_currentLocation after = i_currentLocation before.
Proof.
  apply (download_is_counted Sample.node (Scenario.download_by Scenario.file1 "u3")
           ViewScenario.third_request Scenario.relocated Scenario.retrieved
           ViewScenario.streamed_headers (utf8 "original evidence")).
  vm_compute. reflexivity.
Defined.

End Views.

(* ================================================================= *)
(** ** routes/reports.js: what is listed and what is exported *)

Module ReportFacts.
Import Model Http Routes MoreRoutes Reports ModelFacts.

Lemma given_some (x : option string) (v : string) :
  x = Some v -> v <> EmptyString -> UploadList.given x = Some v.
Proof. intros -> Hv. destruct v; [congruence | reflexivity]. Qed.

Lemma In_skip_limit {A : Type} (skip limit : Z) (l page : list A) (x : A) :
  UploadList.skip_limit skip limit l = Some page -> List.In x page -> List.In x l.
Proof.
  unfold UploadList.skip_limit. destruct (skip <? 0); [discriminate|].
  intros [= <-] Hin.
  rewrite <- (List.firstn_skipn (Z.to_nat skip) l). apply List.in_or_app. right.
  rewrite <- (List.firstn_skipn (Z.to_nat (Z.abs limit))
                                (List.skipn (Z.to_nat skip) l)).
  apply List.in_or_app. now left.
Qed.

Lemma length_skip_limit {A : Type} (skip limit : Z) (l page : list A) :
  UploadList.skip_limit skip limit l = Some page ->
  Z.of_nat (List.length page) <= Z.abs limit.
Proof.
  unfold UploadList.skip_limit. destruct (skip <? 0); [discriminate|].
  intros [= <-]. rewrite List.length_firstn. lia.
Qed.

(** X13. Every record that GET /api/reports/files lists is a record of the
    collection that satisfies each filter the query gives: status,
    location (the record's currentLocation), department, caseNumber and
    evidenceType are equal to the value asked for, userId is the userId of at
    least one event of the record's chain, and createdAt lies within the
    date bounds.  The page holds at most |limit| records and totalRecords
    counts the records of the collection that match. *)
Theorem report_files_obey_query (q : ReportQuery) (db : Collection) (body : FilesBody) :
  get_files q db = Sent 200 body ->
  (forall d : ChainOfCustody,
      List.In d (fb_data body) ->
      List.In d db
      /\ (forall s, r_status q = Some s -> s <> EmptyString ->
                    status_string (status d) = s)
      /\ (forall l, r_location q = Some l -> l <> EmptyString ->
                    currentLocation d = l)
      /\ (forall v, r_department q = Some v -> v <> EmptyString ->
                    department (metadata d) = Some v)
      /\ (forall v, r_caseNumber q = Some v -> v <> EmptyString ->
                    caseNumber (metadata d) = Some v)
      /\ (forall v, r_evidenceType q = Some v -> v <> EmptyString ->
                    evidenceType (metadata d) = Some v)
      /\ (forall u, r_userId q = Some u -> u <> EmptyString ->
                    exists e, List.In e (custodyChain d) /\ userId e = u)
      /\ (forall t, r_startDate q = Some (Some t) -> t <= createdAt d)
      /\ (forall t, r_endDate q = Some (Some t) -> createdAt d <= t))
  /\ Z.of_nat (List.length (fb_data body))
     <= Z.abs (Paging.parse_or (r_limit q) 10)
  /\ totalRecords (fb_pagination body)
     = Z.of_nat (List.length (List.filter (matches (buildQueryFilters q)) db)).
Proof.
  unfold get_files. cbv zeta.
  destruct (find (buildQueryFilters q) db) as [found|] eqn:Hfind; [|discriminate].
  destruct (UploadList.skip_limit _ _ _) as [records|] eqn:Hpage; [|discriminate].
  intros [= <-]. cbn [fb_data fb_pagination].
  assert (Hfound : found = List.filter (matches (buildQueryFilters q)) db).
  { unfold find in Hfind.
    destruct (rf_createdAt_gte (buildQueryFilters q)) as [[g|]|];
      destruct (rf_createdAt_lte (buildQueryFilters q)) as [[l|]|];
      congruence. }
  split; [|split].
  - intros d Hd.
    apply (In_skip_limit _ _ _ _ _ Hpage) in Hd.
    apply (Permutation_in _ (PagingFacts.sort_by_perm _ _ _)) in Hd.
    rewrite Hfound in Hd. apply List.filter_In in Hd. destruct Hd as [Hin Hm].
    split; [exact Hin|].
    unfold matches in Hm.
    repeat (apply andb_prop in Hm; destruct Hm as [Hm ?]).
    cbn [buildQueryFilters rf_createdAt_gte rf_createdAt_lte rf_status
         rf_currentLocation rf_department rf_caseNumber rf_evidenceType
         rf_chain_userId] in *.
    repeat split.
    + intros s Hs Hne. rewrite (given_some _ _ Hs Hne) in *.
      now apply String.eqb_eq.
    + intros l Hl Hne. rewrite (given_some _ _ Hl Hne) in *.
      now apply String.eqb_eq.
    + intros v Hv Hne. rewrite (given_some _ _ Hv Hne) in *.
      cbn [holds] in *. unfold UploadList.opt_string_is in *.
      destruct (department (metadata d)) as [x|]; [|discriminate].
      f_equal. now apply String.eqb_eq.
    + intros v Hv Hne. rewrite (given_some _ _ Hv Hne) in *.
      cbn [holds] in *. unfold UploadList.opt_string_is in *.
      destruct (caseNumber (metadata d)) as [x|]; [|discriminate].
      f_equal. now apply String.eqb_eq.
    + intros v Hv Hne. rewrite (given_some _ _ Hv Hne) in *.
      cbn [holds] in *. unfold UploadList.opt_string_is in *.
      destruct (evidenceType (metadata d)) as [x|]; [|discriminate].
      f_equal. now apply String.eqb_eq.
    + intros u Hu Hne. rewrite (given_some _ _ Hu Hne) in *.
      cbn [holds] in *.
      match goal with H : List.existsb _ _ = true |- _ =>
        apply List.existsb_exists in H; destruct H as (e & He & Hue) end.
      exists e. split; [exact He | now apply String.eqb_eq].
    + intros t Ht. rewrite Ht in *. cbn [bound_holds] in *. lia.
    + intros t Ht. rewrite Ht in *. cbn [bound_holds] in *. lia.
  - apply (length_skip_limit _ _ _ _ Hpage).
  - simpl. now rewrite Hfound.
Qed.

Section WithMoment.
Variable format : Z -> string.

Lemma fold_push {A B : Type} (g : A -> B) (l : list A) (acc : list B) :
  List.fold_left (fun acc x => acc ++ [g x]) l acc = acc ++ List.map g l.
Proof.
  revert acc. induction l as [|x l IH]; intros acc; simpl.
  - now rewrite List.app_nil_r.
  - rewrite IH, <- List.app_assoc. reflexivity.
Qed.

(** The nested [forEach] of [flattenCustodyData] visit the records in
    order and, within a record, its events in order. *)
Lemma flatten_flat_map (records : list ChainOfCustody) :
  flattenCustodyData format records
  = List.flat_map (fun r => List.map (row_of format r) (custodyChain r)) records.
Proof.
  unfold flattenCustodyData.
  assert (H : forall acc,
             List.fold_left
               (fun flattened record =>
                  List.fold_left (fun acc event => acc ++ [row_of format record event])
                                 (custodyChain record) flattened)
               records acc
             = acc ++ List.flat_map
                        (fun r => List.map (row_of format r) (custodyChain r)) records).
  { induction records as [|r records IH]; intros acc; simpl.
    - now rewrite List.app_nil_r.
    - rewrite IH, fold_push, <- List.app_assoc. reflexivity. }
  exact (H []).
Qed.

Lemma rows_of_other (d x : ChainOfCustody) :
  fileId x <> fileId d ->
  List.filter (fun r => String.eqb (row_fileId r) (fileId d))
              (List.map (row_of format x) (custodyChain x)) = [].
Proof.
  intros Hne. induction (custodyChain x) as [|e c IH]; simpl; [reflexivity|].
  destruct (String.eqb_spec (fileId x) (fileId d)); [congruence | exact IH].
Qed.

Lemma rows_of_same (d : ChainOfCustody) :
  List.filter (fun r => String.eqb (row_fileId r) (fileId d))
              (List.map (row_of format d) (custodyChain d))
  = List.map (row_of format d) (custodyChain d).
Proof.
  induction (custodyChain d) as [|e c IH]; simpl; [reflexivity|].
  rewrite String.eqb_refl. now rewrite IH.
Qed.

Lemma rows_of_one (records : list ChainOfCustody) (d : ChainOfCustody) :
  List.NoDup (List.map fileId records) -> List.In d records ->
  List.filter (fun r => String.eqb (row_fileId r) (fileId d))
              (List.flat_map (fun r => List.map (row_of format r) (custodyChain r))
                             records)
  = List.map (row_of format d) (custodyChain d).
Proof.
  induction records as [|x records IH]; simpl; [tauto|].
  intros Hnd Hin. inversion Hnd as [|? ? Hx Hnd']; subst.
  rewrite List.filter_app.
  assert (Hnone : forall l, ~ List.In (fileId d) (List.map fileId l) ->
             List.filter (fun r => String.eqb (row_fileId r) (fileId d))
               (List.flat_map (fun r => List.map (row_of format r) (custodyChain r)) l)
             = []).
  { induction l as [|y l IHl]; simpl; [reflexivity|].
    intros Hn. rewrite List.filter_app, rows_of_other, IHl; [reflexivity| |]; tauto. }
  destruct Hin as [->|Hin].
  - rewrite rows_of_same, (Hnone records Hx). apply List.app_nil_r.
  - rewrite rows_of_other, (IH Hnd' Hin); [reflexivity|].
    intros E. apply Hx. rewrite E. now apply List.in_map.
Qed.

Lemma nodup_ids_filter (f : ChainOfCustody -> bool) (db : Collection) :
  List.NoDup (List.map fileId db) -> List.NoDup (List.map fileId (List.filter f db)).
Proof.
  induction db as [|x db IH]; simpl; [trivial|].
  intros Hnd. inversion Hnd as [|? ? Hx Hnd']; subst.
  destruct (f x); simpl; [|now apply IH].
  constructor; [|now apply IH].
  intros Hin. apply Hx. apply List.in_map_iff in Hin.
  destruct Hin as (y & Hy & Hin). apply List.filter_In in Hin.
  apply List.in_map_iff. exists y. tauto.
Qed.

Section WithRuntime.
Variable node : Runtime.

(** X14. In a state the routes can reach, a CSV export of
    GET /api/reports/export/csv holds one row per custody event of each
    matching record and nothing else: X-Total-Records is the number of rows,
    which is the sum of the chain lengths of the matching records and is not
    zero; every row carries the fileId of a matching record; and the rows of
    one fileId, in the order of the export, are that record's chain in
    order. *)
Theorem csv_export_is_the_chains
        (q : ReportQuery) (st : State) (n : nat) (rows : list Row) :
  Reach.reachable node st ->
  get_export_csv format q (db st) = CsvFile n rows ->
  let records := List.filter (matches (buildQueryFilters q)) (db st) in
  find (buildQueryFilters q) (db st) = Some records
  /\ n = List.length rows
  /\ rows <> []
  /\ List.length rows
     = List.list_sum (List.map (fun d => List.length (custodyChain d)) records)
  /\ (forall r : Row, List.In r rows ->
        exists d, List.In d records /\ row_fileId r = fileId d)
  /\ (forall d : ChainOfCustody, List.In d records ->
        List.filter (fun r => String.eqb (row_fileId r) (fileId d)) rows
        = List.map (row_of format d) (custodyChain d)).
Proof.
  intros Hreach Hexport records.
  unfold get_export_csv in Hexport.
  destruct (find (buildQueryFilters q) (db st)) as [found|] eqn:Hfind; [|discriminate].
  assert (Hfound : found = records).
  { unfold records. unfold find in Hfind.
    destruct (rf_createdAt_gte (buildQueryFilters q)) as [[g|]|];
      destruct (rf_createdAt_lte (buildQueryFilters q)) as [[l|]|];
      congruence. }
  subst found.
  assert (Hexp : CsvFile
                   (List.length
                      (List.flat_map
                         (fun r => List.map (row_of format r) (custodyChain r)) records))
                   (List.flat_map
                      (fun r => List.map (row_of format r) (custodyChain r)) records)
                 = CsvFile n rows
                 /\ exists d0, List.In d0 records).
  { rewrite <- Hexport. unfold records in *.
    destruct (List.filter (matches (buildQueryFilters q)) (db st)) as [|d0 rest];
      [discriminate|].
    cbv zeta. rewrite flatten_flat_map. split; [reflexivity|].
    exists d0. now left. }
  destruct Hexp as [Hexp (d0 & Hd0)].
  injection Hexp as Hn Hrows.
  split; [reflexivity|]. split; [now rewrite <- Hrows|].
  split; [|split; [|split]].
  - intros E. rewrite E in Hrows.
    pose proof (proj1 (List.Forall_forall _ _)
                      (Views.chains_start_with_upload node st Hreach) d0) as Hc.
    destruct Hc as [(e & rest & Hc & _) _];
      [unfold records in Hd0; now apply List.filter_In in Hd0|].
    assert (Hin : List.In (row_of format d0 e)
                    (List.flat_map (fun r => List.map (row_of format r) (custodyChain r))
                                   records)).
    { apply List.in_flat_map. exists d0. split; [exact Hd0|].
      rewrite Hc. now left. }
    rewrite Hrows in Hin. exact Hin.
  - rewrite <- Hrows. clear. induction records as [|x l IH]; simpl; [reflexivity|].
    now rewrite List.length_app, List.length_map, IH.
  - intros r Hr. rewrite <- Hrows in Hr. apply List.in_flat_map in Hr.
    destruct Hr as (d & Hd & Hr). apply List.in_map_iff in Hr.
    destruct Hr as (e & <- & _). exists d. split; [exact Hd | reflexivity].
  - intros d Hd. rewrite <- Hrows. apply rows_of_one; [|exact Hd].
    apply nodup_ids_filter. exact (Ledger.reachable_ids_nodup node st Hreach).
Qed.

End WithRuntime.

(** X15. GET /api/reports/export/csv refuses instead of sending an empty
    file: with date bounds that parse, it answers 404 "No records found for
    export" exactly when no record of the collection matches the filters;
    a date bound that does not parse makes it answer 500. *)
Theorem csv_export_refuses_empty (q : ReportQuery) (db : Collection) :
  (r_startDate q <> Some None -> r_endDate q <> Some None ->
   (get_export_csv format q db = NoExport 404 "No records found for export"
    <-> forall d, List.In d db -> matches (buildQueryFilters q) d = false))
  /\ (r_startDate q = Some None \/ r_endDate q = Some None ->
      get_export_csv format q db = NoExport 500 "Failed to export CSV").
Proof.
  unfold get_export_csv, find.
  cbn [buildQueryFilters rf_createdAt_gte rf_createdAt_lte].
  split.
  - intros Hs He.
    assert (Hfind : match r_startDate q, r_endDate q with
                    | Some None, _ | _, Some None => None
                    | _, _ => Some (List.filter (matches (buildQueryFilters q)) db)
                    end = Some (List.filter (matches (buildQueryFilters q)) db)).
    { destruct (r_startDate q) as [[g|]|]; destruct (r_endDate q) as [[l|]|];
        congruence. }
    cbn [buildQueryFilters rf_createdAt_gte rf_createdAt_lte] in Hfind.
    rewrite Hfind.
    destruct (List.filter (matches (buildQueryFilters q)) db) as [|d0 l] eqn:Hf.
    + split; [|reflexivity]. intros _ d Hd.
      destruct (matches (buildQueryFilters q) d) eqn:Hm; [|reflexivity].
      assert (Hin : List.In d (List.filter (matches (buildQueryFilters q)) db))
        by (apply List.filter_In; tauto).
      rewrite Hf in Hin. destruct Hin.
    + split; [discriminate|]. intros Hnone.
      assert (Hin : List.In d0 (List.filter (matches (buildQueryFilters q)) db))
        by (rewrite Hf; now left).
      apply List.filter_In in Hin. destruct Hin as [Hin Hm].
      rewrite (Hnone d0 Hin) in Hm. discriminate.
  - intros [H|H]; rewrite H; [reflexivity|].
    destruct (r_startDate q) as [[g|]|]; reflexivity.
Qed.

(** X23. The CSV and the XML export answer the same query alike: both
    refuse with the same status code (404 when nothing matches, 500 when a
    date bound does not parse) or both send a file.  When they send, they
    carry the same custody events in the same order, file by file, but
    their X-Total-Records headers count different things: the XML export
    counts the matching files, the CSV export counts the events, which is
    the sum of the events under the XML export's files. *)
Theorem exports_agree_but_count_differently
        (toISOString : Z -> string) (q : ReportQuery) (db : Collection) :
  match get_export_xml toISOString q db, get_export_csv format q db with
  | XmlDocument xmlTotal files, CsvFile csvTotal rows =>
      xmlTotal = List.length files
      /\ xmlTotal = List.length (List.filter (matches (buildQueryFilters q)) db)
      /\ csvTotal = List.length rows
      /\ csvTotal
         = List.list_sum (List.map (fun f => List.length (xf_events f)) files)
      /\ List.map (fun r => (row_fileId r, row_action r, row_actionUserId r,
                             row_actionLocation r, row_actionNotes r)) rows
         = List.flat_map
             (fun f => List.map (fun e => (xf_fileId f, xe_action e, xe_userId e,
                                           xe_location e, xe_notes e))
                                (xf_events f))
             files
  | XmlRefused xmlCode _, NoExport csvCode _ =>
      xmlCode = csvCode /\ (xmlCode = 404 \/ xmlCode = 500)
  | _, _ => False
  end.
Proof.
  unfold get_export_xml, get_export_csv.
  destruct (find (buildQueryFilters q) db) as [found|] eqn:Hfind; [|auto].
  assert (Hfound : found = List.filter (matches (buildQueryFilters q)) db).
  { unfold find in Hfind.
    destruct (rf_createdAt_gte (buildQueryFilters q)) as [[g|]|];
      destruct (rf_createdAt_lte (buildQueryFilters q)) as [[l|]|];
      congruence. }
  rewrite <- Hfound. clear Hfind Hfound.
  destruct found as [|d0 found']; [auto|].
  cbv zeta. rewrite flatten_flat_map.
  set (records := d0 :: found').
  split; [now rewrite List.length_map|]. split; [reflexivity|].
  split; [reflexivity|]. split.
  - rewrite List.length_flat_map, List.map_map. f_equal.
    apply List.map_ext. intros d. cbn [xml_file_of xf_events].
    now rewrite !List.length_map.
  - clearbody records. induction records as [|d l IH]; [reflexivity|].
    cbn [List.flat_map List.map]. rewrite List.map_app, IH. f_equal.
    cbn [xml_file_of xf_events xf_fileId]. rewrite !List.map_map. reflexivity.
Qed.

End WithMoment.

(** X13 at the end of Scenario A, for the files u2 handled that are now in
    "archive". *)
Lemma report_files_obey_query_witness :
  let q := ReportScenario.handled_by_u2 in
  let body := {| fb_data := db Scenario.retrieved;
                 fb_pagination := Paging.pagination 1 10 1 |} in
  (forall d : ChainOfCustody,
      List.In d (fb_data body) ->
      List.In d (db Scenario.retrieved)
      /\ (forall s, r_status q = Some s -> s <> EmptyString ->
                    status_string (status d) = s)
      /\ (forall l, r_location q = Some l -> l <> EmptyString ->
                    currentLocation d = l)
      /\ (forall v, r_department q = Some v -> v <> EmptyString ->
                    department (metadata d) = Some v)
      /\ (forall v, r_caseNumber q = Some v -> v <> EmptyString ->
                    caseNumber (metadata d) = Some v)
      /\ (forall v, r_evidenceType q = Some v -> v <> EmptyString ->
                    evidenceType (metadata d) = Some v)
      /\ (forall u, r_userId q = Some u -> u <> EmptyString ->
                    exists e, List.In e (custodyChain d) /\ userId e = u)
      /\ (forall t, r_startDate q = Some (Some t) -> t <= createdAt d)
      /\ (forall t, r_endDate q = Some (Some t) -> createdAt d <= t))
  /\ Z.of_nat (List.length (fb_data body))
     <= Z.abs (Paging.parse_or (r_limit q) 10)
  /\ totalRecords (fb_pagination body)
     = Z.of_nat (List.length (List.filter (matches (buildQueryFilters q))
                                          (db Scenario.retrieved))).
Proof.
  apply (report_files_obey_query ReportScenario.handled_by_u2 (db Scenario.retrieved)
           {| fb_data := db Scenario.retrieved;
              fb_pagination := Paging.pagination 1 10 1 |}).
  vm_compute. reflexivity.
Defined.

(** X14 at the end of Scenario A: three rows, for upload, move and
    download. *)
Lemma csv_export_is_the_chains_witness :
  let q := ReportScenario.everything in
  let rows := flattenCustodyData ReportScenario.clock (db Scenario.retrieved) in
  let records := List.filter (matches (buildQueryFilters q)) (db Scenario.retrieved) in
  List.map row_action rows = [Upload; Move; Download]
  /\ find (buildQueryFilters q) (db Scenario.retrieved) = Some records
  /\ 3%nat = List.length rows
  /\ rows <> []
  /\ List.length rows
     = List.list_sum (List.map (fun d => List.length (custodyChain d)) records)
  /\ (forall r : Row, List.In r rows ->
        exists d, List.In d records /\ row_fileId r = fileId d)
  /\ (forall d : ChainOfCustody, List.In d records ->
        List.filter (fun r => String.eqb (row_fileId r) (fileId d)) rows
        = List.map (row_of ReportScenario.clock d) (custodyChain d)).
Proof.
  cbv zeta. split; [vm_compute; reflexivity|].
  apply (csv_export_is_the_chains ReportScenario.clock Sample.node
           ReportScenario.everything Scenario.retrieved 3
           (flattenCustodyData ReportScenario.clock (db Scenario.retrieved))).
  - exact Invariants.retrieved_reachable.
  - vm_compute. reflexivity.
Defined.

(** Nothing is archived at the end of Scenario A: the export answers 404. *)
Example csv_export_of_nothing :
  get_export_csv ReportScenario.clock ReportScenario.archived_only
                 (db Scenario.retrieved)
  = NoExport 404 "No records found for export".
Proof. vm_compute. reflexivity. Qed.

End ReportFacts.

(* ================================================================= *)
(** ** The hasher: several algorithms, manifests, tracked movement *)

Module Manifests.
Import HashGenerator HashGeneratorMore.

Lemma get_put_same {V : Type} (m : list (string * V)) (k : string) (v : V) :
  get (put m k v) k = Some v.
Proof.
  induction m as [|[k' v'] m IH]; simpl.
  - now rewrite String.eqb_refl.
  - destruct (String.eqb k' k) eqn:E; simpl.
    + now rewrite String.eqb_refl.
    + now rewrite E.
Qed.

Lemma get_put_other {V : Type} (m : list (string * V)) (k k' : string) (v : V) :
  k' <> k -> get (put m k v) k' = get m k'.
Proof.
  intros Hne. induction m as [|[k0 v0] m IH]; simpl.
  - destruct (String.eqb_spec k k'); [congruence | reflexivity].
  - destruct (String.eqb_spec k0 k) as [->|Hk]; simpl.
    + destruct (String.eqb_spec k k'); [congruence | reflexivity].
    + now rewrite IH.
Qed.

Lemma In_put {V : Type} (m : list (string * V)) (k : string) (v : V)
      (entry : string * V) :
  List.In entry (put m k v) -> entry = (k, v) \/ List.In entry m.
Proof.
  induction m as [|[k0 v0] m IH]; simpl.
  - intuition congruence.
  - destruct (String.eqb k0 k); simpl; intros [H|H]; auto.
    destruct (IH H); auto.
Qed.

Lemma keys_put {V : Type} (m : list (string * V)) (k k' : string) (v : V) :
  List.In k' (List.map fst (put m k v)) <-> k' = k \/ List.In k' (List.map fst m).
Proof.
  induction m as [|[k0 v0] m IH]; simpl.
  - intuition congruence.
  - destruct (String.eqb_spec k0 k) as [->|Hk]; simpl.
    + intuition congruence.
    + rewrite IH. intuition congruence.
Qed.

Lemma nodup_put {V : Type} (m : list (string * V)) (k : string) (v : V) :
  List.NoDup (List.map fst m) -> List.NoDup (List.map fst (put m k v)).
Proof.
  induction m as [|[k0 v0] m IH]; simpl; intros Hnd.
  - repeat constructor. simpl. tauto.
  - inversion Hnd as [|? ? Hk0 Hnd']; subst.
    destruct (String.eqb_spec k0 k) as [->|Hk]; simpl.
    + now constructor.
    + constructor; [|now apply IH].
      rewrite keys_put. intros [E|Hin]; [congruence | contradiction].
Qed.

(** An object filled key by key, each key with a value computed from it. *)
Section Filling.
Variables (K V : Type) (key : K -> string) (value : K -> V).

Local Abbreviation fill := (List.fold_left (fun m x => put m (key x) (value x))).

Lemma fill_keys (items : list K) :
  forall (acc : list (string * V)) (k : string),
    List.In k (List.map fst (fill items acc))
    <-> List.In k (List.map key items) \/ List.In k (List.map fst acc).
Proof.
  induction items as [|x items IH]; intros acc k; simpl.
  - tauto.
  - rewrite IH, keys_put. intuition congruence.
Qed.

Lemma fill_nodup (items : list K) :
  forall acc : list (string * V),
    List.NoDup (List.map fst acc) -> List.NoDup (List.map fst (fill items acc)).
Proof.
  induction items as [|x items IH]; intros acc Hnd; simpl; [exact Hnd|].
  apply IH. now apply nodup_put.
Qed.

Lemma fill_get_outside (items : list K) :
  forall (acc : list (string * V)) (k : string),
    ~ List.In k (List.map key items) -> get (fill items acc) k = get acc k.
Proof.
  induction items as [|x items IH]; intros acc k Hout; simpl; [reflexivity|].
  simpl in Hout. rewrite IH by tauto.
  apply get_put_other. intros E. apply Hout. now left.
Qed.

(** When equal keys carry equal values, a key that was filled holds its
    value. *)
Lemma fill_get (items : list K) :
  (forall x y, List.In x items -> List.In y items -> key x = key y ->
               value x = value y) ->
  forall (acc : list (string * V)) (x : K),
    List.In x items -> get (fill items acc) (key x) = Some (value x).
Proof.
  induction items as [|y items IH]; intros Hsame acc x Hin; simpl; [destruct Hin|].
  destruct (List.in_dec String.string_dec (key x) (List.map key items)) as [Hlater|Hlast].
  - apply List.in_map_iff in Hlater. destruct Hlater as (z & Hz & Hzin).
    rewrite <- Hz, (Hsame x z) by (simpl; auto).
    apply IH; [|exact Hzin].
    intros a b Ha Hb. apply Hsame; simpl; auto.
  - rewrite fill_get_outside by exact Hlast.
    destruct Hin as [->|Hin]; [apply get_put_same|].
    exfalso. apply Hlast. now apply List.in_map.
Qed.

Lemma fill_In (items : list K) :
  forall (acc : list (string * V)) (entry : string * V),
    List.In entry (fill items acc) ->
    (exists x, List.In x items /\ entry = (key x, value x)) \/ List.In entry acc.
Proof.
  induction items as [|y items IH]; intros acc entry Hin; simpl in *; [tauto|].
  apply IH in Hin. destruct Hin as [(x & Hx & He)|Hin].
  - left. exists x. tauto.
  - apply In_put in Hin. destruct Hin as [->|Hin]; [|tauto].
    left. exists y. tauto.
Qed.

(** Filling the own properties: the key "__proto__" is passed over. *)
Lemma fill_assign (items : list K) :
  forall acc : list (string * V),
    List.fold_left (fun m x => assign m (key x) (value x)) items acc
    = fill (List.filter (fun x => own_key (key x)) items) acc.
Proof.
  induction items as [|x items IH]; intros acc; simpl; [reflexivity|].
  unfold assign at 2. destruct (own_key (key x)); simpl; apply IH.
Qed.

End Filling.

Lemma own_key_true (k : string) : own_key k = true <-> k <> "__proto__".
Proof.
  unfold own_key. destruct (String.eqb_spec k "__proto__"); simpl; split;
    congruence.
Qed.

Section WithRuntime.
Variable node : Runtime.

(** X16. generateMultipleHashes answers for each algorithm on its own.
    The own properties of its result are the listed algorithms other than
    "__proto__", each once however often it is listed; the value under an
    algorithm is exactly the outcome of generateFileHash for it (the
    digest, or the error of an unsupported algorithm or an unreadable file,
    which does not stop the others); an algorithm that is not listed is not
    a key; and "__proto__" is never one, listed or not: the assignment under
    that name stores nothing.  For a file holding the UTF-8 bytes of a text
    the values are those of generateTextHash on the text. *)
Theorem multiple_hashes_by_algorithm
        (fs : Disk.FS) (filePath : string) (algorithms : list string)
        (algorithm : string) :
  let results := generateMultipleHashes node fs filePath algorithms in
  (List.In algorithm algorithms /\ algorithm <> "__proto__" ->
   get results algorithm = Some (fileHash node fs filePath algorithm))
  /\ (~ List.In algorithm algorithms -> get results algorithm = None)
  /\ get results "__proto__" = None
  /\ (forall key : string,
         List.In key (List.map fst results)
         <-> List.In key algorithms /\ key <> "__proto__")
  /\ List.NoDup (List.map fst results)
  /\ (forall content : string,
         Disk.readFile fs filePath = Some (utf8 content) ->
         fileHash node fs filePath algorithm = generateTextHash node content algorithm).
Proof.
  intros results. unfold results, generateMultipleHashes.
  rewrite (fill_assign string (string + Failure) (fun a => a)
             (fun a => fileHash node fs filePath a) algorithms []).
  set (kept := List.filter (fun a => own_key a) algorithms).
  assert (Hkept : forall a, List.In a kept <-> List.In a algorithms /\ a <> "__proto__").
  { intros a. unfold kept. rewrite List.filter_In, own_key_true. tauto. }
  split; [|split; [|split; [|split; [|split]]]].
  - intros Hin. apply Hkept in Hin.
    apply (fill_get string (string + Failure) (fun a => a)
                    (fun a => fileHash node fs filePath a) kept);
      [intros x y _ _ ->; reflexivity | exact Hin].
  - intros Hout.
    rewrite (fill_get_outside string (string + Failure) (fun a => a)
               (fun a => fileHash node fs filePath a) kept [] algorithm);
      [reflexivity | rewrite List.map_id, Hkept; tauto].
  - rewrite (fill_get_outside string (string + Failure) (fun a => a)
               (fun a => fileHash node fs filePath a) kept [] "__proto__");
      [reflexivity | rewrite List.map_id, Hkept; tauto].
  - intros key.
    pose proof (fill_keys string (string + Failure) (fun a => a)
                  (fun a => fileHash node fs filePath a) kept [] key) as Hk.
    cbv zeta in Hk. rewrite List.map_id in Hk. simpl in Hk.
    rewrite <- Hkept. tauto.
  - apply (fill_nodup string (string + Failure) (fun a => a)
             (fun a => fileHash node fs filePath a) kept []). constructor.
  - intros content Hread. unfold fileHash, generateTextHash. now rewrite Hread.
Qed.

(** Four algorithms and "__proto__" asked of the example file: the result
    has the four as its keys. *)
Example multiple_hashes_skip_proto :
  List.map fst (generateMultipleHashes node [("/f", utf8 "abc")] "/f"
                  ["md5"; "__proto__"; "sha1"; "sha256"; "md5"; "sha512"])
  = ["md5"; "sha1"; "sha256"; "sha512"].
Proof. reflexivity. Qed.

Lemma filter_none {A : Type} (f : A -> bool) (l : list A) :
  (forall x, List.In x l -> f x = false) -> List.filter f l = [].
Proof.
  induction l as [|x l IH]; simpl; intros H; [reflexivity|].
  rewrite (H x) by now left. apply IH. intros y Hy. apply H. now right.
Qed.

Lemma filter_all {A : Type} (f : A -> bool) (l : list A) :
  (forall x, List.In x l -> f x = true) -> List.filter f l = l.
Proof.
  induction l as [|x l IH]; simpl; intros H; [reflexivity|].
  rewrite (H x) by now left. f_equal. apply IH. intros y Hy. apply H. now right.
Qed.

Lemma keys_injective {V : Type} (m : list (string * V)) (x y : string * V) :
  List.NoDup (List.map fst m) -> List.In x m -> List.In y m -> fst x = fst y -> x = y.
Proof.
  induction m as [|z m IH]; simpl; [tauto|].
  intros Hnd Hx Hy Hk. inversion Hnd as [|? ? Hz Hnd']; subst.
  destruct Hx as [->|Hx]; destruct Hy as [->|Hy]; auto.
  - exfalso. apply Hz. rewrite Hk. now apply List.in_map.
  - exfalso. apply Hz. rewrite <- Hk. now apply List.in_map.
Qed.

(** Each verdict is counted in exactly one of the three counters. *)
Lemma verdicts_partition (details : list Detail) :
  (List.length (List.filter is_verified details)
   + List.length (List.filter is_failed details)
   + List.length (List.filter is_missing details) = List.length details)%nat.
Proof.
  induction details as [|d l IH]; simpl; [reflexivity|].
  destruct d; simpl; lia.
Qed.

(** The loop of verifyManifest, from any point on. *)
Lemma verify_loop (fs : Disk.FS) (algorithm : string)
      (entries : list (string * ManifestEntry)) :
  forall results : Verification,
    let verdict := fun entry : string * ManifestEntry =>
                     verify_entry node fs algorithm (fst entry) (snd entry) in
    let final :=
      List.fold_left
        (fun results entry =>
           let d := verify_entry node fs algorithm (fst entry) (snd entry) in
           {| v_algorithm := v_algorithm results;
              v_verifiedAt := v_verifiedAt results;
              v_totalFiles := v_totalFiles results;
              v_verified := bump (is_verified d) (v_verified results);
              v_failed := bump (is_failed d) (v_failed results);
              v_missing := bump (is_missing d) (v_missing results);
              v_details := put (v_details results) (fst entry) d |})
        entries results in
    v_algorithm final = v_algorithm results
    /\ v_verifiedAt final = v_verifiedAt results
    /\ v_totalFiles final = v_totalFiles results
    /\ v_verified final
       = (v_verified results
          + List.length (List.filter is_verified (List.map verdict entries)))%nat
    /\ v_failed final
       = (v_failed results
          + List.length (List.filter is_failed (List.map verdict entries)))%nat
    /\ v_missing final
       = (v_missing results
          + List.length (List.filter is_missing (List.map verdict entries)))%nat
    /\ v_details final
       = List.fold_left (fun m entry => put m (fst entry) (verdict entry))
                        entries (v_details results).
Proof.
  induction entries as [|entry entries IH]; intros results verdict; simpl.
  - repeat split; lia.
  - match goal with
    | |- context [List.fold_left _ entries ?r] => specialize (IH r)
    end.
    cbv zeta in IH. destruct IH as (H1 & H2 & H3 & H4 & H5 & H6 & H7).
    rewrite H1, H2, H3, H4, H5, H6, H7. cbn [v_algorithm v_verifiedAt v_totalFiles
      v_verified v_failed v_missing v_details].
    unfold verdict.
    destruct (verify_entry node fs algorithm (fst entry) (snd entry));
      simpl; repeat split; lia.
Qed.


(** What generateManifest records for a path. *)
Lemma manifest_entries (now : Z) (mtime : string -> Z) (fs : Disk.FS)
      (filePaths : list string) (algorithm : string) :
  let entry_of := fun filePath =>
                    match Disk.readFile fs filePath with
                    | None => Errored (NoSuchFile filePath)
                    | Some b =>
                        match fileHash node fs filePath algorithm with
                        | inl hash => Hashed hash (Z.of_nat (List.length b))
                                             (mtime filePath)
                        | inr e => Errored e
                        end
                    end in
  let files := m_files (generateManifest node now mtime fs filePaths algorithm) in
  files
  = List.fold_left (fun m p => put m p (entry_of p))
                   (List.filter own_key filePaths) []
  /\ List.NoDup (List.map fst files)
  /\ (forall p, List.In p (List.map fst files)
                <-> List.In p filePaths /\ p <> "__proto__")
  /\ (forall entry, List.In entry files ->
         List.In (fst entry) filePaths /\ snd entry = entry_of (fst entry)).
Proof.
  intros entry_of files. unfold files, generateManifest. cbn [m_files].
  set (built := List.fold_left _ filePaths []).
  assert (Hbuilt : built
                   = List.fold_left (fun m p => put m p (entry_of p))
                                    (List.filter own_key filePaths) [])
    by exact (fill_assign string ManifestEntry (fun p => p) entry_of filePaths []).
  rewrite Hbuilt. clear built Hbuilt.
  set (kept := List.filter own_key filePaths).
  assert (Hkept : forall p, List.In p kept <-> List.In p filePaths /\ p <> "__proto__").
  { intros p. unfold kept. rewrite List.filter_In, own_key_true. tauto. }
  split; [reflexivity|]. split; [|split].
  - apply (fill_nodup string ManifestEntry (fun p => p) entry_of kept []).
    constructor.
  - intros p.
    pose proof (fill_keys string ManifestEntry (fun p => p) entry_of kept [] p)
      as Hk.
    cbv zeta in Hk. rewrite List.map_id in Hk. simpl in Hk.
    rewrite <- Hkept. tauto.
  - intros entry Hin.
    apply (fill_In string ManifestEntry (fun p => p) entry_of kept [] entry)
      in Hin.
    destruct Hin as [(x & Hx & ->)|[]]. apply Hkept in Hx. simpl. tauto.
Qed.

(** X18. A manifest checked against the disk it was generated from never
    reports a file missing or failed for its content: every listed path
    other than "__proto__" is one entry however often it was listed, so
    totalFiles is the number of distinct such paths; a path listed as
    "__proto__" leaves no entry and gets no verdict; a path that could be
    read under a supported algorithm is verified, a path that could not be
    read (or any path under an unsupported algorithm) is an error entry
    counted as failed; with every path readable and the algorithm
    supported, verified equals totalFiles. *)
Theorem manifest_round_trip
        (now later : Z) (mtime : string -> Z) (fs : Disk.FS)
        (filePaths : list string) (algorithm : string) :
  let manifest := generateManifest node now mtime fs filePaths algorithm in
  let results := verifyManifest node later fs manifest in
  v_missing results = 0%nat
  /\ v_totalFiles results
     = List.length (List.nodup String.string_dec (List.filter own_key filePaths))
  /\ (v_verified results + v_failed results = v_totalFiles results)%nat
  /\ get (v_details results) "__proto__" = None
  /\ (forall filePath : string,
         List.In filePath filePaths /\ filePath <> "__proto__" ->
         get (v_details results) filePath
         = Some (match Disk.readFile fs filePath with
                 | None => DetailError (NoSuchFile filePath)
                 | Some b =>
                     if supported algorithm
                     then DetailVerified (hex_of_bytes (createHash node algorithm b))
                     else DetailError (UnsupportedAlgorithm algorithm)
                 end))
  /\ (supported algorithm = true ->
      (forall filePath, List.In filePath filePaths ->
                        Disk.readFile fs filePath <> None) ->
      v_verified results = v_totalFiles results /\ v_failed results = 0%nat).
Proof.
  intros manifest results.
  pose proof (manifest_entries now mtime fs filePaths algorithm) as Hentries.
  cbv zeta in Hentries. fold manifest in Hentries.
  destruct Hentries as (_ & Hnd & Hkeys & Hown).
  set (verdict := fun entry : string * ManifestEntry =>
                    verify_entry node fs algorithm (fst entry) (snd entry)).
  set (own := fun filePath : string =>
                match Disk.readFile fs filePath with
                | None => DetailError (NoSuchFile filePath)
                | Some b =>
                    if supported algorithm
                    then DetailVerified (hex_of_bytes (createHash node algorithm b))
                    else DetailError (UnsupportedAlgorithm algorithm)
                end).
  assert (Hverdict : forall entry, List.In entry (m_files manifest) ->
                                   verdict entry = own (fst entry)).
  { intros [p e] Hin. destruct (Hown _ Hin) as [_ He]. cbn [fst snd] in *.
    unfold verdict, own, verify_entry. cbn [fst snd]. rewrite He.
    unfold Disk.existsSync, verifyFileIntegrity, fileHash.
    destruct (Disk.readFile fs p) as [b|] eqn:Hread; [|reflexivity].
    destruct (supported algorithm); cbn [negb]; [|reflexivity].
    now rewrite String.eqb_refl. }
  unfold results, verifyManifest.
  match goal with
  | |- context [List.fold_left _ _ ?r] =>
      pose proof (verify_loop fs (m_algorithm manifest) (m_files manifest) r) as H
  end.
  cbv zeta in H. destruct H as (H1 & H2 & H3 & H4 & H5 & H6 & H7).
  rewrite H3, H4, H5, H6, H7.
  cbn [v_algorithm v_totalFiles v_verified v_failed v_missing v_details Nat.add].
  change (m_algorithm manifest) with algorithm. fold verdict.
  assert (Hmap : List.map verdict (m_files manifest)
                 = List.map own (List.map fst (m_files manifest))).
  { rewrite List.map_map. apply List.map_ext_in. exact Hverdict. }
  assert (Hnomiss : List.filter is_missing (List.map verdict (m_files manifest)) = []).
  { apply filter_none. intros d Hd. apply List.in_map_iff in Hd.
    destruct Hd as (entry & <- & Hentry). rewrite (Hverdict _ Hentry). unfold own.
    destruct (Disk.readFile fs (fst entry)); [destruct (supported algorithm)|];
      reflexivity. }
  assert (Hlen : List.length (m_files manifest)
                 = List.length (List.nodup String.string_dec
                                           (List.filter own_key filePaths))).
  { rewrite <- (List.length_map fst). apply Permutation_length.
    apply NoDup_Permutation; [exact Hnd | apply List.NoDup_nodup|].
    intros p. rewrite List.nodup_In, List.filter_In, own_key_true. apply Hkeys. }
  split; [now rewrite Hnomiss|]. split; [exact Hlen|]. split; [|split; [|split]].
  - pose proof (verdicts_partition (List.map verdict (m_files manifest))) as Hp.
    rewrite Hnomiss, List.length_map in Hp. cbn [List.length] in Hp. lia.
  - refine (fill_get_outside (string * ManifestEntry) Detail fst verdict
              (m_files manifest) [] "__proto__" _).
    intros Hin. apply Hkeys in Hin. now destruct Hin.
  - intros filePath Hin.
    apply Hkeys in Hin. apply List.in_map_iff in Hin.
    destruct Hin as ([p e] & Hp & Hin). cbn [fst] in Hp. subst p.
    pose proof (fill_get (string * ManifestEntry) Detail fst verdict
                  (m_files manifest)
                  (fun x y Hx Hy Hk =>
                     f_equal _ (keys_injective (m_files manifest) x y Hnd Hx Hy Hk))
                  [] (filePath, e) Hin) as Hget.
    cbv zeta in Hget. unfold verdict in Hget. cbn [fst snd] in Hget.
    unfold verdict. rewrite Hget. f_equal.
    pose proof (Hverdict _ Hin) as Hv. unfold verdict in Hv. cbn [fst snd] in Hv.
    exact Hv.
  - intros Hsup Hall.
    assert (Hallv : List.filter is_verified (List.map verdict (m_files manifest))
                    = List.map verdict (m_files manifest)
                    /\ List.filter is_failed (List.map verdict (m_files manifest)) = []).
    { assert (Hgood : forall d, List.In d (List.map verdict (m_files manifest)) ->
                                is_verified d = true /\ is_failed d = false).
      { intros d Hd. apply List.in_map_iff in Hd.
        destruct Hd as (entry & <- & Hentry). rewrite (Hverdict _ Hentry). unfold own.
        rewrite Hsup.
        destruct (Disk.readFile fs (fst entry)) eqn:Hread; [split; reflexivity|].
        exfalso. apply (Hall (fst entry)); [|exact Hread].
        apply (Hkeys (fst entry)). now apply List.in_map. }
      split; [apply filter_all | apply filter_none]; intros d Hd; now apply Hgood. }
    destruct Hallv as [Hv Hf]. rewrite Hv, Hf, List.length_map. split; reflexivity.
Qed.

(** A manifest of one file listed twice and of "__proto__": one entry. *)
Example manifest_skips_proto :
  let fs := [("/f", utf8 "abc")] in
  let manifest :=
    generateManifest node 0 (fun _ => 0) fs ["/f"; "__proto__"; "/f"] "sha256" in
  List.map fst (m_files manifest) = ["/f"]
  /\ v_totalFiles (verifyManifest node 1 fs manifest) = 1%nat.
Proof. split; reflexivity. Qed.


(** X20. trackFileMovement records the move in the audit log but not in
    the custody database.  For a file that is tracked and can be read it
    returns true, whether or not the bytes still have the digest of the last
    custody entry; the database it saves is the copy it loaded before
    addToCustodyChain ran, so the file's custodyChain is left exactly as it
    was (the 'moved' entry written by addToCustodyChain is overwritten) with
    only currentPath set to the new path, while audit-log.json gains the one
    'moved' event with the file's current sha256 digest.  For a file that is
    not tracked or cannot be read it returns false and changes nothing. *)
Theorem track_movement_forgets_move
        (env : Env) (st : Tracked) (filePath newPath notes : string) :
  let fileId := generateFileId node filePath in
  (lookup (files (base st)) fileId = None
   \/ Disk.readFile (disk (base st)) filePath = None ->
   trackFileMovement node env st filePath newPath notes = (st, false))
  /\ (forall (f : FileEntry) (b : bytes),
         lookup (files (base st)) fileId = Some f ->
         Disk.readFile (disk (base st)) filePath = Some b ->
         exists st' : Tracked,
           trackFileMovement node env st filePath newPath notes = (st', true)
           /\ files (base st') = files (base st)
           /\ chain_at (base st') fileId = custodyChain f
           /\ auditLog (base st')
              = auditLog (base st)
                ++ [ {| a_id := hg_auditId env; a_timestamp := hg_now env;
                        a_action := "moved"; a_fileId := fileId;
                        a_filePath := filePath;
                        a_hash := hex_of_bytes (createHash node "sha256" b);
                        a_algorithm := "sha256";
                        a_notes := ("File moved from " ++ filePath ++ " to "
                                    ++ newPath ++ ". " ++ notes)%string |} ]
           /\ get (currentPath st') fileId = Some newPath
           /\ (forall other, other <> fileId ->
                             get (currentPath st') other = get (currentPath st) other)
           /\ disk (base st') = disk (base st)).
Proof.
  intros fileId. unfold trackFileMovement. fold fileId. cbv zeta.
  unfold fileHash, addToCustodyChain.
  change (negb (supported "sha256")) with false. cbv iota.
  split.
  - intros [Hnone|Hnone].
    + now rewrite Hnone.
    + rewrite Hnone. now destruct (lookup (files (base st)) fileId).
  - intros f b Hf Hb. rewrite Hf, Hb. cbv zeta.
    eexists. split; [reflexivity|]. cbn [base files auditLog disk currentPath].
    split; [reflexivity|]. split; [unfold chain_at; cbn [files]; now rewrite Hf|].
    split; [reflexivity|]. split; [apply get_put_same|].
    split; [|reflexivity].
    intros other Hne. now apply get_put_other.
Qed.

End WithRuntime.


(** X20 when the file was rewritten after its hash was recorded: the move
    is still tracked, and the custody chain keeps its single entry. *)
Lemma track_movement_forgets_move_witness :
  exists st' : Tracked,
    trackFileMovement Sample.node (Scenario.cli_env 1700000100000 "entry-2" "audit-2")
                      ManifestScenario.rewritten Scenario.cli_path
                      "/srv/vault/evidence.txt" "to the vault"
    = (st', true)
    /\ files (base st') = files ManifestScenario.hashed_once
    /\ List.map action (chain_at (base st') (generateFileId Sample.node Scenario.cli_path))
       = ["hash_generated"]
    /\ List.map a_action (auditLog (base st')) = ["hash_generated"; "moved"]
    /\ get (currentPath st') (generateFileId Sample.node Scenario.cli_path)
       = Some "/srv/vault/evidence.txt".
Proof.
  destruct (proj2 (track_movement_forgets_move Sample.node
                     (Scenario.cli_env 1700000100000 "entry-2" "audit-2")
                     ManifestScenario.rewritten Scenario.cli_path
                     "/srv/vault/evidence.txt" "to the vault")
                  (match lookup (files ManifestScenario.hashed_once)
                                (generateFileId Sample.node Scenario.cli_path) with
                   | Some f => f
                   | None => {| fileId := EmptyString; originalPath := EmptyString;
                                fileName := EmptyString; fileSize := 0; created := 0;
                                custodyChain := []; lastModified := None |}
                   end)
                  (utf8 "abd"))
    as (st' & Hrun & Hfiles & Hchain & Hlog & Hpath & _ & _).
  - vm_compute. reflexivity.
  - reflexivity.
  - exists st'. split; [exact Hrun|]. split; [exact Hfiles|].
    split; [rewrite Hchain; vm_compute; reflexivity|].
    split; [rewrite Hlog; vm_compute; reflexivity | exact Hpath].
Defined.

End Manifests.

(* ================================================================= *)
(** ** simple-server.js: the status view and the export agree *)

Module SimpleFacts.
Import Model Http SimpleServer MoreRoutes SimpleMore MapFacts.

Lemma keys_map_set {V : Type} (m : JsMap V) (k k' : string) (v : V) :
  List.In k' (List.map fst (map_set m k v)) <-> k' = k \/ List.In k' (List.map fst m).
Proof. exact (Manifests.keys_put m k k' v). Qed.

Lemma nodup_map_set {V : Type} (m : JsMap V) (k : string) (v : V) :
  List.NoDup (List.map fst m) -> List.NoDup (List.map fst (map_set m k v)).
Proof. exact (Manifests.nodup_put m k v). Qed.

Lemma In_map_set {V : Type} (m : JsMap V) (k : string) (v : V) (entry : string * V) :
  List.In entry (map_set m k v) -> entry = (k, v) \/ List.In entry m.
Proof. exact (Manifests.In_put m k v entry). Qed.

Lemma map_get_In {V : Type} (m : JsMap V) (k : string) (v : V) :
  map_get m k = Some v -> List.In (k, v) m.
Proof.
  induction m as [|[k0 v0] m IH]; simpl; [discriminate|].
  destruct (String.eqb_spec k0 k) as [->|Hne].
  - intros [= ->]. now left.
  - intros H. right. now apply IH.
Qed.

(** Rows grouped under keys: the rows of one key, out of the rows of all. *)
Section Grouped.
Variables (A R : Type) (key : A -> string) (rows : A -> list R) (rkey : R -> string).
Hypothesis rows_keyed : forall a r, List.In r (rows a) -> rkey r = key a.

Lemma group_other (a : A) (k : string) :
  key a <> k -> List.filter (fun r => String.eqb (rkey r) k) (rows a) = [].
Proof.
  intros Hne. apply Manifests.filter_none. intros r Hr.
  apply String.eqb_neq. now rewrite (rows_keyed a r Hr).
Qed.

Lemma group_same (a : A) :
  List.filter (fun r => String.eqb (rkey r) (key a)) (rows a) = rows a.
Proof.
  apply Manifests.filter_all. intros r Hr.
  apply String.eqb_eq. exact (rows_keyed a r Hr).
Qed.

Lemma group_of (l : list A) (a : A) :
  List.NoDup (List.map key l) -> List.In a l ->
  List.filter (fun r => String.eqb (rkey r) (key a)) (List.flat_map rows l) = rows a.
Proof.
  induction l as [|x l IH]; simpl; [tauto|].
  intros Hnd Hin. inversion Hnd as [|? ? Hx Hnd']; subst.
  rewrite List.filter_app.
  assert (Hnone : forall l', ~ List.In (key a) (List.map key l') ->
             List.filter (fun r => String.eqb (rkey r) (key a)) (List.flat_map rows l')
             = []).
  { induction l' as [|y l' IHl]; simpl; [reflexivity|].
    intros Hn. rewrite List.filter_app, group_other, IHl; [reflexivity| |]; tauto. }
  destruct Hin as [->|Hin].
  - rewrite group_same, (Hnone l Hx). apply List.app_nil_r.
  - rewrite group_other, (IH Hnd' Hin); [reflexivity|].
    intros E. apply Hx. rewrite E. now apply List.in_map.
Qed.

End Grouped.

Section WithRuntime.
Variable node : Runtime.

(** In every reachable state of simple-server.js the keys of [files] are
    distinct and each record is stored under its own fileId. *)
Lemma files_keyed (st : State) :
  Reach.simple_reachable node st ->
  List.NoDup (List.map fst (files st))
  /\ List.Forall (fun entry => s_fileId (snd entry) = fst entry) (files st).
Proof.
  induction 1 as [disk0 | st st' Hreach [IHn IHk] Hstep]; simpl.
  - split; constructor.
  - destruct Hstep as [rq env st | rq env st | rq env st | st disk']; simpl.
    + unfold post_upload, upload_handler; simpl.
      destruct (Routes.up_file rq) as [f|]; simpl; [|now split].
      destruct (Routes.up_userId rq) as [[|c u]|]; simpl; try now split.
      destruct (calculateFileHash _ _ _); simpl; [|now split].
      split; [now apply nodup_map_set|].
      apply List.Forall_forall. intros entry Hin.
      apply In_map_set in Hin. destruct Hin as [->|Hin]; [reflexivity|].
      exact (proj1 (List.Forall_forall _ _) IHk entry Hin).
    + unfold post_move.
      destruct (Routes.mv_fileId rq) as [[|c1 f]|]; simpl; try now split.
      destruct (Routes.mv_userId rq) as [[|c2 u]|]; simpl; try now split.
      destruct (Routes.mv_newLocation rq) as [[|c3 l]|]; simpl; try now split.
      destruct (map_get (files st) (String c1 f)) as [file0|] eqn:E; simpl;
        [|now split].
      split; [now apply nodup_map_set|].
      apply List.Forall_forall. intros entry Hin.
      apply In_map_set in Hin. destruct Hin as [->|Hin].
      * simpl. exact (proj1 (List.Forall_forall _ _) IHk _ (map_get_In _ _ _ E)).
      * exact (proj1 (List.Forall_forall _ _) IHk entry Hin).
    + unfold get_download.
      destruct (Routes.dl_userId rq) as [[|c u]|]; simpl; try now split.
      destruct (map_get (files st) (Routes.dl_fileId rq)); simpl; [|now split].
      destruct (Disk.readFile _ _); simpl; now split.
    + now split.
Qed.

Section WithDates.
Variable toISOString : Z -> string.

Lemma export_rows_flat_map (st : State) :
  export_rows toISOString st
  = List.flat_map (fun f => List.map (row_of toISOString f) (chain_of st (s_fileId f)))
                  (map_values (files st)).
Proof.
  unfold export_rows.
  assert (H : forall l acc,
             List.fold_left
               (fun flattenedData f =>
                  List.fold_left (fun acc event => acc ++ [row_of toISOString f event])
                                 (chain_of st (s_fileId f)) flattenedData)
               l acc
             = acc ++ List.flat_map
                        (fun f => List.map (row_of toISOString f)
                                           (chain_of st (s_fileId f))) l).
  { induction l as [|f l IH]; intros acc; simpl.
    - now rewrite List.app_nil_r.
    - rewrite IH, ReportFacts.fold_push, <- List.app_assoc. reflexivity. }
  exact (H _ []).
Qed.

(** X21. In simple-server.js the status view and the CSV export tell the
    same story.  In every state its routes can reach, a 200 of
    GET /api/upload/status/:fileId carries the record stored under that
    fileId and a chain that starts with the upload and has no other upload;
    the rows of GET /api/reports/export/csv that carry this fileId are, in
    order, exactly the events of that chain; and the export has one row per
    event of every file and no others. *)
Theorem simple_export_matches_status (id : string) (st : State) (body : StatusBody) :
  Reach.simple_reachable node st ->
  get_upload_status id st = Sent 200 body ->
  s_fileId (file body) = id
  /\ (exists (e : CustodyEvent) (rest : list CustodyEvent),
         chain body = e :: rest /\ action e = Upload
         /\ List.Forall (fun x => action x <> Upload) rest)
  /\ List.filter (fun r => String.eqb (row_fileId r) id) (export_rows toISOString st)
     = List.map (row_of toISOString (file body)) (chain body)
  /\ List.length (export_rows toISOString st)
     = List.list_sum (List.map (fun f => List.length (chain_of st (s_fileId f)))
                               (map_values (files st))).
Proof.
  intros Hreach. unfold get_upload_status.
  destruct (map_get (files st) id) as [f|] eqn:Hget; [|discriminate].
  intros [= <-]. cbn [file chain].
  destruct (files_keyed st Hreach) as [Hnd Hkeys].
  pose proof (map_get_In _ _ _ Hget) as Hin.
  pose proof (proj1 (List.Forall_forall _ _) Hkeys _ Hin) as Hid. cbn [fst snd] in Hid.
  split; [exact Hid|]. split; [|split].
  - apply (Invariants.simple_reachable_keeps node
             (fun c _ => exists e rest, c = e :: rest /\ action e = Upload
                                        /\ List.Forall (fun x => action x <> Upload) rest))
      with (sst := st) (id := id) (file := f); try assumption.
    + intros e Ha _. exists e, []. repeat split; auto.
    + intros c loc e (e0 & rest & -> & Ha0 & Hrest) Ha _.
      exists e0, (rest ++ [e]). repeat split; auto.
      apply List.Forall_app. split; [exact Hrest|].
      constructor; [|constructor]. rewrite Ha. discriminate.
    + intros c loc e (e0 & rest & -> & Ha0 & Hrest) Ha _.
      exists e0, (rest ++ [e]). repeat split; auto.
      apply List.Forall_app. split; [exact Hrest|].
      constructor; [|constructor]. destruct Ha as [-> | ->]; discriminate.
  - rewrite export_rows_flat_map. rewrite <- Hid.
    apply (group_of FileSummary Row s_fileId
             (fun f => List.map (row_of toISOString f) (chain_of st (s_fileId f)))
             row_fileId).
    + intros a r Hr. apply List.in_map_iff in Hr. now destruct Hr as (e & <- & _).
    + unfold map_values. rewrite List.map_map.
      rewrite (List.map_ext_in _ fst); [exact Hnd|].
      intros entry He. exact (proj1 (List.Forall_forall _ _) Hkeys entry He).
    + unfold map_values. apply List.in_map_iff. exists (id, f). split; [reflexivity|].
      exact Hin.
  - rewrite export_rows_flat_map, List.length_flat_map.
    f_equal. apply List.map_ext. intros a. apply List.length_map.
Qed.

End WithDates.
End WithRuntime.

(** X21 after the relocation of Scenario A on simple-server.js. *)
Lemma simple_export_matches_status_witness :
  let body := SimpleScenario.relocated_status in
  let st := Scenario.simple_relocated in
  s_fileId (file body) = Scenario.file1
  /\ (exists (e : CustodyEvent) (rest : list CustodyEvent),
         chain body = e :: rest /\ action e = Upload
         /\ List.Forall (fun x => action x <> Upload) rest)
  /\ List.filter (fun r => String.eqb (row_fileId r) Scenario.file1)
                 (export_rows SimpleScenario.iso st)
     = List.map (row_of SimpleScenario.iso (file body)) (chain body)
  /\ List.length (export_rows SimpleScenario.iso st)
     = List.list_sum (List.map (fun f => List.length (chain_of st (s_fileId f)))
                               (map_values (files st))).
Proof.
  apply (simple_export_matches_status Sample.node SimpleScenario.iso Scenario.file1
           Scenario.simple_relocated SimpleScenario.relocated_status).
  - exact Invariants.simple_relocated_reachable.
  - vm_compute. reflexivity.
Defined.

End SimpleFacts.

(* ================================================================= *)
(** ** The page flags of the list endpoints *)

Module PageFlags.
Import Model Http Paging UploadList Pages PagingFacts.

Lemma next_page_iff (p N total : Z) :
  1 <= N -> (p <? ceil_div total N) = true <-> p * N < total.
Proof.
  intros HN. rewrite Z.ltb_lt. unfold ceil_div.
  pose proof (Z.div_mod (- total) N ltac:(lia)) as Hdm.
  pose proof (Z.mod_pos_bound (- total) N ltac:(lia)) as Hb.
  split; intros H; nia.
Qed.

Lemma window_nonempty {A : Type} (n k : nat) (l : list A) :
  List.firstn n (List.skipn k l) <> [] <-> (0 < n /\ k < List.length l)%nat.
Proof.
  split.
  - intros H. split.
    + destruct n; [now destruct H | lia].
    + destruct (Nat.lt_ge_cases k (List.length l)) as [Hk|Hk]; [exact Hk|].
      rewrite List.skipn_all2 in H by exact Hk. rewrite List.firstn_nil in H.
      now destruct H.
  - intros [Hn Hk] H.
    apply (f_equal (@List.length A)) in H.
    rewrite List.length_firstn, List.length_skipn in H. simpl in H. lia.
Qed.

(** X22. The flags of a page say what the neighbouring pages hold.  For a
    page size N >= 1 and a page number p >= 1 of GET /api/upload/list (and
    of the list endpoint of simple-server.js): hasNextPage is true exactly
    when page p + 1 holds at least one record, which is when p * N is less
    than totalRecords; hasPreviousPage is true exactly when p > 1; a page
    up to totalPages holds at least one record and a page beyond totalPages
    holds none. *)
Theorem page_flags_are_exact
        (q : ListQuery) (db : Collection) (filters : Filters) (N p : Z)
        (sst : SimpleServer.State) :
  build_filters q = Some filters ->
  q_limit q = Some N ->
  1 <= N -> 1 <= p ->
  let total := Z.of_nat (List.length (find_sorted filters q db)) in
  let flags := pagination p N total in
  let stotal :=
    Z.of_nat (List.length (SimpleServer.map_values (SimpleServer.files sst))) in
  let sflags := pagination p N stotal in
  (exists data, page_of q db p = Json 200 (Listing data flags))
  /\ (hasNextPage flags = true <-> listing_data (page_of q db (p + 1)) <> [])
  /\ (hasNextPage flags = true <-> p * N < total)
  /\ (hasPreviousPage flags = true <-> 1 < p)
  /\ (p <= totalPages flags <-> listing_data (page_of q db p) <> [])
  /\ (exists data, simple_page_of (Some N) sst p = Json 200 (Listing data sflags))
  /\ (hasNextPage sflags = true
      <-> listing_data (simple_page_of (Some N) sst (p + 1)) <> [])
  /\ (p <= totalPages sflags <-> listing_data (simple_page_of (Some N) sst p) <> []).
Proof.
  intros Hf Hl HN Hp total flags stotal sflags.
  assert (Hpages : forall t, 0 <= t ->
             (p <= ceil_div t N <-> (p - 1) * N < t)).
  { intros t Ht.
    pose proof (next_page_iff (p - 1) N t HN) as H. rewrite Z.ltb_lt in H.
    rewrite <- H. lia. }
  split; [eexists; apply (page_of_eq q db filters N p Hf Hl HN Hp)|].
  split.
  { rewrite (page_of_eq q db filters N (p + 1) Hf Hl HN) by lia.
    cbn [listing_data]. unfold flags; cbn [hasNextPage].
    rewrite (next_page_iff p N total HN).
    match goal with
    | |- _ <-> List.map _ ?w <> [] =>
        assert (Hw : List.map select_no_chain w <> [] <-> w <> [])
          by (destruct w; simpl; split; congruence);
        rewrite Hw
    end.
    rewrite window_nonempty. unfold total. replace (p + 1 - 1) with p by lia.
    split; [intros H; split | intros [_ H]]; nia. }
  split; [unfold flags; cbn [hasNextPage]; apply (next_page_iff p N total HN)|].
  split; [unfold flags; cbn [hasPreviousPage]; apply Z.ltb_lt|].
  split.
  { rewrite (page_of_eq q db filters N p Hf Hl HN Hp).
    cbn [listing_data]. unfold flags; cbn [totalPages].
    rewrite (Hpages total) by (unfold total; lia).
    match goal with
    | |- _ <-> List.map _ ?w <> [] =>
        assert (Hw : List.map select_no_chain w <> [] <-> w <> [])
          by (destruct w; simpl; split; congruence);
        rewrite Hw
    end.
    rewrite window_nonempty. unfold total.
    split; [intros H; split | intros [_ H]]; nia. }
  split; [eexists; apply (simple_page_of_eq sst N p HN Hp)|].
  split.
  { rewrite (simple_page_of_eq sst N (p + 1) HN) by lia.
    cbn [listing_data]. unfold sflags; cbn [hasNextPage].
    rewrite (next_page_iff p N stotal HN).
    rewrite window_nonempty. unfold stotal. replace (p + 1 - 1) with p by lia.
    split; [intros H; split | intros [_ H]]; nia. }
  rewrite (simple_page_of_eq sst N p HN Hp).
  cbn [listing_data]. unfold sflags; cbn [totalPages].
  rewrite (Hpages stotal) by (unfold stotal; lia).
  rewrite window_nonempty. unfold stotal.
  split; [intros H; split | intros [_ H]]; nia.
Qed.

(** X22 at three records read two per page: page 1 has a next page and no
    previous one. *)
Lemma page_flags_are_exact_witness :
  let q := Scenario.by_name in
  let db := Routes.db Scenario.three_uploads in
  let sst := Scenario.simple_three_uploads in
  let total := Z.of_nat (List.length (find_sorted Scenario.by_name_filters q db)) in
  let flags := pagination 1 2 total in
  let stotal :=
    Z.of_nat (List.length (SimpleServer.map_values (SimpleServer.files sst))) in
  let sflags := pagination 1 2 stotal in
  (exists data, page_of q db 1 = Json 200 (Listing data flags))
  /\ (hasNextPage flags = true <-> listing_data (page_of q db (1 + 1)) <> [])
  /\ (hasNextPage flags = true <-> 1 * 2 < total)
  /\ (hasPreviousPage flags = true <-> 1 < 1)
  /\ (1 <= totalPages flags <-> listing_data (page_of q db 1) <> [])
  /\ (exists data, simple_page_of (Some 2) sst 1 = Json 200 (Listing data sflags))
  /\ (hasNextPage sflags = true
      <-> listing_data (simple_page_of (Some 2) sst (1 + 1)) <> [])
  /\ (1 <= totalPages sflags <-> listing_data (simple_page_of (Some 2) sst 1) <> []).
Proof.
  apply (page_flags_are_exact Scenario.by_name (Routes.db Scenario.three_uploads)
           Scenario.by_name_filters 2 1 Scenario.simple_three_uploads).
  - reflexivity.
  - reflexivity.
  - lia.
  - lia.
Defined.

End PageFlags.

(* ================================================================= *)
(** ** The move list, and the list that no request reaches *)

Module ActivityFacts.
Import Model Http Routes MoreRoutes Activity ModelFacts.

Lemma insert_perm (o : Z) (x : MoveRow) (l : list MoveRow) :
  Permutation (insert o x l) (x :: l).
Proof.
  induction l as [|y l IH]; simpl; [reflexivity|].
  destruct (may_precede o x y); [reflexivity|].
  rewrite IH. apply perm_swap.
Qed.

Lemma sort_rows_perm (o : Z) (l : list MoveRow) : Permutation (sort_rows o l) l.
Proof.
  unfold sort_rows. induction l as [|x l IH]; simpl; [reflexivity|].
  rewrite insert_perm. now constructor.
Qed.

Lemma may_precede_total (o : Z) (a b : MoveRow) :
  may_precede o a b = false -> may_precede o b a = true.
Proof. unfold may_precede. destruct (o =? 1); lia. Qed.

Lemma may_precede_trans (o : Z) (a b c : MoveRow) :
  may_precede o a b = true -> may_precede o b c = true -> may_precede o a c = true.
Proof. unfold may_precede. destruct (o =? 1); lia. Qed.

Lemma insert_in_time_order (o : Z) (x : MoveRow) (l : list MoveRow) :
  in_time_order o l -> in_time_order o (insert o x l).
Proof.
  unfold in_time_order.
  induction l as [|y l IH]; intros Hs; simpl.
  - constructor; constructor.
  - inversion Hs as [|? ? Hl Hy]; subst.
    destruct (may_precede o x y) eqn:E.
    + constructor; [exact Hs|]. constructor; [exact E|].
      apply List.Forall_forall. intros z Hz.
      apply may_precede_trans with (b := y); [exact E|].
      exact (proj1 (List.Forall_forall _ _) Hy z Hz).
    + constructor; [apply IH, Hl|].
      apply List.Forall_forall. intros z Hz.
      apply (Permutation_in _ (insert_perm o x l)) in Hz.
      destruct Hz as [<-|Hz]; [apply may_precede_total, E|].
      exact (proj1 (List.Forall_forall _ _) Hy z Hz).
Qed.

Lemma sort_rows_in_time_order (o : Z) (l : list MoveRow) :
  in_time_order o (sort_rows o l).
Proof.
  unfold sort_rows. induction l as [|x l IH]; simpl; [constructor|].
  now apply insert_in_time_order.
Qed.

Lemma in_time_order_skipn (o : Z) (k : nat) (l : list MoveRow) :
  in_time_order o l -> in_time_order o (List.skipn k l).
Proof.
  unfold in_time_order. revert l. induction k as [|k IH]; intros l Hs; [exact Hs|].
  destruct l as [|x l]; [exact Hs|]. simpl. apply IH. now inversion Hs.
Qed.

Lemma in_time_order_firstn (o : Z) (k : nat) (l : list MoveRow) :
  in_time_order o l -> in_time_order o (List.firstn k l).
Proof.
  unfold in_time_order. revert l. induction k as [|k IH]; intros l Hs; [constructor|].
  destruct l as [|x l]; [constructor|]. simpl.
  inversion Hs as [|? ? Hl Hx]; subst. constructor; [now apply IH|].
  apply List.Forall_forall. intros z Hz.
  apply (proj1 (List.Forall_forall _ _) Hx).
  rewrite <- (List.firstn_skipn k l). apply List.in_or_app. now left.
Qed.

Lemma piped_length (q : ActivityQuery) (db : Collection) :
  List.length (piped q db)
  = List.list_sum
      (List.map (fun d => List.length (List.filter (move_keep q) (custodyChain d))) db).
Proof.
  unfold piped. rewrite List.length_flat_map. f_equal.
  apply List.map_ext. intros d. apply List.length_map.
Qed.

Lemma piped_In (q : ActivityQuery) (db : Collection) (row : MoveRow) :
  List.In row (piped q db) ->
  exists d e, List.In d db /\ List.In e (custodyChain d)
              /\ move_keep q e = true /\ row = move_project d e.
Proof.
  unfold piped. intros H. apply List.in_flat_map in H.
  destruct H as (d & Hd & H). apply List.in_map_iff in H.
  destruct H as (e & <- & He). apply List.filter_In in He.
  exists d, e. tauto.
Qed.

Lemma list_sum_perm (l l' : list nat) :
  Permutation l l' -> List.list_sum l = List.list_sum l'.
Proof.
  induction 1 as [|x l l' _ IH|x y l|l l' l'' _ IH1 _ IH2]; simpl; lia.
Qed.

Section WithRuntime.
Variable node : Runtime.

(** X24. GET /api/move/list, for a page and a limit from 1 on within
    JavaScript's exact integers, and however the aggregation comes across
    the records: it answers 200; totalRecords is the number of custody
    events, over all records, that pass the filters of the query, all of
    them move or upload events; the page holds at most limit rows, in the
    timestamp order asked for, each of them such an event of a record of
    the collection; when all of them fit on the first page, the page holds
    every one of them.  In a state the routes can reach, the totalRecords
    of the list without filters is the sum of the lengths of the
    moveHistory that GET /api/move/history/:fileId reports for each
    record. *)
Theorem move_list_answers (q : ActivityQuery) (db : Collection) :
  let page := Paging.parse_or (a_page q) 1 in
  let limit := Paging.parse_or (a_limit q) 10 in
  let total :=
    Z.of_nat (List.list_sum
                (List.map (fun d => List.length
                                      (List.filter (move_keep q) (custodyChain d)))
                          db)) in
  1 <= page -> 1 <= limit -> page * limit <= Paging.max_safe_integer ->
  exists rows : list MoveRow,
    get_move_list q db
    = Sent 200 {| lb_data := rows;
                  lb_pagination := Paging.pagination page limit total |}
    /\ Z.of_nat (List.length rows) <= limit
    /\ in_time_order (sortOrder_of q) rows
    /\ (forall row, List.In row rows ->
          exists d e, List.In d db /\ List.In e (custodyChain d)
                      /\ (action e = Move \/ action e = Upload)
                      /\ move_keep q e = true /\ row = move_project d e)
    /\ (page = 1 -> total <= limit -> Permutation rows (piped q db))
    /\ (forall st : State,
          Reach.reachable node st -> Permutation db (Routes.db st) ->
          a_startDate q = None -> a_endDate q = None ->
          a_userId q = None -> a_location q = None ->
          total
          = Z.of_nat (List.list_sum
                        (List.map (fun d => history_length
                                              (get_move_history (fileId d) st))
                                  (Routes.db st)))).
Proof.
  intros page limit total Hpage Hlimit _.
  unfold get_move_list. fold page. fold limit. cbv zeta.
  destruct (Z.ltb_spec ((page - 1) * limit) 0) as [|Hskip]; [nia|].
  destruct (Z.leb_spec limit 0) as [|_]; [lia|]. cbn [orb].
  rewrite piped_length. fold total.
  eexists. split; [reflexivity|].
  split; [rewrite List.length_firstn; lia|].
  split; [apply in_time_order_firstn, in_time_order_skipn, sort_rows_in_time_order|].
  split; [|split].
  - intros row Hin.
    assert (Hp : List.In row (piped q db)).
    { apply (Permutation_in _ (sort_rows_perm (sortOrder_of q) _)).
      rewrite <- (List.firstn_skipn (Z.to_nat ((page - 1) * limit))).
      apply List.in_or_app. right.
      rewrite <- (List.firstn_skipn (Z.to_nat limit) (List.skipn _ _)).
      apply List.in_or_app. now left. }
    destruct (piped_In q db row Hp) as (d & e & Hd & He & Hk & Hr).
    exists d, e. repeat (split; [assumption|]). split; [|tauto].
    unfold move_keep, move_or_upload in Hk.
    destruct (action e); simpl in Hk; try discriminate; auto.
  - intros Hone Hfits. rewrite Hone. change ((1 - 1) * limit) with 0.
    change (Z.to_nat 0) with 0%nat. cbn [List.skipn].
    rewrite List.firstn_all2; [apply sort_rows_perm|].
    rewrite (Permutation_length (sort_rows_perm _ _)), piped_length.
    unfold total in Hfits. lia.
  - intros st Hreach Hperm Hs He Hu Hl.
    pose proof (Ledger.reachable_ids_nodup node st Hreach) as Hnd.
    unfold total. f_equal.
    rewrite (list_sum_perm _ _ (Permutation_map _ Hperm)).
    f_equal. apply List.map_ext_in. intros d Hin.
    unfold get_move_history. rewrite (Ledger.find_member _ _ Hnd Hin).
    cbn [history_length hb_moveHistory]. rewrite List.length_map.
    f_equal. apply List.filter_ext. intros e.
    unfold move_keep, in_dates. rewrite Hs, He, Hu, Hl.
    cbn [UploadList.given Reports.holds].
    now rewrite !Bool.andb_true_r.
Qed.

End WithRuntime.

Import Router.

Lemma lower_empty (x : string) (s : string) :
  nonempty x = false -> nonempty s = true -> String.eqb (toLowerCase x) s = false.
Proof. destruct x; [destruct s|]; simpl; congruence. Qed.

(** X25. No request reaches the handler of GET /download/list.
    download.js registers /download/:fileId before /download/list, and the
    routers of server.js hand a request to the first route that matches:
    whatever the method and the path, the handler that answers is never the
    list handler.  GET /api/download/list is answered by the download
    handler with fileId "list": 400 "User ID is required for download"
    without a userId, and 404 "File not found" with one unless a record has
    that fileId.  The other two lists, registered after routes with more
    segments only, are reached. *)
Theorem download_list_is_shadowed :
  (forall (method : Method) (segments : list string)
          (handler : Handler) (params : list (string * string)),
      dispatch api_routes method segments = Some (handler, params) ->
      handler <> HDownloadList)
  /\ dispatch api_routes GET ["download"; "list"]
     = Some (HDownload, [("fileId", "list")])
  /\ dispatch api_routes GET ["move"; "list"] = Some (HMoveList, [])
  /\ dispatch api_routes GET ["upload"; "list"] = Some (HUploadList, [])
  /\ (forall (node : Runtime) (env : Env) (st : State) (notes : option string),
         get_download node
           {| dl_fileId := param "fileId" [("fileId", "list")];
              dl_userId := None; dl_notes := notes |} env st
         = (st, Json 400 (Error "User ID is required for download" None)))
  /\ (forall (node : Runtime) (env : Env) (st : State) (actor : string)
             (notes : option string),
         actor <> EmptyString ->
         findByFileId (db st) "list" = None ->
         get_download node
           {| dl_fileId := param "fileId" [("fileId", "list")];
              dl_userId := Some actor; dl_notes := notes |} env st
         = (st, Json 404 (Error "File not found" None))).
Proof.
  split; [|split; [|split; [|split; [|split]]]]; try reflexivity.
  - intros method segments handler params H ->.
    destruct method; cbn [api_routes upload_routes move_routes download_routes
                          List.app dispatch method_eqb] in H;
      destruct segments as [|x [|y [|z [|w r]]]]; cbn [match_path option_map] in H;
      repeat match type of H with
             | context [if ?c then _ else _] => destruct c eqn:?
             end;
      try discriminate H.
    all: match goal with
         | E : nonempty ?y = false, F : String.eqb (toLowerCase ?y) ?s = true |- _ =>
             rewrite (lower_empty y s E eq_refl) in F; discriminate F
         end.
  - intros node env st actor notes Hactor Hnone.
    change (param "fileId" [("fileId", "list")]) with "list".
    unfold get_download; cbn [dl_userId dl_fileId].
    destruct actor as [|c u]; [congruence|].
    now rewrite Hnone.
Qed.

(** X24 at the end of Scenario A, for the list without filters: an upload
    and a move, the later first. *)
Lemma move_list_answers_witness :
  let db := Routes.db Scenario.retrieved in
  exists rows : list MoveRow,
    get_move_list unfiltered db
    = Sent 200 {| lb_data := rows; lb_pagination := Paging.pagination 1 10 2 |}
    /\ List.map mr_action rows = [Move; Upload]
    /\ Z.of_nat (List.length rows) <= 10
    /\ in_time_order (-1) rows
    /\ (1 = 1 -> 2 <= 10 -> Permutation rows (piped unfiltered db))
    /\ 2 = Z.of_nat (List.list_sum
                       (List.map (fun d => history_length
                                             (get_move_history (fileId d)
                                                               Scenario.retrieved))
                                 (Routes.db Scenario.retrieved))).
Proof.
  cbv zeta.
  destruct (move_list_answers Sample.node unfiltered (Routes.db Scenario.retrieved))
    as (rows & Hreply & Hlen & Hord & _ & Hall & Hhist).
  - vm_compute. discriminate.
  - vm_compute. discriminate.
  - vm_compute. discriminate.
  - exists rows.
    assert (Htotal : Z.of_nat
                       (List.list_sum
                          (List.map (fun d => List.length
                                                (List.filter (move_keep unfiltered)
                                                             (custodyChain d)))
                                    (Routes.db Scenario.retrieved))) = 2)
      by (vm_compute; reflexivity).
    rewrite Htotal in Hreply, Hall, Hhist.
    split; [exact Hreply|].
    split.
    { pose proof Hreply as Hrows. vm_compute in Hrows.
      injection Hrows as Hrows. rewrite <- Hrows. reflexivity. }
    split; [exact Hlen|]. split; [exact Hord|]. split; [exact Hall|].
    apply (Hhist Scenario.retrieved Invariants.retrieved_reachable
                 (Permutation_refl _)); reflexivity.
Defined.

End ActivityFacts.
